(** * json-config-sync: the configuration normalization engine

    A shallow embedding of the validator of [src/config.ts], of the two
    normalizers ([src/config.ts], one target file; [config-normalizer.ts],
    a map of target files) and of the merge and interpolation helpers they
    import, followed by the properties of the specification. *)

From Stdlib Require Import String Ascii List Bool ZArith Lia DecimalString Permutation.
Import ListNotations.
Open Scope list_scope.
Open Scope string_scope.

(* ===================================================================== *)
(** * Thrown errors *)
(* ===================================================================== *)

(** [throw new Error(message)], and the runtime's own [TypeError] for a
    property read on [undefined]. *)
Inductive exn : Type :=
| Error (message : string)
| TypeError.

Inductive result (A : Type) : Type :=
| Ok (a : A)
| Throw (e : exn).

Arguments Ok {A} a.
Arguments Throw {A} e.

Definition bind {A B : Type} (r : result A) (k : A -> result B) : result B :=
  match r with
  | Ok a => k a
  | Throw e => Throw e
  end.

Notation "x <- c ;; k" := (bind c (fun x => k))
  (at level 61, c at next level, right associativity).

Definition isOk {A : Type} (r : result A) : bool :=
  match r with Ok _ => true | Throw _ => false end.

(** A [for ... of] loop whose body may throw: the elements are visited in
    order and the first throw ends the loop. *)
Section Loops.
Context {A B : Type} (f : A -> result B).

Fixpoint mapM (l : list A) : result (list B) :=
  match l with
  | [] => Ok []
  | a :: rest =>
      b <- f a ;;
      bs <- mapM rest ;;
      Ok (b :: bs)
  end.
End Loops.

(* ===================================================================== *)
(** * JSON-like content *)
(* ===================================================================== *)

Module Json.

(** Modelled from the spec: the strategy token of a merge directive,
    ["append"] or ["prepend"] (the declarations of [merge.ts] are not
    among the sources). *)
Inductive DirectiveStrategy : Type :=
| DirAppend
| DirPrepend.

#[local] Unset Elimination Schemes.

(** Modelled from the spec: the JSON-like content behind
    [Record<string, unknown>], as a tagged variant.  The reserved shape
    [{ $arrayMerge: "append"|"prepend", values: [...] }] is the variant
    [VDirective]: the key [$arrayMerge] is never ordinary data, so an
    object carrying it is not a [VObj].  Numbers are only carried
    around, never computed on; they are kept as integers. *)
Inductive value : Type :=
| VNull
| VBool (b : bool)
| VNum (n : Z)
| VStr (s : string)
| VArr (items : list value)
| VObj (fields : list (string * value))
| VDirective (strategy : DirectiveStrategy) (values : list value).

#[local] Set Elimination Schemes.

(** [Record<string, unknown>]: the fields in insertion order (the order
    in which the properties were created). *)
Definition object : Type := list (string * value).

(** [o[k]], for any record keyed by strings. *)
Fixpoint lookup {A : Type} (k : string) (o : list (string * A)) : option A :=
  match o with
  | [] => None
  | (k', v) :: rest => if String.eqb k k' then Some v else lookup k rest
  end.

(** [o[k] = v]: an existing key keeps its place, a new key goes last. *)
Fixpoint assign (k : string) (v : value) (o : object) : object :=
  match o with
  | [] => [(k, v)]
  | (k', v') :: rest =>
      if String.eqb k k' then (k', v) :: rest else (k', v') :: assign k v rest
  end.

(** The names of the fields, in insertion order.  This is not the order
    of [Object.keys(o)], which is [objectKeys] below. *)
Definition keys {A : Type} (o : list (string * A)) : list string := map fst o.

Definition isDigit (c : ascii) : bool :=
  let n := nat_of_ascii c in
  Nat.leb 48%nat n && Nat.leb n 57%nat.

(** The number written by a string of decimal digits. *)
Fixpoint digitsValue (acc : N) (s : string) : option N :=
  match s with
  | EmptyString => Some acc
  | String c rest =>
      if isDigit c
      then digitsValue (acc * 10 + N.of_nat (Nat.sub (nat_of_ascii c) 48%nat))%N rest
      else None
  end.

(** A property name that is an array index: the canonical decimal
    writing (no leading zero, no sign) of an integer from 0 to 2^32 - 2. *)
Definition arrayIndex (k : string) : option N :=
  match k with
  | EmptyString => None
  | String c rest =>
      if Ascii.eqb c "0"
      then match rest with EmptyString => Some 0%N | _ => None end
      else match digitsValue 0%N k with
           | Some n => if (n <=? 4294967294)%N then Some n else None
           | None => None
           end
  end.

Fixpoint insertIndex (n : N) (k : string) (sorted : list (N * string))
  : list (N * string) :=
  match sorted with
  | [] => [(n, k)]
  | (m, k') :: rest =>
      if (n <? m)%N then (n, k) :: sorted else (m, k') :: insertIndex n k rest
  end.

(** The array-index names among [names], by ascending index. *)
Fixpoint indexKeys (names : list string) : list (N * string) :=
  match names with
  | [] => []
  | k :: rest =>
      match arrayIndex k with
      | Some n => insertIndex n k (indexKeys rest)
      | None => indexKeys rest
      end
  end.

Definition isIndexKey (k : string) : bool :=
  match arrayIndex k with Some _ => true | None => false end.

(** [Object.keys(o)]: the own property names in the order of the
    language: the array indices first, by ascending value, then the
    other names in insertion order. *)
Definition objectKeys {A : Type} (o : list (string * A)) : list string :=
  (map snd (indexKeys (keys o))
   ++ filter (fun k => negb (isIndexKey k)) (keys o))%list.

(** [structuredClone(x)]: a deep copy; values here have no identity, so
    the copy is the value. *)
Definition structuredClone {A : Type} (x : A) : A := x.

(** No directive anywhere inside the value. *)
Fixpoint directiveFree (v : value) : bool :=
  match v with
  | VDirective _ _ => false
  | VArr items => forallb directiveFree items
  | VObj fields => forallb (fun kv => directiveFree (snd kv)) fields
  | _ => true
  end.

Definition directiveFreeObject (o : object) : bool :=
  forallb (fun kv => directiveFree (snd kv)) o.

(** Every string value inside the value (keys are not values). *)
Fixpoint stringsOf (v : value) : list string :=
  match v with
  | VStr s => [s]
  | VArr items => flat_map stringsOf items
  | VObj fields => flat_map (fun kv => stringsOf (snd kv)) fields
  | VDirective _ values => flat_map stringsOf values
  | _ => []
  end.

Definition stringsOfObject (o : object) : list string :=
  flat_map (fun kv => stringsOf (snd kv)) o.

End Json.

(* ===================================================================== *)
(** * Merge engine ([merge.ts]) *)
(* ===================================================================== *)

Module Merge.
Import Json.

(** Modelled from the spec: [ArrayMergeStrategy] of [merge.ts], which is
    not among the sources: ["replace" | "append" | "prepend"]. *)
Inductive ArrayMergeStrategy : Type :=
| Replace
| Append
| Prepend.

(** Modelled from the spec: the strategy context handed to [deepMerge]
    ([merge.ts] is not among the sources). *)
Record MergeContext : Type := {
  defaultArrayStrategy : ArrayMergeStrategy
}.

(** Modelled from the spec: [createMergeContext] of [merge.ts], which is
    not among the sources.  The context carries the ambient (document-
    or file-level) array strategy. *)
Definition createMergeContext (strategy : ArrayMergeStrategy) : MergeContext :=
  {| defaultArrayStrategy := strategy |}.

(** Modelled from the spec: how two sequences combine under a strategy
    ([merge.ts] is not among the sources): [replace] discards the base,
    [append] is base then overlay, [prepend] is overlay then base. *)
Definition mergeArrays (base overlay : list value) (strategy : ArrayMergeStrategy)
  : list value :=
  match strategy with
  | Replace => overlay
  | Append => (base ++ overlay)%list
  | Prepend => (overlay ++ base)%list
  end.

(** Modelled from the spec: [base[k]] read as a sequence, empty by
    default ([merge.ts] is not among the sources). *)
Definition asSequence (bv : option value) : list value :=
  match bv with
  | Some (VArr items) => items
  | _ => []
  end.

(** Modelled from the spec: a directive resolves at once against
    [base[k]], whatever the ambient strategy ([merge.ts] is not among
    the sources). *)
Definition resolveDirective (strategy : DirectiveStrategy) (values : list value)
           (bv : option value) : list value :=
  match strategy with
  | DirAppend => (asSequence bv ++ values)%list
  | DirPrepend => (values ++ asSequence bv)%list
  end.

(** Modelled from the spec: the value [deepMerge] stores at a key from
    [base[k]] (absent: [None]) and [overlay[k]] ([merge.ts] is not among
    the sources).  Two mappings recurse key by key over the overlay; a
    directive resolves; two sequences follow the ambient strategy;
    anything else is replaced by the overlay's value. *)
Fixpoint mergeValue (ctx : MergeContext) (bv : option value) (ov : value)
  {struct ov} : value :=
  match ov with
  | VDirective strategy values => VArr (resolveDirective strategy values bv)
  | VObj overlay =>
      match bv with
      | Some (VObj base) =>
          VObj ((fix mergeFields (fields : list (string * value)) (result : object)
                   {struct fields} : object :=
                   match fields with
                   | [] => result
                   | (k, v) :: rest =>
                       mergeFields rest
                         (assign k (mergeValue ctx (lookup k base) v) result)
                   end) overlay base)
      | _ => ov
      end
  | VArr items =>
      match bv with
      | Some (VArr baseItems) =>
          VArr (mergeArrays baseItems items (defaultArrayStrategy ctx))
      | _ => ov
      end
  | _ => ov
  end.

(** Modelled from the spec: the loop of [deepMerge] over the overlay's
    keys ([merge.ts] is not among the sources): [result] starts as a copy
    of [base], keys of [base] the overlay lacks stay as they are. *)
Fixpoint mergeFields (ctx : MergeContext) (base : object)
         (fields : list (string * value)) (result : object) : object :=
  match fields with
  | [] => result
  | (k, v) :: rest =>
      mergeFields ctx base rest
        (assign k (mergeValue ctx (lookup k base) v) result)
  end.

(** Modelled from the spec: [deepMerge(base, overlay, strategyContext)]
    of [merge.ts], which is not among the sources. *)
Definition deepMerge (base overlay : object) (ctx : MergeContext) : object :=
  mergeFields ctx base overlay base.

(** Modelled from the spec: the walk of [stripMergeDirectives] on a
    value ([merge.ts] is not among the sources): a directive left in
    the tree becomes its [values] sequence, itself walked; all other
    structure stays. *)
Fixpoint stripValue (v : value) : value :=
  match v with
  | VDirective _ values => VArr (map stripValue values)
  | VArr items => VArr (map stripValue items)
  | VObj fields => VObj (map (fun kv => (fst kv, stripValue (snd kv))) fields)
  | _ => v
  end.

(** Modelled from the spec: [stripMergeDirectives] of [merge.ts], which
    is not among the sources. *)
Definition stripMergeDirectives (o : object) : object :=
  map (fun kv => (fst kv, stripValue (snd kv))) o.

End Merge.

(* ===================================================================== *)
(** * Environment interpolation ([env.ts]) *)
(* ===================================================================== *)

Module Env.
Import Json.

(** [process.env], read by point lookups only. *)
Definition Env : Type := string -> option string.

(** Modelled from the spec: [EnvInterpolationOptions] of [env.ts], which
    is not among the sources. *)
Record EnvInterpolationOptions : Type := {
  strict : bool
}.

(** Modelled from the spec: what follows the name inside [${...}],
    nothing, [:-default] or [:?message] ([env.ts] is not among the
    sources). *)
Inductive Modifier : Type :=
| Plain
| Default (text : string)
| Required (message : string).

(** Modelled from the spec: a string cut into literal characters and
    recognised occurrences ([env.ts] is not among the sources). *)
Inductive Token : Type :=
| Literal (c : ascii)
| Occurrence (name : string) (modifier : Modifier).

(** Modelled from the spec: the characters of a variable name, letters,
    digits and underscore ([env.ts] is not among the sources). *)
Definition isNameChar (c : ascii) : bool :=
  let n := nat_of_ascii c in
  (((65 <=? n) && (n <=? 90)) || ((97 <=? n) && (n <=? 122))
   || ((48 <=? n) && (n <=? 57)) || (n =? 95))%nat.

(** Modelled from the spec: the longest run of name characters at the
    head, and what follows ([env.ts] is not among the sources). *)
Fixpoint scanName (s : string) : string * string :=
  match s with
  | EmptyString => ("", "")
  | String c rest =>
      if isNameChar c
      then let (name, after) := scanName rest in (String c name, after)
      else ("", s)
  end.

(** Modelled from the spec: the text up to the first closing brace, and
    what follows the brace ([env.ts] is not among the sources). *)
Fixpoint scanToBrace (s : string) : option (string * string) :=
  match s with
  | EmptyString => None
  | String c rest =>
      if Ascii.eqb c "}" then Some ("", rest)
      else match scanToBrace rest with
           | Some (text, after) => Some (String c text, after)
           | None => None
           end
  end.

(** Modelled from the spec: the three recognised forms, read after the
    opening [${] ([env.ts] is not among the sources): a name, then the
    closing brace, or [:-] and a default, or [:?] and a message, each up
    to the first closing brace. *)
Definition matchReference (body : string) : option (string * Modifier * string) :=
  match scanName body with
  | (EmptyString, _) => None
  | (name, String c after) =>
      if Ascii.eqb c "}" then Some (name, Plain, after)
      else if Ascii.eqb c ":" then
        match after with
        | String m text =>
            if Ascii.eqb m "-" then
              match scanToBrace text with
              | Some (d, rest) => Some (name, Default d, rest)
              | None => None
              end
            else if Ascii.eqb m "?" then
              match scanToBrace text with
              | Some (msg, rest) => Some (name, Required msg, rest)
              | None => None
              end
            else None
        | EmptyString => None
        end
      else None
  | (_, EmptyString) => None
  end.

(** Modelled from the spec: the left-to-right scan for occurrences
    ([env.ts] is not among the sources).  [skip] counts the characters
    of an occurrence already recognised that are still to be passed; a
    dollar sign that opens no recognised form is a literal. *)
Fixpoint scan (skip : nat) (s : string) : list Token :=
  match s with
  | EmptyString => []
  | String c rest =>
      match skip with
      | S n => scan n rest
      | O =>
          if Ascii.eqb c "$" then
            match rest with
            | String b body =>
                if Ascii.eqb b "{" then
                  match matchReference body with
                  | Some (name, modifier, after) =>
                      Occurrence name modifier
                        :: scan (S (String.length body - String.length after)) rest
                  | None => Literal c :: scan O rest
                  end
                else Literal c :: scan O rest
            | EmptyString => Literal c :: scan O rest
            end
          else Literal c :: scan O rest
      end
  end.

(** Modelled from the spec: the occurrences of a whole string, scanned
    from its first character ([env.ts] is not among the sources). *)
Definition tokenize (s : string) : list Token := scan O s.

(** Modelled from the spec: the text of a plain occurrence as it stands
    in the input ([env.ts] is not among the sources). *)
Definition placeholder (name : string) : string := "${" ++ name ++ "}".

(** Modelled from the spec: what one occurrence becomes ([env.ts] is not
    among the sources).  A defined variable, even an empty one, gives
    its value; otherwise the default, or a failure for [:?] and for a
    plain reference in strict mode, or the placeholder left as it is. *)
Definition resolve (env : Env) (strictMode : bool) (name : string) (m : Modifier)
  : result string :=
  match env name with
  | Some v => Ok v
  | None =>
      match m with
      | Default text => Ok text
      | Required message => Throw (Error (name ++ ": " ++ message))
      | Plain =>
          if strictMode
          then Throw (Error ("Missing required environment variable: " ++ name))
          else Ok (placeholder name)
      end
  end.

(** Modelled from the spec: the result string ([env.ts] is not among
    the sources): literal segments and substituted values, concatenated
    in order; the leftmost failing occurrence throws. *)
Fixpoint substitute (env : Env) (strictMode : bool) (tokens : list Token)
  : result string :=
  match tokens with
  | [] => Ok ""
  | Literal c :: rest =>
      tail <- substitute env strictMode rest ;;
      Ok (String c tail)
  | Occurrence name m :: rest =>
      v <- resolve env strictMode name m ;;
      tail <- substitute env strictMode rest ;;
      Ok (v ++ tail)
  end.

(** Modelled from the spec: the rewriting of one string value ([env.ts]
    is not among the sources). *)
Definition processString (env : Env) (strictMode : bool) (s : string) : result string :=
  substitute env strictMode (tokenize s).

(** Modelled from the spec: the recursive visit ([env.ts] is not among
    the sources): mappings and sequences are walked, strings rewritten,
    other scalars left alone. *)
Fixpoint processValue (env : Env) (strictMode : bool) (v : value) : result value :=
  match v with
  | VStr s => s' <- processString env strictMode s ;; Ok (VStr s')
  | VArr items =>
      items' <- mapM (processValue env strictMode) items ;;
      Ok (VArr items')
  | VObj fields =>
      fields' <- mapM (fun kv => v' <- processValue env strictMode (snd kv) ;;
                                 Ok (fst kv, v')) fields ;;
      Ok (VObj fields')
  | VDirective strategy values =>
      values' <- mapM (processValue env strictMode) values ;;
      Ok (VDirective strategy values')
  | _ => Ok v
  end.

(** Modelled from the spec: the visit of the top-level mapping, field by
    field in order ([env.ts] is not among the sources). *)
Definition processObject (env : Env) (strictMode : bool) (o : object) : result object :=
  mapM (fun kv => v' <- processValue env strictMode (snd kv) ;; Ok (fst kv, v')) o.

(** Modelled from the spec: the default of the second argument of
    [interpolateEnvVars] ([env.ts] is not among the sources; its tests
    say "default strict mode is true"). *)
Definition defaultOptions : EnvInterpolationOptions := {| strict := true |}.

Definition strictOf (options : option EnvInterpolationOptions) : bool :=
  strict match options with Some given => given | None => defaultOptions end.

(** Modelled from the spec: [interpolateEnvVars(value, options?)] of
    [env.ts], which is not among the sources; its tests fix the default
    of the second argument. *)
Definition interpolateEnvVars (env : Env) (o : object)
           (options : option EnvInterpolationOptions) : result object :=
  processObject env (strictOf options) o.

(** An occurrence that has no value to fall back on: [:?] always, a
    plain reference in strict mode, [:-] never. *)
Definition requiresVariable (strictMode : bool) (m : Modifier) : bool :=
  match m with
  | Plain => strictMode
  | Default _ => false
  | Required _ => true
  end.

(** Shapes of the text around an occurrence. *)
Fixpoint allChars (p : ascii -> bool) (s : string) : bool :=
  match s with
  | EmptyString => true
  | String c rest => p c && allChars p rest
  end.

Definition noDollar (s : string) : bool :=
  allChars (fun c => negb (Ascii.eqb c "$")) s.

Definition noBrace (s : string) : bool :=
  allChars (fun c => negb (Ascii.eqb c "}")) s.

Definition validName (s : string) : bool :=
  match s with
  | EmptyString => false
  | String _ _ => allChars isNameChar s
  end.

Definition literals (s : string) : list Token :=
  map Literal (list_ascii_of_string s).

End Env.

(* ===================================================================== *)
(** * Git targets *)
(* ===================================================================== *)

Module Git.

(** [git: string | string[]] *)
Inductive GitField : Type :=
| GitUrl (url : string)
| GitUrls (urls : list string).

(** A JavaScript string is truthy when it is not empty. *)
Definition truthyString (s : string) : bool :=
  match s with
  | EmptyString => false
  | String _ _ => true
  end.

(** [!git] is false for every array, the empty one included. *)
Definition truthyGit (g : GitField) : bool :=
  match g with
  | GitUrl url => truthyString url
  | GitUrls _ => true
  end.

(** An optional boolean flag read as a condition. *)
Definition truthyFlag (b : option bool) : bool :=
  match b with
  | Some true => true
  | _ => false
  end.

Definition isSome {A : Type} (x : option A) : bool :=
  match x with Some _ => true | None => false end.

(** The digits of [${i}] in a template literal. *)
Definition showIndex (i : nat) : string := NilZero.string_of_uint (Nat.to_uint i).

End Git.

(* ===================================================================== *)
(** * [src/config.ts]: one target file per document *)
(* ===================================================================== *)

Module ConfigTs.
Import Json Merge Env Git.

(** The document as parsed from YAML: a field the interface declares
    may still be missing at run time, which is what validation checks. *)
Module RawRepoConfig.
Record t : Type := {
  git : option GitField;
  json : option object;
  override : option bool
}.
End RawRepoConfig.

Module RawConfig.
Record t : Type := {
  fileName : option string;
  json : option object;
  mergeStrategy : option ArrayMergeStrategy;
  (** [None]: missing ([undefined] or [null]); otherwise the array.  A
      [repos] of another type is not a document of this record. *)
  repos : option (list RawRepoConfig.t)
}.
End RawConfig.

Module RepoConfig.
Record t : Type := {
  (** [undefined] only for a raw entry without [git] *)
  git : option string;
  json : object
}.
End RepoConfig.

Module Config.
Record t : Type := {
  fileName : option string;
  repos : list RepoConfig.t
}.
End Config.

Definition getGitDisplayName (git : GitField) : string :=
  match git with
  | GitUrls urls =>
      match urls with
      | first :: _ => if truthyString first then first else "unknown"
      | [] => "unknown"
      end
  | GitUrl url => url
  end.

Definition missingGit (i : nat) : exn :=
  Error ("Repo at index " ++ showIndex i ++ " missing required field: git").

Definition missingJson (i : nat) : exn :=
  Error ("Repo at index " ++ showIndex i
         ++ " missing required field: json (no root-level json defined)").

Definition overrideWithoutJson (git : GitField) : exn :=
  Error ("Repo " ++ getGitDisplayName git ++ " has override: true but no json defined").

(** [!repo.git] *)
Definition lacksGit (repo : RawRepoConfig.t) : bool :=
  match RawRepoConfig.git repo with
  | Some git => negb (truthyGit git)
  | None => true
  end.

(** The body of the loop [for (let i = 0; i < config.repos.length; i++)]. *)
Definition validateRepo (hasRootJson : bool) (i : nat) (repo : RawRepoConfig.t)
  : result unit :=
  match RawRepoConfig.git repo with
  | None => Throw (missingGit i)
  | Some git =>
      if negb (truthyGit git) then Throw (missingGit i)
      else if negb hasRootJson && negb (isSome (RawRepoConfig.json repo))
      then Throw (missingJson i)
      else if truthyFlag (RawRepoConfig.override repo)
              && negb (isSome (RawRepoConfig.json repo))
      then Throw (overrideWithoutJson git)
      else Ok tt
  end.

Fixpoint validateRepos (hasRootJson : bool) (i : nat) (repos : list RawRepoConfig.t)
  : result unit :=
  match repos with
  | [] => Ok tt
  | repo :: rest =>
      _ <- validateRepo hasRootJson i repo ;;
      validateRepos hasRootJson (S i) rest
  end.

Definition validateRawConfig (config : RawConfig.t) : result unit :=
  match RawConfig.fileName config with
  | None => Throw (Error "Config missing required field: fileName")
  | Some name =>
      if negb (truthyString name)
      then Throw (Error "Config missing required field: fileName")
      else
        match RawConfig.repos config with
        | None => Throw (Error "Config missing required field: repos (must be an array)")
        | Some repos =>
            let hasRootJson := isSome (RawConfig.json config) in
            validateRepos hasRootJson 0 repos
        end
  end.

(** [Array.isArray(rawRepo.git) ? rawRepo.git : [rawRepo.git]] *)
Definition gitUrls (git : option GitField) : list (option string) :=
  match git with
  | Some (GitUrls urls) => map Some urls
  | Some (GitUrl url) => [Some url]
  | None => [None]
  end.

(** Steps 2 and 3 of the loop body: the merged JSON of one repo entry.
    In override mode without [json], [stripMergeDirectives] walks
    [undefined]: a [TypeError]. *)
Definition mergedJsonOf (env : Env) (baseJson : object)
           (defaultStrategy : ArrayMergeStrategy) (rawRepo : RawRepoConfig.t)
  : result object :=
  mergedJson <-
    (if truthyFlag (RawRepoConfig.override rawRepo) then
       match RawRepoConfig.json rawRepo with
       | Some json => Ok (stripMergeDirectives (structuredClone json))
       | None => Throw TypeError
       end
     else
       match RawRepoConfig.json rawRepo with
       | None => Ok (structuredClone baseJson)
       | Some json =>
           let ctx := createMergeContext defaultStrategy in
           let merged := deepMerge (structuredClone baseJson) json ctx in
           Ok (stripMergeDirectives merged)
       end) ;;
  interpolateEnvVars env mergedJson (Some {| strict := true |}).

Fixpoint expandUrls (env : Env) (baseJson : object)
         (defaultStrategy : ArrayMergeStrategy) (rawRepo : RawRepoConfig.t)
         (urls : list (option string)) : result (list RepoConfig.t) :=
  match urls with
  | [] => Ok []
  | gitUrl :: rest =>
      mergedJson <- mergedJsonOf env baseJson defaultStrategy rawRepo ;;
      more <- expandUrls env baseJson defaultStrategy rawRepo rest ;;
      Ok ({| RepoConfig.git := gitUrl; RepoConfig.json := mergedJson |} :: more)
  end.

Fixpoint expandRepos (env : Env) (baseJson : object)
         (defaultStrategy : ArrayMergeStrategy) (rawRepos : list RawRepoConfig.t)
  : result (list RepoConfig.t) :=
  match rawRepos with
  | [] => Ok []
  | rawRepo :: rest =>
      expanded <- expandUrls env baseJson defaultStrategy rawRepo
                    (gitUrls (RawRepoConfig.git rawRepo)) ;;
      more <- expandRepos env baseJson defaultStrategy rest ;;
      Ok (expanded ++ more)%list
  end.

(** [normalizeConfig] of [config.ts].  On a document without [repos],
    [for (const rawRepo of raw.repos)] iterates [undefined] or [null]: the
    runtime's [TypeError]. *)
Definition normalizeConfig (env : Env) (raw : RawConfig.t) : result Config.t :=
  let baseJson := match RawConfig.json raw with Some json => json | None => [] end in
  let defaultStrategy :=
    match RawConfig.mergeStrategy raw with Some s => s | None => Replace end in
  match RawConfig.repos raw with
  | None => Throw TypeError
  | Some rawRepos =>
      expandedRepos <- expandRepos env baseJson defaultStrategy rawRepos ;;
      Ok {| Config.fileName := RawConfig.fileName raw;
            Config.repos := expandedRepos |}
  end.


End ConfigTs.

(* ===================================================================== *)
(** * [config-normalizer.ts]: a map of target files per document *)
(* ===================================================================== *)

Module Normalizer.
Import Json Merge Env Git.

(** Modelled from the spec: the declarations of [RawConfig], [Config],
    [RepoConfig] and [FileContent], which the normalizer imports from a
    [config.ts] that is not among the sources; the fields are those the
    normalizer reads and writes, and the document-level [mergeStrategy]
    of the input schema. *)
Module RawFileConfig.
Record t : Type := {
  content : option object;
  mergeStrategy : option ArrayMergeStrategy;
  createOnly : option bool
}.
End RawFileConfig.

Module RawRepoFileOverride.
Record t : Type := {
  override : option bool;
  content : option object;
  createOnly : option bool
}.
End RawRepoFileOverride.

(** A repo-level entry for a file name: [false], or an override object. *)
Inductive RepoFileEntry : Type :=
| Excluded
| Overriding (o : RawRepoFileOverride.t).

Module RawRepoConfig.
Record t : Type := {
  git : GitField;
  files : option (list (string * RepoFileEntry))
}.
End RawRepoConfig.

Module RawConfig.
Record t : Type := {
  files : list (string * RawFileConfig.t);
  mergeStrategy : option ArrayMergeStrategy;
  repos : list RawRepoConfig.t
}.
End RawConfig.

Module FileContent.
Record t : Type := {
  fileName : string;
  content : object;
  (** [undefined] when neither level gives the flag *)
  createOnly : option bool
}.
End FileContent.

Module RepoConfig.
Record t : Type := {
  git : string;
  files : list FileContent.t
}.
End RepoConfig.

Module Config.
Record t : Type := {
  repos : list RepoConfig.t
}.
End Config.

(** The same document under another document-level [mergeStrategy]. *)
Definition withDocumentLevel (raw : RawConfig.t)
           (documentLevel : option ArrayMergeStrategy) : RawConfig.t :=
  {| RawConfig.files := RawConfig.files raw;
     RawConfig.mergeStrategy := documentLevel;
     RawConfig.repos := RawConfig.repos raw |}.

(** [rawRepo.files?.[fileName]] *)
Definition repoOverrideOf (rawRepo : RawRepoConfig.t) (fileName : string)
  : option RepoFileEntry :=
  match RawRepoConfig.files rawRepo with
  | Some entries => lookup fileName entries
  | None => None
  end.

(** The override object behind [repoOverride?.]: none for [undefined]. *)
Definition overrideObject (repoOverride : option RepoFileEntry)
  : option RawRepoFileOverride.t :=
  match repoOverride with
  | Some (Overriding o) => Some o
  | _ => None
  end.

(** [repoOverride?.override] *)
Definition overrideFlag (o : option RawRepoFileOverride.t) : option bool :=
  match o with Some r => RawRepoFileOverride.override r | None => None end.

(** [repoOverride?.content] *)
Definition overrideContent (o : option RawRepoFileOverride.t) : option object :=
  match o with Some r => RawRepoFileOverride.content r | None => None end.

(** [repoOverride?.createOnly] *)
Definition overrideCreateOnly (o : option RawRepoFileOverride.t) : option bool :=
  match o with Some r => RawRepoFileOverride.createOnly r | None => None end.

(** [fileConfig.content ?? {}] *)
Definition baseContentOf (fileConfig : RawFileConfig.t) : object :=
  match RawFileConfig.content fileConfig with Some c => c | None => [] end.

(** [fileConfig.mergeStrategy ?? "replace"] *)
Definition fileStrategyOf (fileConfig : RawFileConfig.t) : ArrayMergeStrategy :=
  match RawFileConfig.mergeStrategy fileConfig with Some s => s | None => Replace end.

(** Step 3 of the loop body: the merged content of one file for one
    repo.  In override mode without content, [stripMergeDirectives] walks
    [undefined]: a [TypeError]. *)
Definition mergedContentOf (fileConfig : RawFileConfig.t)
           (repoOverride : option RawRepoFileOverride.t) : result object :=
  let baseContent := baseContentOf fileConfig in
  let fileStrategy := fileStrategyOf fileConfig in
  if truthyFlag (overrideFlag repoOverride) then
    match overrideContent repoOverride with
    | Some content => Ok (stripMergeDirectives (structuredClone content))
    | None => Throw TypeError
    end
  else
    match overrideContent repoOverride with
    | None => Ok (structuredClone baseContent)
    | Some content =>
        let ctx := createMergeContext fileStrategy in
        let merged := deepMerge (structuredClone baseContent) content ctx in
        Ok (stripMergeDirectives merged)
    end.

(** The three branches of the [if] chain of step 3. *)
Inductive Mode : Type :=
| OverrideMode
| InheritMode
| MergeMode.

Definition modeOf (repoOverride : option RawRepoFileOverride.t) : Mode :=
  if truthyFlag (overrideFlag repoOverride) then OverrideMode
  else match overrideContent repoOverride with
       | None => InheritMode
       | Some _ => MergeMode
       end.

(** [repoOverride?.createOnly ?? fileConfig.createOnly] *)
Definition resolveCreateOnly (fileConfig : RawFileConfig.t)
           (repoOverride : option RawRepoFileOverride.t) : option bool :=
  match overrideCreateOnly repoOverride with
  | Some b => Some b
  | None => RawFileConfig.createOnly fileConfig
  end.

(** The body of [for (const fileName of fileNames)]: [None] is the
    [continue] of an excluded file. *)
Definition processFile (env : Env) (raw : RawConfig.t) (rawRepo : RawRepoConfig.t)
           (fileName : string) : result (option FileContent.t) :=
  match repoOverrideOf rawRepo fileName with
  | Some Excluded => Ok None
  | repoOverride =>
      match lookup fileName (RawConfig.files raw) with
      | None => Throw TypeError
      | Some fileConfig =>
          mergedContent <- mergedContentOf fileConfig (overrideObject repoOverride) ;;
          mergedContent <- interpolateEnvVars env mergedContent
                             (Some {| strict := true |}) ;;
          let createOnly := resolveCreateOnly fileConfig (overrideObject repoOverride) in
          Ok (Some {| FileContent.fileName := fileName;
                      FileContent.content := mergedContent;
                      FileContent.createOnly := createOnly |})
      end
  end.

Fixpoint processFiles (env : Env) (raw : RawConfig.t) (rawRepo : RawRepoConfig.t)
         (fileNames : list string) : result (list FileContent.t) :=
  match fileNames with
  | [] => Ok []
  | fileName :: rest =>
      entry <- processFile env raw rawRepo fileName ;;
      files <- processFiles env raw rawRepo rest ;;
      Ok (match entry with
          | Some file => file :: files
          | None => files
          end)
  end.

(** [Array.isArray(rawRepo.git) ? rawRepo.git : [rawRepo.git]] *)
Definition gitUrls (git : GitField) : list string :=
  match git with
  | GitUrls urls => urls
  | GitUrl url => [url]
  end.

Fixpoint expandUrls (env : Env) (raw : RawConfig.t) (rawRepo : RawRepoConfig.t)
         (urls : list string) : result (list RepoConfig.t) :=
  match urls with
  | [] => Ok []
  | gitUrl :: rest =>
      files <- processFiles env raw rawRepo (objectKeys (RawConfig.files raw)) ;;
      more <- expandUrls env raw rawRepo rest ;;
      Ok ({| RepoConfig.git := gitUrl; RepoConfig.files := files |} :: more)
  end.

Fixpoint expandRepos (env : Env) (raw : RawConfig.t) (rawRepos : list RawRepoConfig.t)
  : result (list RepoConfig.t) :=
  match rawRepos with
  | [] => Ok []
  | rawRepo :: rest =>
      expanded <- expandUrls env raw rawRepo (gitUrls (RawRepoConfig.git rawRepo)) ;;
      more <- expandRepos env raw rest ;;
      Ok (expanded ++ more)%list
  end.

Definition normalizeConfig (env : Env) (raw : RawConfig.t) : result Config.t :=
  expandedRepos <- expandRepos env raw (RawConfig.repos raw) ;;
  Ok {| Config.repos := expandedRepos |}.

End Normalizer.

(* ===================================================================== *)
(** * The specification's own wording, for comparison with the code *)
(* ===================================================================== *)

Module SpecWords.
Import Json Merge Git.

(** The spec's words: "repo-level override value if present, else the
    file's base-level value, else false". *)
Definition createOnly (fileConfig : Normalizer.RawFileConfig.t)
           (repoOverride : option Normalizer.RawRepoFileOverride.t) : bool :=
  match Normalizer.overrideCreateOnly repoOverride with
  | Some b => b
  | None =>
      match Normalizer.RawFileConfig.createOnly fileConfig with
      | Some b => b
      | None => false
      end
  end.

(** The spec's words: the file's own strategy when specified, otherwise
    the document-level default, and [replace] when neither is given. *)
Definition arrayStrategy (raw : Normalizer.RawConfig.t)
           (fileConfig : Normalizer.RawFileConfig.t) : ArrayMergeStrategy :=
  match Normalizer.RawFileConfig.mergeStrategy fileConfig with
  | Some s => s
  | None =>
      match Normalizer.RawConfig.mergeStrategy raw with
      | Some s => s
      | None => Replace
      end
  end.

End SpecWords.

(* ===================================================================== *)
(** * Sample documents *)
(* ===================================================================== *)

Module Samples.
Import Json Merge Env Git.

(** No variable is defined. *)
Definition emptyEnv : Env := fun _ => None.

(** [TEST_VAR], [ANOTHER_VAR] and the empty [EMPTY_VAR], as the tests of
    the interpolator set them. *)
Definition testEnv : Env := fun name =>
  if String.eqb name "TEST_VAR" then Some "test-value"
  else if String.eqb name "ANOTHER_VAR" then Some "another-value"
  else if String.eqb name "EMPTY_VAR" then Some ""
  else None.

Definition repoUrl : string := "git@github.com:org/repo.git".

Definition fileOf (content : object) (strategy : option ArrayMergeStrategy)
           (createOnly : option bool) : Normalizer.RawFileConfig.t :=
  {| Normalizer.RawFileConfig.content := Some content;
     Normalizer.RawFileConfig.mergeStrategy := strategy;
     Normalizer.RawFileConfig.createOnly := createOnly |}.

Definition plainRepo : Normalizer.RawRepoConfig.t :=
  {| Normalizer.RawRepoConfig.git := GitUrl repoUrl;
     Normalizer.RawRepoConfig.files := None |}.

Definition repoWith (fileName : string) (o : Normalizer.RawRepoFileOverride.t)
  : Normalizer.RawRepoConfig.t :=
  {| Normalizer.RawRepoConfig.git := GitUrl repoUrl;
     Normalizer.RawRepoConfig.files := Some [(fileName, Normalizer.Overriding o)] |}.

(** [{ items: { $arrayMerge: "append", values: [1] } }] *)
Definition directiveContent : object :=
  [("items", VDirective DirAppend [VNum 1])].

(** One file whose base content holds a directive, one repo that
    inherits it. *)
Definition inheritsDirective : Normalizer.RawConfig.t :=
  {| Normalizer.RawConfig.files := [("config.json", fileOf directiveContent None None)];
     Normalizer.RawConfig.mergeStrategy := None;
     Normalizer.RawConfig.repos := [plainRepo] |}.


(** Two files whose base content holds a directive; the repo inherits
    [a.json] and merges its own content into [b.json]. *)
Definition mixedModes : Normalizer.RawConfig.t :=
  {| Normalizer.RawConfig.files :=
       [("a.json", fileOf directiveContent None None);
        ("b.json", fileOf directiveContent None None)];
     Normalizer.RawConfig.mergeStrategy := None;
     Normalizer.RawConfig.repos :=
       [repoWith "b.json"
          {| Normalizer.RawRepoFileOverride.override := None;
             Normalizer.RawRepoFileOverride.content := Some [("name", VStr "b")];
             Normalizer.RawRepoFileOverride.createOnly := None |}] |}.

(** Document-level [mergeStrategy: append], a file without a strategy
    of its own, and a repo that merges a plain sequence over it. *)
Definition documentLevelAppend : Normalizer.RawConfig.t :=
  {| Normalizer.RawConfig.files :=
       [("config.json", fileOf [("items", VArr [VStr "a"])] None None)];
     Normalizer.RawConfig.mergeStrategy := Some Append;
     Normalizer.RawConfig.repos :=
       [repoWith "config.json"
          {| Normalizer.RawRepoFileOverride.override := None;
             Normalizer.RawRepoFileOverride.content := Some [("items", VArr [VStr "b"])];
             Normalizer.RawRepoFileOverride.createOnly := None |}] |}.


(** Documents for [config.ts]: a root [json] and repo entries that
    give only [git]. *)
Definition repoTs (git : option GitField) : ConfigTs.RawRepoConfig.t :=
  {| ConfigTs.RawRepoConfig.git := git;
     ConfigTs.RawRepoConfig.json := None;
     ConfigTs.RawRepoConfig.override := None |}.

Definition configTs (fileName : string) (repos : list ConfigTs.RawRepoConfig.t)
  : ConfigTs.RawConfig.t :=
  {| ConfigTs.RawConfig.fileName := Some fileName;
     ConfigTs.RawConfig.json := Some [("key", VStr "value")];
     ConfigTs.RawConfig.mergeStrategy := None;
     ConfigTs.RawConfig.repos := Some repos |}.

(** The one-file document whose root [json] holds a directive, with one
    repo that inherits it. *)
Definition inheritsDirectiveTs : ConfigTs.RawConfig.t :=
  {| ConfigTs.RawConfig.fileName := Some "config.json";
     ConfigTs.RawConfig.json := Some directiveContent;
     ConfigTs.RawConfig.mergeStrategy := None;
     ConfigTs.RawConfig.repos := Some [repoTs (Some (GitUrl repoUrl))] |}.

(** [repos: []] *)
Definition emptyRepos : ConfigTs.RawConfig.t := configTs "config.json" [].

(** [repos: [{ git: [] }]] *)
Definition emptyGitArray : ConfigTs.RawConfig.t :=
  configTs "config.json" [repoTs (Some (GitUrls []))].

(** Two repos with a URL and a third without [git]. *)
Definition thirdWithoutGit : ConfigTs.RawConfig.t :=
  configTs "config.json"
    [repoTs (Some (GitUrl "git@github.com:org/repo1.git"));
     repoTs (Some (GitUrl "git@github.com:org/repo2.git"));
     repoTs None].

(** A one-file document with a root [json], a document-level strategy
    and one repo entry. *)
Definition oneRepoTs (root : option object) (strategy : option ArrayMergeStrategy)
           (git : GitField) (json : option object) (override : option bool)
  : ConfigTs.RawConfig.t :=
  {| ConfigTs.RawConfig.fileName := Some "config.json";
     ConfigTs.RawConfig.json := root;
     ConfigTs.RawConfig.mergeStrategy := strategy;
     ConfigTs.RawConfig.repos :=
       Some [{| ConfigTs.RawRepoConfig.git := Some git;
                ConfigTs.RawRepoConfig.json := json;
                ConfigTs.RawRepoConfig.override := override |}] |}.

(** The one-file counterpart of [documentLevelAppend]. *)
Definition documentLevelAppendTs : ConfigTs.RawConfig.t :=
  oneRepoTs (Some [("items", VArr [VStr "a"])]) (Some Append) (GitUrl repoUrl)
    (Some [("items", VArr [VStr "b"])]) None.

(** What [config.repos[i].json] is compared with in the tests. *)
Definition jsonOfRepos (r : result ConfigTs.Config.t) : result (list object) :=
  config <- r ;; Ok (map ConfigTs.RepoConfig.json (ConfigTs.Config.repos config)).

Definition gitOfRepos (r : result ConfigTs.Config.t) : result (list (option string)) :=
  config <- r ;; Ok (map ConfigTs.RepoConfig.git (ConfigTs.Config.repos config)).

(** One well-formed repo under a given file name. *)
Definition named (fileName : string) : ConfigTs.RawConfig.t :=
  configTs fileName [repoTs (Some (GitUrl repoUrl))].

End Samples.

(* ===================================================================== *)
(** * The regular expressions of [repo-detector.ts] *)
(* ===================================================================== *)

Module Regex.

(** What is left of a pattern, matched at the head of the input: the
    result of the first alternative that succeeds, in the order in which
    a backtracking matcher tries them.  Strings are sequences of code
    units below 256. *)
Definition Matcher (R : Type) : Type := string -> option R.

(** The input without a literal at its head. *)
Fixpoint dropPrefix (l s : string) : option string :=
  match l with
  | EmptyString => Some s
  | String a l' =>
      match s with
      | String b s' => if Ascii.eqb a b then dropPrefix l' s' else None
      | EmptyString => None
      end
  end.

(** A run of literal characters, then the rest of the pattern. *)
Definition lit {R : Type} (l : string) (k : Matcher R) : Matcher R :=
  fun s => match dropPrefix l s with
           | Some rest => k rest
           | None => None
           end.

(** [(?:l)?]: with the literal first, then without it. *)
Definition opt {R : Type} (l : string) (k : Matcher R) : Matcher R :=
  fun s => match lit l k s with
           | Some r => Some r
           | None => k s
           end.

(** [(c+)], greedy and captured: the longest run first, then shorter
    ones. *)
Fixpoint plusGreedy {R : Type} (p : ascii -> bool) (s : string)
         (k : string -> Matcher R) : option R :=
  match s with
  | EmptyString => None
  | String c rest =>
      if p c then
        match plusGreedy p rest (fun captured => k (String c captured)) with
        | Some r => Some r
        | None => k (String c EmptyString) rest
        end
      else None
  end.

(** [(c+?)], lazy and captured: the shortest run first, then longer
    ones. *)
Fixpoint plusLazy {R : Type} (p : ascii -> bool) (s : string)
         (k : string -> Matcher R) : option R :=
  match s with
  | EmptyString => None
  | String c rest =>
      if p c then
        match k (String c EmptyString) rest with
        | Some r => Some r
        | None => plusLazy p rest (fun captured => k (String c captured))
        end
      else None
  end.

(** [$] without the multiline flag: the end of the input. *)
Definition atEnd {R : Type} (r : R) : Matcher R :=
  fun s => match s with
           | EmptyString => Some r
           | String _ _ => None
           end.

(** A pattern without [^]: tried at every position, leftmost first. *)
Fixpoint search {R : Type} (m : Matcher R) (s : string) : option R :=
  match m s with
  | Some r => Some r
  | None =>
      match s with
      | EmptyString => None
      | String _ rest => search m rest
      end
  end.

(** [[^/]] *)
Definition notSlash (c : ascii) : bool := negb (Ascii.eqb c "/").

(** [.]: any character but a line terminator. *)
Definition anyChar (c : ascii) : bool :=
  negb (Ascii.eqb c (ascii_of_nat 10)) && negb (Ascii.eqb c (ascii_of_nat 13)).

End Regex.

(* ===================================================================== *)
(** * [src/repo-detector.ts] *)
(* ===================================================================== *)

Module RepoDetector.
Import Regex.

Inductive RepoType : Type :=
| GitHub
| AzureDevOps.

Module RepoInfo.
Record t : Type := {
  type : RepoType;
  gitUrl : string;
  owner : string;
  repo : string;
  organization : option string;
  project : option string
}.
End RepoInfo.

(** [/^git@ssh\.dev\.azure\.com:/] *)
Definition azureSshPrefix : Matcher unit :=
  lit "git@ssh.dev.azure.com:" (fun _ => Some tt).

(** [/^https?:\/\/dev\.azure\.com\//] *)
Definition azureHttpsPrefix : Matcher unit :=
  lit "http" (opt "s" (lit "://dev.azure.com/" (fun _ => Some tt))).

Definition test (m : Matcher unit) (s : string) : bool :=
  match m s with Some _ => true | None => false end.

Definition detectRepoType (gitUrl : string) : RepoType :=
  if test azureSshPrefix gitUrl then AzureDevOps
  else if test azureHttpsPrefix gitUrl then AzureDevOps
  else GitHub.

(** [(.+?)(?:\.git)?$], the tail of the four patterns. *)
Definition repoTail {R : Type} (k : string -> R) : Matcher R :=
  fun s => plusLazy anyChar s (fun repo => opt ".git" (atEnd (k repo))).

(** [([^/]+)\/], one path segment and its slash. *)
Definition segment {R : Type} (k : string -> Matcher R) : Matcher R :=
  fun s => plusGreedy notSlash s (fun captured => lit "/" (k captured)).

(** [/git@github\.com:([^/]+)\/(.+?)(?:\.git)?$/] *)
Definition githubSsh : Matcher (string * string) :=
  search (lit "git@github.com:"
            (segment (fun owner => repoTail (fun repo => (owner, repo))))).

(** [/https?:\/\/github\.com\/([^/]+)\/(.+?)(?:\.git)?$/] *)
Definition githubHttps : Matcher (string * string) :=
  search (lit "http" (opt "s" (lit "://github.com/"
            (segment (fun owner => repoTail (fun repo => (owner, repo))))))).

(** [/git@ssh\.dev\.azure\.com:v3\/([^/]+)\/([^/]+)\/(.+?)(?:\.git)?$/] *)
Definition azureSsh : Matcher (string * string * string) :=
  search (lit "git@ssh.dev.azure.com:v3/"
            (segment (fun organization =>
               segment (fun project =>
                 repoTail (fun repo => (organization, project, repo)))))).

(** [/https?:\/\/dev\.azure\.com\/([^/]+)\/([^/]+)\/_git\/(.+?)(?:\.git)?$/] *)
Definition azureHttps : Matcher (string * string * string) :=
  search (lit "http" (opt "s" (lit "://dev.azure.com/"
            (segment (fun organization =>
               segment (fun project =>
                 lit "_git/"
                   (repoTail (fun repo => (organization, project, repo))))))))).

Definition githubInfo (gitUrl : string) (captures : string * string) : RepoInfo.t :=
  {| RepoInfo.type := GitHub;
     RepoInfo.gitUrl := gitUrl;
     RepoInfo.owner := fst captures;
     RepoInfo.repo := snd captures;
     RepoInfo.organization := None;
     RepoInfo.project := None |}.

Definition azureInfo (gitUrl : string) (captures : string * string * string)
  : RepoInfo.t :=
  {| RepoInfo.type := AzureDevOps;
     RepoInfo.gitUrl := gitUrl;
     RepoInfo.owner := fst (fst captures);
     RepoInfo.repo := snd captures;
     RepoInfo.organization := Some (fst (fst captures));
     RepoInfo.project := Some (snd (fst captures)) |}.

Definition parseGitHubUrl (gitUrl : string) : result RepoInfo.t :=
  match githubSsh gitUrl with
  | Some sshMatch => Ok (githubInfo gitUrl sshMatch)
  | None =>
      match githubHttps gitUrl with
      | Some httpsMatch => Ok (githubInfo gitUrl httpsMatch)
      | None => Throw (Error ("Unable to parse GitHub URL: " ++ gitUrl))
      end
  end.

Definition parseAzureDevOpsUrl (gitUrl : string) : result RepoInfo.t :=
  match azureSsh gitUrl with
  | Some sshMatch => Ok (azureInfo gitUrl sshMatch)
  | None =>
      match azureHttps gitUrl with
      | Some httpsMatch => Ok (azureInfo gitUrl httpsMatch)
      | None => Throw (Error ("Unable to parse Azure DevOps URL: " ++ gitUrl))
      end
  end.

Definition parseGitUrl (gitUrl : string) : result RepoInfo.t :=
  match detectRepoType gitUrl with
  | AzureDevOps => parseAzureDevOpsUrl gitUrl
  | GitHub => parseGitHubUrl gitUrl
  end.

(** An optional field inside a template literal. *)
Definition showOptional (field : option string) : string :=
  match field with
  | Some text => text
  | None => "undefined"
  end.

Definition getRepoDisplayName (repoInfo : RepoInfo.t) : string :=
  match RepoInfo.type repoInfo with
  | AzureDevOps =>
      showOptional (RepoInfo.organization repoInfo) ++ "/"
      ++ showOptional (RepoInfo.project repoInfo) ++ "/"
      ++ RepoInfo.repo repoInfo
  | GitHub => RepoInfo.owner repoInfo ++ "/" ++ RepoInfo.repo repoInfo
  end.

(** A captured path segment: not empty, without a slash. *)
Definition isSegment (s : string) : bool :=
  match s with
  | EmptyString => false
  | String _ _ => Env.allChars notSlash s
  end.

(** A captured repo name: not empty, without a line terminator. *)
Definition isRepoName (s : string) : bool :=
  match s with
  | EmptyString => false
  | String _ _ => Env.allChars anyChar s
  end.

(** No [@] anywhere. *)
Definition noAt (s : string) : bool :=
  Env.allChars (fun c => negb (Ascii.eqb c "@")) s.

(** The two schemes [https?] admits. *)
Definition scheme (secure : bool) : string := if secure then "https" else "http".

(** [s.endsWith(suffix)] *)
Definition endsWith (suffix s : string) : Prop :=
  exists start, s = (start ++ suffix)%string.

End RepoDetector.

(* ===================================================================== *)
(** * Views of the normalizers' input and output *)
(* ===================================================================== *)

Module Views.
Import Json Merge Env Git.

(** The repo-level entry of the file is [false]. *)
Definition isExcluded (rawRepo : Normalizer.RawRepoConfig.t) (fileName : string) : bool :=
  match Normalizer.repoOverrideOf rawRepo fileName with
  | Some Normalizer.Excluded => true
  | _ => false
  end.

(** One output entry per URL of a raw repo, all with the same files. *)
Definition expansion (rawRepo : Normalizer.RawRepoConfig.t)
           (files : list Normalizer.FileContent.t) : list Normalizer.RepoConfig.t :=
  map (fun gitUrl => {| Normalizer.RepoConfig.git := gitUrl;
                        Normalizer.RepoConfig.files := files |})
      (Normalizer.gitUrls (Normalizer.RawRepoConfig.git rawRepo)).

(** The same for [config.ts]: one entry per URL, all with the same JSON. *)
Definition expansionTs (rawRepo : ConfigTs.RawRepoConfig.t) (json : object)
  : list ConfigTs.RepoConfig.t :=
  map (fun gitUrl => {| ConfigTs.RepoConfig.git := gitUrl;
                        ConfigTs.RepoConfig.json := json |})
      (ConfigTs.gitUrls (ConfigTs.RawRepoConfig.git rawRepo)).

(** The output of [config-normalizer.ts] read entry by entry: the repos
    of the Config are, in document order, the expansions of the raw
    repos, each with its own list of files, and [P] holds of every file of
    such a list together with the raw repo the list was computed for and
    the declared file of that name. *)
Definition everyFile (raw : Normalizer.RawConfig.t) (config : Normalizer.Config.t)
           (P : Normalizer.RawRepoConfig.t -> Normalizer.RawFileConfig.t
                -> Normalizer.FileContent.t -> Prop) : Prop :=
  exists perRepo : list (list Normalizer.FileContent.t),
    length perRepo = length (Normalizer.RawConfig.repos raw)
    /\ Normalizer.Config.repos config
       = flat_map (fun p => expansion (fst p) (snd p))
                  (combine (Normalizer.RawConfig.repos raw) perRepo)
    /\ forall rawRepo files file,
         In (rawRepo, files) (combine (Normalizer.RawConfig.repos raw) perRepo) ->
         In file files ->
         exists fileConfig,
           lookup (Normalizer.FileContent.fileName file) (Normalizer.RawConfig.files raw)
           = Some fileConfig
           /\ P rawRepo fileConfig file.

(** The same for [config.ts]: the repos of the Config are the expansions
    of the raw repos, each with its own JSON, and [P] holds of the JSON of
    every raw repo that has a URL and of that raw repo. *)
Definition everyRepoTs (raw : ConfigTs.RawConfig.t) (config : ConfigTs.Config.t)
           (P : ConfigTs.RawRepoConfig.t -> object -> Prop) : Prop :=
  exists (rawRepos : list ConfigTs.RawRepoConfig.t) (perRepo : list object),
    ConfigTs.RawConfig.repos raw = Some rawRepos
    /\ length perRepo = length rawRepos
    /\ ConfigTs.Config.repos config
       = flat_map (fun p => expansionTs (fst p) (snd p)) (combine rawRepos perRepo)
    /\ forall rawRepo json,
         In (rawRepo, json) (combine rawRepos perRepo) ->
         ConfigTs.gitUrls (ConfigTs.RawRepoConfig.git rawRepo) <> [] ->
         P rawRepo json.

(** Every check of the loop body of [validateRawConfig] passes. *)
Definition repoPasses (hasRootJson : bool) (repo : ConfigTs.RawRepoConfig.t) : bool :=
  negb (ConfigTs.lacksGit repo)
  && (hasRootJson || isSome (ConfigTs.RawRepoConfig.json repo))
  && (negb (truthyFlag (ConfigTs.RawRepoConfig.override repo))
      || isSome (ConfigTs.RawRepoConfig.json repo)).

(** Sample inputs. *)
Definition threeUrls : Normalizer.RawRepoConfig.t :=
  {| Normalizer.RawRepoConfig.git :=
       GitUrls ["git@github.com:org/repo1.git"; "git@github.com:org/repo2.git";
                "git@github.com:org/repo3.git"];
     Normalizer.RawRepoConfig.files := Some [("b.json", Normalizer.Excluded)] |}.

Definition twoFiles : Normalizer.RawConfig.t :=
  {| Normalizer.RawConfig.files :=
       [("a.json", Samples.fileOf [("key", VStr "value")] None None);
        ("b.json", Samples.fileOf [("other", VStr "${MISSING_VAR}")] None (Some true))];
     Normalizer.RawConfig.mergeStrategy := None;
     Normalizer.RawConfig.repos := [threeUrls; Samples.plainRepo] |}.

(** Declared in the order [b.json], [10], [2]. *)
Definition numberedFiles : Normalizer.RawConfig.t :=
  {| Normalizer.RawConfig.files :=
       [("b.json", Samples.fileOf [("key", VStr "value")] None None);
        ("10", Samples.fileOf [("key", VStr "value")] None None);
        ("2", Samples.fileOf [("key", VStr "value")] None None)];
     Normalizer.RawConfig.mergeStrategy := None;
     Normalizer.RawConfig.repos := [Samples.plainRepo] |}.

Definition twoFilesExcluded : Normalizer.RawConfig.t :=
  {| Normalizer.RawConfig.files := Normalizer.RawConfig.files twoFiles;
     Normalizer.RawConfig.mergeStrategy := None;
     Normalizer.RawConfig.repos := [threeUrls] |}.

End Views.

(* ===================================================================== *)
(** * Properties *)
(* ===================================================================== *)

Import Json Merge Env Git.

(** ** Induction on content values *)

Lemma value_induction (P : value -> Prop) :
  P VNull ->
  (forall b, P (VBool b)) ->
  (forall n, P (VNum n)) ->
  (forall s, P (VStr s)) ->
  (forall items, Forall P items -> P (VArr items)) ->
  (forall fields, Forall (fun kv => P (snd kv)) fields -> P (VObj fields)) ->
  (forall strategy values, Forall P values -> P (VDirective strategy values)) ->
  forall v, P v.
Proof.
  intros Hnull Hbool Hnum Hstr Harr Hobj Hdir.
  fix IH 1.
  intros [ | b | n | s | items | fields | strategy values ].
  - exact Hnull.
  - apply Hbool.
  - apply Hnum.
  - apply Hstr.
  - apply Harr. induction items as [ | x xs IHxs ]; constructor; [ apply IH | exact IHxs ].
  - apply Hobj. induction fields as [ | [k x] xs IHxs ]; constructor;
      [ apply IH | exact IHxs ].
  - apply Hdir. induction values as [ | x xs IHxs ]; constructor; [ apply IH | exact IHxs ].
Qed.

(** ** Loops that may throw *)

Lemma bind_Ok {A B : Type} (r : result A) (k : A -> result B) (b : B) :
  bind r k = Ok b -> exists a, r = Ok a /\ k a = Ok b.
Proof.
  destruct r as [ a | e ]; simpl; intros H; [ exists a; auto | discriminate ].
Qed.

Lemma mapM_Ok {A B : Type} (f : A -> result B) (l : list A) (l' : list B) :
  mapM f l = Ok l' -> Forall2 (fun a b => f a = Ok b) l l'.
Proof.
  revert l'; induction l as [ | a rest IH ]; simpl; intros l' H.
  - inversion H; constructor.
  - apply bind_Ok in H; destruct H as (b & Hb & H).
    apply bind_Ok in H; destruct H as (bs & Hbs & H).
    inversion H; subst; constructor; auto.
Qed.

Lemma mapM_Throw {A B : Type} (f : A -> result B) (l : list A) :
  isOk (mapM f l) = false <-> exists a, In a l /\ isOk (f a) = false.
Proof.
  induction l as [ | a rest IH ]; simpl.
  - split; [ discriminate | intros (a & [] & _) ].
  - destruct (f a) as [ b | e ] eqn:Hfa; simpl.
    + destruct (mapM f rest) as [ bs | e ]; simpl in *.
      * split; [ discriminate | ].
        intros (x & [ -> | Hin ] & Hx).
        -- rewrite Hfa in Hx; discriminate.
        -- apply IH; exists x; auto.
      * split; [ | reflexivity ].
        intros _. destruct IH as [ IH _ ].
        destruct (IH eq_refl) as (x & Hin & Hx). exists x; auto.
    + split; [ | reflexivity ].
      intros _; exists a; rewrite Hfa; auto.
Qed.

(** ** Stripping leaves no directive *)

Lemma stripValue_directiveFree (v : value) : directiveFree (stripValue v) = true.
Proof.
  induction v as [ | | | | items IH | fields IH | strategy values IH ]
    using value_induction; simpl; try reflexivity.
  - induction IH as [ | x xs Hx _ IHxs ]; simpl; [ reflexivity | ].
    rewrite Hx; exact IHxs.
  - induction IH as [ | x xs Hx _ IHxs ]; simpl; [ reflexivity | ].
    rewrite Hx; exact IHxs.
  - induction IH as [ | x xs Hx _ IHxs ]; simpl; [ reflexivity | ].
    rewrite Hx; exact IHxs.
Qed.

Lemma stripMergeDirectives_directiveFree (o : object) :
  directiveFreeObject (stripMergeDirectives o) = true.
Proof.
  unfold directiveFreeObject, stripMergeDirectives.
  induction o as [ | [k v] rest IH ]; simpl; [ reflexivity | ].
  rewrite stripValue_directiveFree; exact IH.
Qed.

(** ** Interpolation rewrites strings only *)

Lemma forallb_Forall2_eq {A : Type} (p : A -> bool) (l l' : list A) :
  Forall2 (fun a b => p b = p a) l l' -> forallb p l' = forallb p l.
Proof.
  induction 1 as [ | a b l l' Hab _ IH ]; simpl; [ reflexivity | ].
  rewrite Hab, IH; reflexivity.
Qed.

Lemma processValue_directiveFree (env : Env) (strictMode : bool) (v v' : value) :
  processValue env strictMode v = Ok v' -> directiveFree v' = directiveFree v.
Proof.
  revert v'.
  induction v as [ | | | s | items IH | fields IH | strategy values IH ]
    using value_induction; simpl; intros v' H; try (inversion H; reflexivity).
  - apply bind_Ok in H; destruct H as (s' & _ & H); inversion H; reflexivity.
  - apply bind_Ok in H; destruct H as (items' & Hitems & H); inversion H; subst; simpl.
    apply mapM_Ok in Hitems. apply forallb_Forall2_eq.
    induction Hitems as [ | a b l l' Hab _ IHl ]; constructor.
    + inversion IH; subst; auto.
    + inversion IH; subst; auto.
  - apply bind_Ok in H; destruct H as (fields' & Hfields & H); inversion H; subst; simpl.
    apply mapM_Ok in Hfields.
    apply (forallb_Forall2_eq (fun kv => directiveFree (snd kv))).
    induction Hfields as [ | a b l l' Hab _ IHl ]; constructor.
    + inversion IH; subst.
      apply bind_Ok in Hab; destruct Hab as (w & Hw & Hab); inversion Hab; simpl; auto.
    + inversion IH; subst; auto.
  - apply bind_Ok in H; destruct H as (values' & _ & H); inversion H; reflexivity.
Qed.

Lemma processObject_directiveFree (env : Env) (strictMode : bool) (o o' : object) :
  processObject env strictMode o = Ok o' ->
  directiveFreeObject o' = directiveFreeObject o.
Proof.
  unfold processObject, directiveFreeObject; intros H.
  apply mapM_Ok in H.
  apply (forallb_Forall2_eq (fun kv => directiveFree (snd kv))).
  induction H as [ | a b l l' Hab _ IH ]; constructor; [ | exact IH ].
  apply bind_Ok in Hab; destruct Hab as (w & Hw & Hab); inversion Hab; simpl.
  eapply processValue_directiveFree; eauto.
Qed.

Lemma interpolateEnvVars_directiveFree (env : Env) (o o' : object)
      (options : option EnvInterpolationOptions) :
  interpolateEnvVars env o options = Ok o' ->
  directiveFreeObject o' = directiveFreeObject o.
Proof. unfold interpolateEnvVars; apply processObject_directiveFree. Qed.

(** ** The output of [config-normalizer.ts], entry by entry *)

Section NormalizerOutput.
Variable env : Env.
Variable raw : Normalizer.RawConfig.t.

Lemma processFile_Some (rawRepo : Normalizer.RawRepoConfig.t) (fileName : string)
      (file : Normalizer.FileContent.t) :
  Normalizer.processFile env raw rawRepo fileName = Ok (Some file) ->
  exists fileConfig merged,
    lookup fileName (Normalizer.RawConfig.files raw) = Some fileConfig
    /\ Normalizer.FileContent.fileName file = fileName
    /\ Normalizer.mergedContentOf fileConfig
         (Normalizer.overrideObject (Normalizer.repoOverrideOf rawRepo fileName))
       = Ok merged
    /\ interpolateEnvVars env merged (Some {| strict := true |})
       = Ok (Normalizer.FileContent.content file)
    /\ Normalizer.FileContent.createOnly file
       = Normalizer.resolveCreateOnly fileConfig
           (Normalizer.overrideObject (Normalizer.repoOverrideOf rawRepo fileName)).
Proof.
  unfold Normalizer.processFile.
  destruct (Normalizer.repoOverrideOf rawRepo fileName) as [ [ | o ] | ];
    try discriminate;
    destruct (lookup fileName (Normalizer.RawConfig.files raw)) as [ fileConfig | ];
    try discriminate; intros H;
    apply bind_Ok in H; destruct H as (merged & Hmerged & H);
    apply bind_Ok in H; destruct H as (content & Hcontent & H);
    inversion H; subst; simpl;
    exists fileConfig, merged; repeat split; auto.
Qed.

Lemma processFiles_In (rawRepo : Normalizer.RawRepoConfig.t) (fileNames : list string)
      (files : list Normalizer.FileContent.t) :
  Normalizer.processFiles env raw rawRepo fileNames = Ok files ->
  forall file, In file files ->
    exists fileName, In fileName fileNames
      /\ Normalizer.processFile env raw rawRepo fileName = Ok (Some file).
Proof.
  revert files; induction fileNames as [ | fileName rest IH ]; simpl; intros files H.
  - inversion H; intros file [].
  - apply bind_Ok in H; destruct H as (entry & Hentry & H).
    apply bind_Ok in H; destruct H as (more & Hmore & H).
    inversion H; subst; clear H.
    intros file Hin. destruct entry as [ first | ].
    + destruct Hin as [ <- | Hin ].
      * exists fileName; auto.
      * destruct (IH more Hmore file Hin) as (n & Hn & Hfile). exists n; auto.
    + destruct (IH more Hmore file Hin) as (n & Hn & Hfile). exists n; auto.
Qed.

Lemma expandUrls_In (rawRepo : Normalizer.RawRepoConfig.t) (urls : list string)
      (out : list Normalizer.RepoConfig.t) :
  Normalizer.expandUrls env raw rawRepo urls = Ok out ->
  forall repo, In repo out ->
    In (Normalizer.RepoConfig.git repo) urls
    /\ Normalizer.processFiles env raw rawRepo (objectKeys (Normalizer.RawConfig.files raw))
       = Ok (Normalizer.RepoConfig.files repo).
Proof.
  revert out; induction urls as [ | url rest IH ]; simpl; intros out H.
  - inversion H; intros repo [].
  - apply bind_Ok in H; destruct H as (files & Hfiles & H).
    apply bind_Ok in H; destruct H as (more & Hmore & H).
    inversion H; subst; clear H.
    intros repo [ <- | Hin ]; simpl; [ auto | ].
    destruct (IH more Hmore repo Hin); auto.
Qed.

Lemma expandRepos_In (rawRepos : list Normalizer.RawRepoConfig.t)
      (out : list Normalizer.RepoConfig.t) :
  Normalizer.expandRepos env raw rawRepos = Ok out ->
  forall repo, In repo out ->
    exists rawRepo, In rawRepo rawRepos
      /\ In (Normalizer.RepoConfig.git repo)
            (Normalizer.gitUrls (Normalizer.RawRepoConfig.git rawRepo))
      /\ Normalizer.processFiles env raw rawRepo (objectKeys (Normalizer.RawConfig.files raw))
         = Ok (Normalizer.RepoConfig.files repo).
Proof.
  revert out; induction rawRepos as [ | rawRepo rest IH ]; simpl; intros out H.
  - inversion H; intros repo [].
  - apply bind_Ok in H; destruct H as (expanded & Hexp & H).
    apply bind_Ok in H; destruct H as (more & Hmore & H).
    inversion H; subst; clear H.
    intros repo Hin. apply in_app_or in Hin. destruct Hin as [ Hin | Hin ].
    + destruct (expandUrls_In _ _ _ Hexp repo Hin) as (Hgit & Hfiles).
      exists rawRepo; auto.
    + destruct (IH more Hmore repo Hin) as (r & Hr & Hgit & Hfiles).
      exists r; auto.
Qed.


(** Every file of a list the inner loop returns is the result of the
    loop body at that file's name. *)
Lemma processFiles_body (rawRepo : Normalizer.RawRepoConfig.t) (fileNames : list string)
      (files : list Normalizer.FileContent.t) :
  Normalizer.processFiles env raw rawRepo fileNames = Ok files ->
  forall file, In file files ->
    Normalizer.processFile env raw rawRepo (Normalizer.FileContent.fileName file)
    = Ok (Some file).
Proof.
  intros H file Hin.
  destruct (processFiles_In _ _ _ H file Hin) as (fileName & _ & Hbody).
  destruct (processFile_Some _ _ _ Hbody) as (fc & m & _ & Hname & _).
  rewrite Hname; exact Hbody.
Qed.

Lemma expandUrls_same_files (rawRepo : Normalizer.RawRepoConfig.t) (urls : list string)
      (files : list Normalizer.FileContent.t) :
  Normalizer.processFiles env raw rawRepo (objectKeys (Normalizer.RawConfig.files raw))
  = Ok files ->
  Normalizer.expandUrls env raw rawRepo urls
  = Ok (map (fun gitUrl => {| Normalizer.RepoConfig.git := gitUrl;
                              Normalizer.RepoConfig.files := files |}) urls).
Proof.
  intros H. induction urls as [ | url rest IH ]; simpl; [ reflexivity | ].
  rewrite H, IH. reflexivity.
Qed.

Lemma expandUrls_files (rawRepo : Normalizer.RawRepoConfig.t) (urls : list string)
      (out : list Normalizer.RepoConfig.t) :
  Normalizer.expandUrls env raw rawRepo urls = Ok out ->
  exists files,
    out = map (fun gitUrl => {| Normalizer.RepoConfig.git := gitUrl;
                                Normalizer.RepoConfig.files := files |}) urls
    /\ (urls <> [] ->
        Normalizer.processFiles env raw rawRepo (objectKeys (Normalizer.RawConfig.files raw))
        = Ok files)
    /\ forall file, In file files ->
         Normalizer.processFile env raw rawRepo (Normalizer.FileContent.fileName file)
         = Ok (Some file).
Proof.
  destruct urls as [ | url rest ]; intros H.
  - inversion H. exists []. split; [ reflexivity | ].
    split; [ intros Hne; contradiction | intros file [] ].
  - simpl in H. apply bind_Ok in H; destruct H as (files & Hfiles & H).
    rewrite (expandUrls_same_files _ rest _ Hfiles) in H. simpl in H.
    inversion H; subst; clear H.
    exists files. split; [ reflexivity | ].
    split; [ intros _; exact Hfiles | apply (processFiles_body _ _ _ Hfiles) ].
Qed.

Lemma expandRepos_files (rawRepos : list Normalizer.RawRepoConfig.t)
      (out : list Normalizer.RepoConfig.t) :
  Normalizer.expandRepos env raw rawRepos = Ok out ->
  exists perRepo,
    length perRepo = length rawRepos
    /\ out = flat_map (fun p => Views.expansion (fst p) (snd p))
                      (combine rawRepos perRepo)
    /\ forall rawRepo files,
         In (rawRepo, files) (combine rawRepos perRepo) ->
         (Normalizer.gitUrls (Normalizer.RawRepoConfig.git rawRepo) <> [] ->
          Normalizer.processFiles env raw rawRepo
            (objectKeys (Normalizer.RawConfig.files raw)) = Ok files)
         /\ forall file, In file files ->
              Normalizer.processFile env raw rawRepo (Normalizer.FileContent.fileName file)
              = Ok (Some file).
Proof.
  revert out; induction rawRepos as [ | rawRepo rest IH ]; simpl; intros out H.
  - inversion H. exists []. split; [ reflexivity | ].
    split; [ reflexivity | intros r fs [] ].
  - apply bind_Ok in H; destruct H as (expanded & Hexp & H).
    apply bind_Ok in H; destruct H as (more & Hmore & H).
    inversion H; subst; clear H.
    destruct (expandUrls_files _ _ _ Hexp) as (files & -> & Hlist & Hbody).
    destruct (IH more Hmore) as (perRepo & Hlen & -> & Hall).
    exists (files :: perRepo). split; [ simpl; rewrite Hlen; reflexivity | ].
    split; [ reflexivity | ].
    intros r fs [ Heq | Hin ].
    + inversion Heq; subst. split; assumption.
    + apply Hall; exact Hin.
Qed.

(** What the loop body guarantees of one file holds of every file of the
    output, for the raw repo it was computed for. *)
Lemma normalizeConfig_everyFile (config : Normalizer.Config.t)
      (P : Normalizer.RawRepoConfig.t -> Normalizer.RawFileConfig.t
           -> Normalizer.FileContent.t -> Prop) :
  (forall rawRepo fileConfig file,
      In rawRepo (Normalizer.RawConfig.repos raw) ->
      lookup (Normalizer.FileContent.fileName file) (Normalizer.RawConfig.files raw)
      = Some fileConfig ->
      Normalizer.processFile env raw rawRepo (Normalizer.FileContent.fileName file)
      = Ok (Some file) ->
      P rawRepo fileConfig file) ->
  Normalizer.normalizeConfig env raw = Ok config ->
  Views.everyFile raw config P.
Proof.
  unfold Normalizer.normalizeConfig, Views.everyFile. intros HP H.
  apply bind_Ok in H; destruct H as (out & Hout & H); inversion H; subst; clear H.
  simpl.
  destruct (expandRepos_files _ _ Hout) as (perRepo & Hlen & -> & Hall).
  exists perRepo. split; [ exact Hlen | ]. split; [ reflexivity | ].
  intros rawRepo files file Hpair Hfile.
  destruct (Hall rawRepo files Hpair) as (_ & Hbody).
  specialize (Hbody file Hfile).
  destruct (processFile_Some _ _ _ Hbody) as (fileConfig & m & Hlookup & _).
  exists fileConfig. split; [ exact Hlookup | ].
  apply HP; auto. apply (in_combine_l _ _ _ _ Hpair).
Qed.

End NormalizerOutput.

(** ** Directive-free content *)

(** The three branches of step 3, each with what it computes. *)
Lemma mergedContentOf_mode (fileConfig : Normalizer.RawFileConfig.t)
      (repoOverride : option Normalizer.RawRepoFileOverride.t) (merged : object) :
  Normalizer.mergedContentOf fileConfig repoOverride = Ok merged ->
  match Normalizer.modeOf repoOverride with
  | Normalizer.OverrideMode =>
      exists given,
        Normalizer.overrideContent repoOverride = Some given
        /\ merged = stripMergeDirectives given
  | Normalizer.InheritMode => merged = Normalizer.baseContentOf fileConfig
  | Normalizer.MergeMode =>
      exists overlay,
        Normalizer.overrideContent repoOverride = Some overlay
        /\ merged = stripMergeDirectives
                      (deepMerge (Normalizer.baseContentOf fileConfig) overlay
                         (createMergeContext
                            match Normalizer.RawFileConfig.mergeStrategy fileConfig with
                            | Some own => own
                            | None => Replace
                            end))
  end.
Proof.
  unfold Normalizer.mergedContentOf, Normalizer.modeOf.
  destruct (truthyFlag (Normalizer.overrideFlag repoOverride)).
  - destruct (Normalizer.overrideContent repoOverride) as [ given | ]; [ | discriminate ].
    intros H; inversion H. exists given; auto.
  - destruct (Normalizer.overrideContent repoOverride) as [ overlay | ];
      intros H; inversion H.
    + exists overlay; auto.
    + reflexivity.
Qed.

Lemma mergedContentOf_directiveFree (fileConfig : Normalizer.RawFileConfig.t)
      (repoOverride : option Normalizer.RawRepoFileOverride.t) (merged : object) :
  Normalizer.mergedContentOf fileConfig repoOverride = Ok merged ->
  directiveFreeObject merged
  = match Normalizer.modeOf repoOverride with
    | Normalizer.InheritMode => directiveFreeObject (Normalizer.baseContentOf fileConfig)
    | _ => true
    end.
Proof.
  unfold Normalizer.mergedContentOf, Normalizer.modeOf.
  destruct (truthyFlag (Normalizer.overrideFlag repoOverride)).
  - destruct (Normalizer.overrideContent repoOverride); [ | discriminate ].
    intros H; inversion H. apply stripMergeDirectives_directiveFree.
  - destruct (Normalizer.overrideContent repoOverride); intros H; inversion H.
    + apply stripMergeDirectives_directiveFree.
    + reflexivity.
Qed.

(** C1 (as amended): the content of every file entry of the Config that
    [normalizeConfig] produces is free of merge directives when the raw
    repo it was computed for has the file in override mode or in merge
    mode; in inherit mode it is the file's base content, interpolated and
    otherwise as it stands, and it is directive-free exactly when that
    base content is. *)
Theorem C1_content_directive_free
        (env : Env) (raw : Normalizer.RawConfig.t) (config : Normalizer.Config.t) :
  Normalizer.normalizeConfig env raw = Ok config ->
  Views.everyFile raw config
    (fun rawRepo fileConfig file =>
       match Normalizer.modeOf
               (Normalizer.overrideObject
                  (Normalizer.repoOverrideOf rawRepo
                     (Normalizer.FileContent.fileName file))) with
       | Normalizer.InheritMode =>
           interpolateEnvVars env (Normalizer.baseContentOf fileConfig)
             (Some {| strict := true |})
           = Ok (Normalizer.FileContent.content file)
           /\ directiveFreeObject (Normalizer.FileContent.content file)
              = directiveFreeObject (Normalizer.baseContentOf fileConfig)
       | Normalizer.OverrideMode | Normalizer.MergeMode =>
           directiveFreeObject (Normalizer.FileContent.content file) = true
       end).
Proof.
  apply normalizeConfig_everyFile.
  intros rawRepo fileConfig file _ Hlookup Hbody.
  destruct (processFile_Some env raw _ _ _ Hbody)
    as (fileConfig' & merged & Hlookup' & _ & Hmerged & Hinterp & _).
  rewrite Hlookup in Hlookup'. inversion Hlookup'; subst fileConfig'.
  assert (Hfree := interpolateEnvVars_directiveFree _ _ _ _ Hinterp).
  rewrite (mergedContentOf_directiveFree _ _ _ Hmerged) in Hfree.
  apply mergedContentOf_mode in Hmerged.
  destruct (Normalizer.modeOf _); try exact Hfree.
  subst merged. split; [ exact Hinterp | exact Hfree ].
Qed.

Lemma C1_content_directive_free_witness :
  exists config,
    Normalizer.normalizeConfig Samples.emptyEnv Samples.mixedModes = Ok config
    /\ map (fun repo =>
              map (fun file =>
                     (Normalizer.FileContent.fileName file,
                      directiveFreeObject (Normalizer.FileContent.content file)))
                  (Normalizer.RepoConfig.files repo))
           (Normalizer.Config.repos config)
       = [[("a.json", false); ("b.json", true)]]
    /\ Views.everyFile Samples.mixedModes config
         (fun rawRepo fileConfig file =>
            match Normalizer.modeOf
                    (Normalizer.overrideObject
                       (Normalizer.repoOverrideOf rawRepo
                          (Normalizer.FileContent.fileName file))) with
            | Normalizer.InheritMode =>
                interpolateEnvVars Samples.emptyEnv (Normalizer.baseContentOf fileConfig)
                  (Some {| strict := true |})
                = Ok (Normalizer.FileContent.content file)
                /\ directiveFreeObject (Normalizer.FileContent.content file)
                   = directiveFreeObject (Normalizer.baseContentOf fileConfig)
            | Normalizer.OverrideMode | Normalizer.MergeMode =>
                directiveFreeObject (Normalizer.FileContent.content file) = true
            end).
Proof.
  eexists. split; [ reflexivity | ]. split; [ reflexivity | ].
  apply (C1_content_directive_free Samples.emptyEnv Samples.mixedModes).
  reflexivity.
Defined.

(** The claim as stated fails in inherit mode: a base content holding a
    directive reaches the Config untouched, in [config-normalizer.ts] and,
    after a successful validation, in [config.ts]. *)
Lemma C1_inherit_mode_keeps_directive :
  (exists config repo file,
      Normalizer.normalizeConfig Samples.emptyEnv Samples.inheritsDirective = Ok config
      /\ In repo (Normalizer.Config.repos config)
      /\ In file (Normalizer.RepoConfig.files repo)
      /\ Normalizer.FileContent.content file = Samples.directiveContent
      /\ directiveFreeObject (Normalizer.FileContent.content file) = false)
  /\ ConfigTs.validateRawConfig Samples.inheritsDirectiveTs = Ok tt
  /\ (exists config repo,
         ConfigTs.normalizeConfig Samples.emptyEnv Samples.inheritsDirectiveTs = Ok config
         /\ In repo (ConfigTs.Config.repos config)
         /\ ConfigTs.RepoConfig.json repo = Samples.directiveContent
         /\ directiveFreeObject (ConfigTs.RepoConfig.json repo) = false).
Proof.
  split; [ | split ].
  - do 3 eexists. split; [ reflexivity | ].
    split; [ left; reflexivity | ].
    split; [ left; reflexivity | ].
    split; reflexivity.
  - reflexivity.
  - do 2 eexists. split; [ reflexivity | ].
    split; [ left; reflexivity | ].
    split; reflexivity.
Qed.

(** ** The array strategy of merge mode *)

Section ConfigTsOutput.
Variable env : Env.
Variable baseJson : object.
Variable defaultStrategy : ArrayMergeStrategy.



Lemma configTs_expandUrls_same (rawRepo : ConfigTs.RawRepoConfig.t)
      (urls : list (option string)) (json : object) :
  ConfigTs.mergedJsonOf env baseJson defaultStrategy rawRepo = Ok json ->
  ConfigTs.expandUrls env baseJson defaultStrategy rawRepo urls
  = Ok (map (fun gitUrl => {| ConfigTs.RepoConfig.git := gitUrl;
                              ConfigTs.RepoConfig.json := json |}) urls).
Proof.
  intros H. induction urls as [ | url rest IH ]; simpl; [ reflexivity | ].
  rewrite H, IH. reflexivity.
Qed.

Lemma configTs_expandUrls_json (rawRepo : ConfigTs.RawRepoConfig.t)
      (urls : list (option string)) (out : list ConfigTs.RepoConfig.t) :
  ConfigTs.expandUrls env baseJson defaultStrategy rawRepo urls = Ok out ->
  exists json,
    out = map (fun gitUrl => {| ConfigTs.RepoConfig.git := gitUrl;
                                ConfigTs.RepoConfig.json := json |}) urls
    /\ (urls <> [] ->
        ConfigTs.mergedJsonOf env baseJson defaultStrategy rawRepo = Ok json).
Proof.
  destruct urls as [ | url rest ]; intros H.
  - inversion H. exists []. split; [ reflexivity | intros Hne; contradiction ].
  - simpl in H. apply bind_Ok in H; destruct H as (json & Hjson & H).
    rewrite (configTs_expandUrls_same _ rest _ Hjson) in H. simpl in H.
    inversion H; subst; clear H.
    exists json. split; [ reflexivity | intros _; exact Hjson ].
Qed.

Lemma configTs_expandRepos_json (rawRepos : list ConfigTs.RawRepoConfig.t)
      (out : list ConfigTs.RepoConfig.t) :
  ConfigTs.expandRepos env baseJson defaultStrategy rawRepos = Ok out ->
  exists perRepo,
    length perRepo = length rawRepos
    /\ out = flat_map (fun p => Views.expansionTs (fst p) (snd p))
                      (combine rawRepos perRepo)
    /\ forall rawRepo json,
         In (rawRepo, json) (combine rawRepos perRepo) ->
         ConfigTs.gitUrls (ConfigTs.RawRepoConfig.git rawRepo) <> [] ->
         ConfigTs.mergedJsonOf env baseJson defaultStrategy rawRepo = Ok json.
Proof.
  revert out; induction rawRepos as [ | rawRepo rest IH ]; simpl; intros out H.
  - inversion H. exists []. split; [ reflexivity | ].
    split; [ reflexivity | intros r j [] ].
  - apply bind_Ok in H; destruct H as (expanded & Hexp & H).
    apply bind_Ok in H; destruct H as (more & Hmore & H).
    inversion H; subst; clear H.
    destruct (configTs_expandUrls_json _ _ _ Hexp) as (json & -> & Hjson).
    destruct (IH more Hmore) as (perRepo & Hlen & -> & Hall).
    exists (json :: perRepo). split; [ simpl; rewrite Hlen; reflexivity | ].
    split; [ reflexivity | ].
    intros r j [ Heq | Hin ].
    + inversion Heq; subst. exact Hjson.
    + apply Hall; exact Hin.
Qed.

(** The three branches of steps 2 and 3, each with what it computes. *)
Lemma mergedJsonOf_mode (rawRepo : ConfigTs.RawRepoConfig.t) (json : object) :
  ConfigTs.mergedJsonOf env baseJson defaultStrategy rawRepo = Ok json ->
  if truthyFlag (ConfigTs.RawRepoConfig.override rawRepo)
  then exists given,
      ConfigTs.RawRepoConfig.json rawRepo = Some given
      /\ interpolateEnvVars env (stripMergeDirectives given) (Some {| strict := true |})
         = Ok json
  else match ConfigTs.RawRepoConfig.json rawRepo with
       | Some overlay =>
           interpolateEnvVars env
             (stripMergeDirectives
                (deepMerge baseJson overlay (createMergeContext defaultStrategy)))
             (Some {| strict := true |})
           = Ok json
       | None => interpolateEnvVars env baseJson (Some {| strict := true |}) = Ok json
       end.
Proof.
  unfold ConfigTs.mergedJsonOf.
  destruct (truthyFlag (ConfigTs.RawRepoConfig.override rawRepo)).
  - destruct (ConfigTs.RawRepoConfig.json rawRepo) as [ given | ]; [ | discriminate ].
    intros H. exists given. auto.
  - destruct (ConfigTs.RawRepoConfig.json rawRepo) as [ overlay | ]; intros H; exact H.
Qed.

End ConfigTsOutput.

(** What steps 2 and 3 guarantee of one raw repo holds of the JSON of
    every raw repo of the output. *)
Lemma configTs_everyRepo
      (env : Env) (raw : ConfigTs.RawConfig.t) (config : ConfigTs.Config.t)
      (P : ConfigTs.RawRepoConfig.t -> object -> Prop) :
  (forall rawRepo json,
      ConfigTs.mergedJsonOf env
        match ConfigTs.RawConfig.json raw with Some json => json | None => [] end
        match ConfigTs.RawConfig.mergeStrategy raw with
        | Some given => given
        | None => Replace
        end
        rawRepo = Ok json ->
      P rawRepo json) ->
  ConfigTs.normalizeConfig env raw = Ok config ->
  Views.everyRepoTs raw config P.
Proof.
  unfold ConfigTs.normalizeConfig, Views.everyRepoTs. intros HP H.
  destruct (ConfigTs.RawConfig.repos raw) as [ rawRepos | ]; [ | discriminate ].
  apply bind_Ok in H; destruct H as (out & Hout & H); inversion H; subst; clear H.
  simpl.
  destruct (configTs_expandRepos_json _ _ _ _ _ Hout) as (perRepo & Hlen & -> & Hall).
  exists rawRepos, perRepo. split; [ reflexivity | ]. split; [ exact Hlen | ].
  split; [ reflexivity | ].
  intros rawRepo json Hpair Hurls. apply HP. apply Hall; assumption.
Qed.

(** The one-file normalizer of [config.ts] has the same three branches:
    its output is directive-free in override and merge mode, and as the
    root [json] is in inherit mode. *)
Lemma configTs_json_directive_free
      (env : Env) (raw : ConfigTs.RawConfig.t) (config : ConfigTs.Config.t) :
  ConfigTs.normalizeConfig env raw = Ok config ->
  Views.everyRepoTs raw config
    (fun rawRepo json =>
       directiveFreeObject json
       = if truthyFlag (ConfigTs.RawRepoConfig.override rawRepo) then true
         else match ConfigTs.RawRepoConfig.json rawRepo with
              | Some _ => true
              | None =>
                  directiveFreeObject
                    match ConfigTs.RawConfig.json raw with
                    | Some root => root
                    | None => []
                    end
              end).
Proof.
  apply configTs_everyRepo. intros rawRepo json Hjson.
  apply mergedJsonOf_mode in Hjson.
  destruct (truthyFlag (ConfigTs.RawRepoConfig.override rawRepo)).
  - destruct Hjson as (given & _ & Hinterp).
    rewrite (interpolateEnvVars_directiveFree _ _ _ _ Hinterp).
    apply stripMergeDirectives_directiveFree.
  - destruct (ConfigTs.RawRepoConfig.json rawRepo);
      rewrite (interpolateEnvVars_directiveFree _ _ _ _ Hjson).
    + apply stripMergeDirectives_directiveFree.
    + reflexivity.
Qed.

(** [config-normalizer.ts] never reads the document-level strategy. *)
Section DocumentLevelStrategy.
Variable env : Env.
Variable raw : Normalizer.RawConfig.t.
Variable documentLevel : option ArrayMergeStrategy.

Lemma processFiles_documentLevel (rawRepo : Normalizer.RawRepoConfig.t)
      (fileNames : list string) :
  Normalizer.processFiles env (Normalizer.withDocumentLevel raw documentLevel) rawRepo fileNames
  = Normalizer.processFiles env raw rawRepo fileNames.
Proof.
  induction fileNames as [ | fileName rest IH ]; simpl; [ reflexivity | ].
  rewrite IH. reflexivity.
Qed.

Lemma expandUrls_documentLevel (rawRepo : Normalizer.RawRepoConfig.t)
      (urls : list string) :
  Normalizer.expandUrls env (Normalizer.withDocumentLevel raw documentLevel) rawRepo urls
  = Normalizer.expandUrls env raw rawRepo urls.
Proof.
  induction urls as [ | url rest IH ]; simpl; [ reflexivity | ].
  rewrite IH, processFiles_documentLevel. reflexivity.
Qed.

Lemma expandRepos_documentLevel (rawRepos : list Normalizer.RawRepoConfig.t) :
  Normalizer.expandRepos env (Normalizer.withDocumentLevel raw documentLevel) rawRepos
  = Normalizer.expandRepos env raw rawRepos.
Proof.
  induction rawRepos as [ | rawRepo rest IH ]; simpl; [ reflexivity | ].
  rewrite IH, expandUrls_documentLevel. reflexivity.
Qed.

Lemma normalizeConfig_documentLevel :
  Normalizer.normalizeConfig env (Normalizer.withDocumentLevel raw documentLevel)
  = Normalizer.normalizeConfig env raw.
Proof.
  unfold Normalizer.normalizeConfig. simpl.
  rewrite expandRepos_documentLevel. reflexivity.
Qed.

End DocumentLevelStrategy.

(** C3 (as amended): in merge mode the multi-file [normalizeConfig]
    deep-merges the file's base content with the repo content under the
    file's own [mergeStrategy] when it is specified and under [replace]
    otherwise, whatever the document-level [mergeStrategy], which changes
    nothing of the output; override mode and inherit mode use no strategy.
    The one-file [normalizeConfig] of [config.ts], which has no per-file
    strategy, merges under the document-level [mergeStrategy], and under
    [replace] when it is absent. *)
Theorem C3_merge_mode_strategy (env : Env) :
  (forall (raw : Normalizer.RawConfig.t) (config : Normalizer.Config.t)
          (documentLevel : option ArrayMergeStrategy),
      Normalizer.normalizeConfig env raw = Ok config ->
      Normalizer.normalizeConfig env (Normalizer.withDocumentLevel raw documentLevel)
      = Ok config
      /\ Views.everyFile raw config
           (fun rawRepo fileConfig file =>
              let repoOverride :=
                Normalizer.overrideObject
                  (Normalizer.repoOverrideOf rawRepo
                     (Normalizer.FileContent.fileName file)) in
              match Normalizer.modeOf repoOverride with
              | Normalizer.MergeMode =>
                  exists overlay,
                    Normalizer.overrideContent repoOverride = Some overlay
                    /\ interpolateEnvVars env
                         (stripMergeDirectives
                            (deepMerge (Normalizer.baseContentOf fileConfig) overlay
                               (createMergeContext
                                  match Normalizer.RawFileConfig.mergeStrategy fileConfig with
                                  | Some own => own
                                  | None => Replace
                                  end)))
                         (Some {| strict := true |})
                       = Ok (Normalizer.FileContent.content file)
              | Normalizer.OverrideMode =>
                  exists given,
                    Normalizer.overrideContent repoOverride = Some given
                    /\ interpolateEnvVars env (stripMergeDirectives given)
                         (Some {| strict := true |})
                       = Ok (Normalizer.FileContent.content file)
              | Normalizer.InheritMode =>
                  interpolateEnvVars env (Normalizer.baseContentOf fileConfig)
                    (Some {| strict := true |})
                  = Ok (Normalizer.FileContent.content file)
              end))
  /\ (forall (raw : ConfigTs.RawConfig.t) (config : ConfigTs.Config.t),
         ConfigTs.normalizeConfig env raw = Ok config ->
         Views.everyRepoTs raw config
           (fun rawRepo json =>
              let baseJson :=
                match ConfigTs.RawConfig.json raw with Some root => root | None => [] end in
              if truthyFlag (ConfigTs.RawRepoConfig.override rawRepo)
              then exists given,
                  ConfigTs.RawRepoConfig.json rawRepo = Some given
                  /\ interpolateEnvVars env (stripMergeDirectives given)
                       (Some {| strict := true |})
                     = Ok json
              else match ConfigTs.RawRepoConfig.json rawRepo with
                   | Some overlay =>
                       interpolateEnvVars env
                         (stripMergeDirectives
                            (deepMerge baseJson overlay
                               (createMergeContext
                                  match ConfigTs.RawConfig.mergeStrategy raw with
                                  | Some given => given
                                  | None => Replace
                                  end)))
                         (Some {| strict := true |})
                       = Ok json
                   | None =>
                       interpolateEnvVars env baseJson (Some {| strict := true |}) = Ok json
                   end)).
Proof.
  split.
  - intros raw config documentLevel Hnorm. split.
    + rewrite normalizeConfig_documentLevel. exact Hnorm.
    + revert Hnorm. apply normalizeConfig_everyFile.
      intros rawRepo fileConfig file _ Hlookup Hbody.
      destruct (processFile_Some env raw _ _ _ Hbody)
        as (fileConfig' & merged & Hlookup' & _ & Hmerged & Hinterp & _).
      rewrite Hlookup in Hlookup'. inversion Hlookup'; subst fileConfig'.
      apply mergedContentOf_mode in Hmerged. cbv zeta.
      destruct (Normalizer.modeOf _).
      * destruct Hmerged as (given & Hgiven & ->). exists given; auto.
      * subst merged. exact Hinterp.
      * destruct Hmerged as (overlay & Hoverlay & ->). exists overlay; auto.
  - intros raw config. apply configTs_everyRepo.
    intros rawRepo json Hjson. apply mergedJsonOf_mode in Hjson. exact Hjson.
Qed.

Lemma C3_merge_mode_strategy_witness :
  (exists config,
      Normalizer.normalizeConfig Samples.emptyEnv Samples.documentLevelAppend = Ok config
      /\ map (fun repo => map Normalizer.FileContent.content (Normalizer.RepoConfig.files repo))
             (Normalizer.Config.repos config)
         = [[[("items", VArr [VStr "b"])]]]
      /\ Normalizer.normalizeConfig Samples.emptyEnv
           (Normalizer.withDocumentLevel Samples.documentLevelAppend (Some Prepend))
         = Ok config
      /\ Views.everyFile Samples.documentLevelAppend config
           (fun rawRepo fileConfig file =>
              let repoOverride :=
                Normalizer.overrideObject
                  (Normalizer.repoOverrideOf rawRepo
                     (Normalizer.FileContent.fileName file)) in
              match Normalizer.modeOf repoOverride with
              | Normalizer.MergeMode =>
                  exists overlay,
                    Normalizer.overrideContent repoOverride = Some overlay
                    /\ interpolateEnvVars Samples.emptyEnv
                         (stripMergeDirectives
                            (deepMerge (Normalizer.baseContentOf fileConfig) overlay
                               (createMergeContext
                                  match Normalizer.RawFileConfig.mergeStrategy fileConfig with
                                  | Some own => own
                                  | None => Replace
                                  end)))
                         (Some {| strict := true |})
                       = Ok (Normalizer.FileContent.content file)
              | Normalizer.OverrideMode =>
                  exists given,
                    Normalizer.overrideContent repoOverride = Some given
                    /\ interpolateEnvVars Samples.emptyEnv (stripMergeDirectives given)
                         (Some {| strict := true |})
                       = Ok (Normalizer.FileContent.content file)
              | Normalizer.InheritMode =>
                  interpolateEnvVars Samples.emptyEnv (Normalizer.baseContentOf fileConfig)
                    (Some {| strict := true |})
                  = Ok (Normalizer.FileContent.content file)
              end))
  /\ (exists config,
         ConfigTs.normalizeConfig Samples.emptyEnv Samples.documentLevelAppendTs = Ok config
         /\ map ConfigTs.RepoConfig.json (ConfigTs.Config.repos config)
            = [[("items", VArr [VStr "a"; VStr "b"])]]
         /\ Views.everyRepoTs Samples.documentLevelAppendTs config
              (fun rawRepo json =>
                 let baseJson :=
                   match ConfigTs.RawConfig.json Samples.documentLevelAppendTs with
                   | Some root => root
                   | None => []
                   end in
                 if truthyFlag (ConfigTs.RawRepoConfig.override rawRepo)
                 then exists given,
                     ConfigTs.RawRepoConfig.json rawRepo = Some given
                     /\ interpolateEnvVars Samples.emptyEnv (stripMergeDirectives given)
                          (Some {| strict := true |})
                        = Ok json
                 else match ConfigTs.RawRepoConfig.json rawRepo with
                      | Some overlay =>
                          interpolateEnvVars Samples.emptyEnv
                            (stripMergeDirectives
                               (deepMerge baseJson overlay
                                  (createMergeContext
                                     match ConfigTs.RawConfig.mergeStrategy
                                             Samples.documentLevelAppendTs with
                                     | Some given => given
                                     | None => Replace
                                     end)))
                            (Some {| strict := true |})
                          = Ok json
                      | None =>
                          interpolateEnvVars Samples.emptyEnv baseJson
                            (Some {| strict := true |}) = Ok json
                      end)).
Proof.
  split.
  - eexists. split; [ reflexivity | ]. split; [ reflexivity | ].
    apply (proj1 (C3_merge_mode_strategy Samples.emptyEnv)
             Samples.documentLevelAppend _ (Some Prepend)).
    reflexivity.
  - eexists. split; [ reflexivity | ]. split; [ reflexivity | ].
    apply (proj2 (C3_merge_mode_strategy Samples.emptyEnv) Samples.documentLevelAppendTs).
    reflexivity.
Defined.

(** The claim as stated fails: with a document-level [append] and no
    strategy on the file, the strategy of the spec's words would
    concatenate the two sequences, the normalizer replaces. *)
Lemma C3_document_level_strategy_ignored :
  exists config repo file fileConfig overlay,
    Normalizer.normalizeConfig Samples.emptyEnv Samples.documentLevelAppend = Ok config
    /\ In repo (Normalizer.Config.repos config)
    /\ In file (Normalizer.RepoConfig.files repo)
    /\ lookup "config.json" (Normalizer.RawConfig.files Samples.documentLevelAppend)
       = Some fileConfig
    /\ Normalizer.RawFileConfig.mergeStrategy fileConfig = None
    /\ Normalizer.RawConfig.mergeStrategy Samples.documentLevelAppend = Some Append
    /\ SpecWords.arrayStrategy Samples.documentLevelAppend fileConfig = Append
    /\ interpolateEnvVars Samples.emptyEnv
         (stripMergeDirectives
            (deepMerge (Normalizer.baseContentOf fileConfig) overlay
               (createMergeContext
                  (SpecWords.arrayStrategy Samples.documentLevelAppend fileConfig))))
         (Some {| strict := true |})
       = Ok [("items", VArr [VStr "a"; VStr "b"])]
    /\ Normalizer.FileContent.content file = [("items", VArr [VStr "b"])]
    /\ Normalizer.FileContent.content file <> [("items", VArr [VStr "a"; VStr "b"])].
Proof.
  do 3 eexists. exists (Samples.fileOf [("items", VArr [VStr "a"])] None None).
  exists [("items", VArr [VStr "b"])].
  split; [ reflexivity | ].
  split; [ left; reflexivity | ].
  split; [ left; reflexivity | ].
  repeat (split; [ reflexivity | ]).
  simpl. discriminate.
Qed.

(** ** [createOnly] *)




(** ** Objects: reading, writing, keys *)

Lemma lookup_assign_same (k : string) (v : value) (o : object) :
  lookup k (assign k v o) = Some v.
Proof.
  induction o as [ | [k' v'] rest IH ]; simpl.
  - rewrite String.eqb_refl; reflexivity.
  - destruct (String.eqb k k') eqn:E; simpl; rewrite E; [ reflexivity | exact IH ].
Qed.

Lemma lookup_assign_other (k k' : string) (v : value) (o : object) :
  k <> k' -> lookup k (assign k' v o) = lookup k o.
Proof.
  intros Hne. induction o as [ | [k0 v0] rest IH ]; simpl.
  - apply String.eqb_neq in Hne. rewrite Hne; reflexivity.
  - destruct (String.eqb k' k0) eqn:E; simpl.
    + apply String.eqb_eq in E; subst k0.
      apply String.eqb_neq in Hne. rewrite Hne; reflexivity.
    + rewrite IH; reflexivity.
Qed.

Lemma keys_assign (k k' : string) (v : value) (o : object) :
  In k (keys (assign k' v o)) <-> k = k' \/ In k (keys o).
Proof.
  unfold keys. induction o as [ | [k0 v0] rest IH ]; simpl.
  - intuition.
  - destruct (String.eqb k' k0) eqn:E; simpl.
    + apply String.eqb_eq in E; subst k0. intuition.
    + rewrite IH. intuition.
Qed.

Lemma lookup_None {A : Type} (k : string) (o : list (string * A)) :
  lookup k o = None <-> ~ In k (keys o).
Proof.
  unfold keys. induction o as [ | [k' v'] rest IH ]; simpl.
  - intuition.
  - destruct (String.eqb k k') eqn:E.
    + apply String.eqb_eq in E; subst k'. split; [ discriminate | intuition ].
    + apply String.eqb_neq in E. rewrite IH. intuition.
Qed.

Lemma lookup_Some_In {A : Type} (k : string) (v : A) (o : list (string * A)) :
  lookup k o = Some v -> In k (keys o).
Proof.
  intros H. destruct (in_dec string_dec k (keys o)) as [ Hin | Hout ]; [ exact Hin | ].
  apply lookup_None in Hout. congruence.
Qed.

(** ** The merge loop *)

Section MergeLoop.
Variable ctx : MergeContext.
Variable base : object.

Lemma mergeFields_keys (fields result : object) (k : string) :
  In k (keys (mergeFields ctx base fields result))
  <-> In k (keys result) \/ In k (keys fields).
Proof.
  revert result; induction fields as [ | [k' v'] rest IH ]; simpl; intros result.
  - intuition.
  - rewrite IH, keys_assign. intuition.
Qed.

Lemma mergeFields_untouched (fields result : object) (k : string) :
  ~ In k (keys fields) ->
  lookup k (mergeFields ctx base fields result) = lookup k result.
Proof.
  revert result; induction fields as [ | [k' v'] rest IH ]; simpl; intros result Hout.
  - reflexivity.
  - rewrite IH by intuition. apply lookup_assign_other. intuition.
Qed.

Lemma mergeFields_lookup (fields result : object) (k : string) (v : value) :
  NoDup (keys fields) ->
  lookup k fields = Some v ->
  lookup k (mergeFields ctx base fields result)
  = Some (mergeValue ctx (lookup k base) v).
Proof.
  revert result; induction fields as [ | [k' v'] rest IH ]; simpl;
    intros result Hnodup Hlookup.
  - discriminate.
  - inversion Hnodup as [ | ? ? Hfresh Hrest ]; subst.
    destruct (String.eqb k k') eqn:E.
    + apply String.eqb_eq in E; subst k'. inversion Hlookup; subst v'.
      rewrite mergeFields_untouched by exact Hfresh.
      apply lookup_assign_same.
    + apply IH; assumption.
Qed.

End MergeLoop.

(** Two mappings recurse: the value stored is the merge of the two. *)
Lemma mergeValue_mappings (ctx : MergeContext) (base overlay : object) :
  mergeValue ctx (Some (VObj base)) (VObj overlay) = VObj (deepMerge base overlay ctx).
Proof.
  unfold deepMerge. simpl. f_equal.
  generalize base at 2 4. 
  induction overlay as [ | [k v] rest IH ]; intros result; simpl.
  - reflexivity.
  - apply IH.
Qed.

(** ** Arrays under [deepMerge] *)

(** C2: at every key [k] of the overlay, a directive resolves against
    [base[k]] read as a sequence (empty when absent), [append] putting the
    base first and [prepend] the directive's values first, whatever the
    ambient strategy of the context; a plain sequence over a base sequence
    follows the ambient strategy, [replace] keeping the overlay's sequence
    alone. *)
Theorem C2_deepMerge_arrays
        (base overlay : object) (ctx : MergeContext) (k : string)
        (baseItems : list value) :
  NoDup (keys overlay) ->
  (lookup k base = Some (VArr baseItems)
   \/ (lookup k base = None /\ baseItems = [])) ->
  (forall values,
      lookup k overlay = Some (VDirective DirAppend values) ->
      lookup k (deepMerge base overlay ctx) = Some (VArr (baseItems ++ values)))
  /\ (forall values,
         lookup k overlay = Some (VDirective DirPrepend values) ->
         lookup k (deepMerge base overlay ctx) = Some (VArr (values ++ baseItems)))
  /\ (forall items,
         lookup k overlay = Some (VArr items) ->
         lookup k base = Some (VArr baseItems) ->
         lookup k (deepMerge base overlay ctx)
         = Some (VArr match defaultArrayStrategy ctx with
                      | Replace => items
                      | Append => baseItems ++ items
                      | Prepend => items ++ baseItems
                      end)).
Proof.
  intros Hnodup Hbase. unfold deepMerge.
  assert (Hseq : asSequence (lookup k base) = baseItems).
  { destruct Hbase as [ -> | (-> & ->) ]; reflexivity. }
  repeat split.
  - intros values Hoverlay.
    rewrite (mergeFields_lookup ctx base overlay base k _ Hnodup Hoverlay).
    simpl. rewrite Hseq. reflexivity.
  - intros values Hoverlay.
    rewrite (mergeFields_lookup ctx base overlay base k _ Hnodup Hoverlay).
    simpl. rewrite Hseq. reflexivity.
  - intros items Hoverlay Hk.
    rewrite (mergeFields_lookup ctx base overlay base k _ Hnodup Hoverlay).
    rewrite Hk. simpl. destruct (defaultArrayStrategy ctx); reflexivity.
Qed.

Lemma C2_deepMerge_arrays_witness :
  let base := [("a", VArr [VNum 1; VNum 2]); ("b", VArr [VStr "x"])] in
  let overlay := [("a", VDirective DirPrepend [VNum 3]); ("b", VArr [VStr "y"])] in
  lookup "a" (deepMerge base overlay (createMergeContext Replace))
  = Some (VArr [VNum 3; VNum 1; VNum 2])
  /\ lookup "b" (deepMerge base overlay (createMergeContext Append))
     = Some (VArr [VStr "x"; VStr "y"]).
Proof.
  intros base overlay.
  assert (Hnodup : NoDup (keys overlay)).
  { repeat constructor; simpl; intuition discriminate. }
  split.
  - exact (proj1 (proj2 (C2_deepMerge_arrays base overlay (createMergeContext Replace)
                           "a" [VNum 1; VNum 2] Hnodup (or_introl eq_refl)))
             [VNum 3] eq_refl).
  - exact (proj2 (proj2 (C2_deepMerge_arrays base overlay (createMergeContext Append)
                           "b" [VStr "x"] Hnodup (or_introl eq_refl)))
             [VStr "y"] eq_refl eq_refl).
Defined.

(** ** Validation in [config.ts] *)

Section ValidateRepos.
Variable hasRootJson : bool.

Lemma validateRepo_lacksGit (i : nat) (repo : ConfigTs.RawRepoConfig.t) :
  ConfigTs.lacksGit repo = true ->
  ConfigTs.validateRepo hasRootJson i repo = Throw (ConfigTs.missingGit i).
Proof.
  unfold ConfigTs.lacksGit, ConfigTs.validateRepo.
  destruct (ConfigTs.RawRepoConfig.git repo) as [ git | ]; [ | reflexivity ].
  intros ->. reflexivity.
Qed.

Lemma validateRepo_Ok (i : nat) (repo : ConfigTs.RawRepoConfig.t) :
  ConfigTs.validateRepo hasRootJson i repo = Ok tt ->
  ConfigTs.lacksGit repo = false.
Proof.
  destruct (ConfigTs.lacksGit repo) eqn:E; [ | reflexivity ].
  rewrite (validateRepo_lacksGit i repo E). discriminate.
Qed.

Lemma validateRepos_Ok (start : nat) (repos : list ConfigTs.RawRepoConfig.t) :
  ConfigTs.validateRepos hasRootJson start repos = Ok tt ->
  forall repo, In repo repos -> ConfigTs.lacksGit repo = false.
Proof.
  revert start; induction repos as [ | first rest IH ]; simpl; intros start H repo Hin.
  - destruct Hin.
  - apply bind_Ok in H; destruct H as ([] & Hfirst & Hrest).
    destruct Hin as [ <- | Hin ].
    + eapply validateRepo_Ok; eauto.
    + eapply IH; eauto.
Qed.

Lemma validateRepos_first_without_git
      (start i : nat) (repos : list ConfigTs.RawRepoConfig.t)
      (repo : ConfigTs.RawRepoConfig.t) :
  nth_error repos i = Some repo ->
  ConfigTs.lacksGit repo = true ->
  (forall j earlier,
      j < i -> nth_error repos j = Some earlier ->
      ConfigTs.validateRepo hasRootJson (start + j) earlier = Ok tt) ->
  ConfigTs.validateRepos hasRootJson start repos
  = Throw (ConfigTs.missingGit (start + i)).
Proof.
  revert start i; induction repos as [ | first rest IH ]; intros start i Hnth Hlacks Hbefore.
  - destruct i; discriminate.
  - destruct i as [ | i ]; simpl in *.
    + inversion Hnth; subst first.
      rewrite (validateRepo_lacksGit start repo Hlacks). simpl.
      rewrite Nat.add_0_r. reflexivity.
    + assert (H0 := Hbefore 0 first (Nat.lt_0_succ i) eq_refl).
      rewrite Nat.add_0_r in H0. rewrite H0. simpl.
      rewrite (IH (S start) i Hnth Hlacks).
      * rewrite Nat.add_succ_r. reflexivity.
      * intros j earlier Hj Hearlier.
        assert (H := Hbefore (S j) earlier (proj1 (Nat.succ_lt_mono j i) Hj) Hearlier).
        rewrite Nat.add_succ_r in H. exact H.
Qed.

End ValidateRepos.

(** C5 (as amended): [validateRawConfig] succeeds only if [repos] is a
    sequence, which may be empty, and every repo entry has a [git] field
    that is a non-empty string or an array; a document in which the first
    entry to fail a check is one lacking [git] fails with the error
    [Repo at index i missing required field: git], [i] being that entry's
    index. *)
Theorem C5_repos_and_git (config : ConfigTs.RawConfig.t) :
  (ConfigTs.validateRawConfig config = Ok tt ->
   exists repos,
     ConfigTs.RawConfig.repos config = Some repos
     /\ forall repo, In repo repos ->
          exists git, ConfigTs.RawRepoConfig.git repo = Some git
                      /\ truthyGit git = true)
  /\ (forall name repos i repo,
         ConfigTs.RawConfig.fileName config = Some name ->
         truthyString name = true ->
         ConfigTs.RawConfig.repos config = Some repos ->
         nth_error repos i = Some repo ->
         ConfigTs.lacksGit repo = true ->
         (forall j earlier,
             j < i -> nth_error repos j = Some earlier ->
             ConfigTs.validateRepo (isSome (ConfigTs.RawConfig.json config)) j earlier
             = Ok tt) ->
         ConfigTs.validateRawConfig config
         = Throw (Error ("Repo at index " ++ showIndex i
                         ++ " missing required field: git"))).
Proof.
  unfold ConfigTs.validateRawConfig. split.
  - destruct (ConfigTs.RawConfig.fileName config) as [ name | ]; [ | discriminate ].
    destruct (truthyString name); [ simpl | discriminate ].
    destruct (ConfigTs.RawConfig.repos config) as [ repos | ]; [ | discriminate ].
    intros H. exists repos. split; [ reflexivity | ].
    intros repo Hin.
    assert (Hgit := validateRepos_Ok _ _ _ H repo Hin).
    unfold ConfigTs.lacksGit in Hgit.
    destruct (ConfigTs.RawRepoConfig.git repo) as [ git | ]; [ | discriminate ].
    exists git. split; [ reflexivity | ].
    destruct (truthyGit git); [ reflexivity | discriminate ].
  - intros name repos i repo Hname Htruthy Hrepos Hnth Hlacks Hbefore.
    rewrite Hname, Htruthy, Hrepos. simpl.
    apply (validateRepos_first_without_git _ 0 i repos repo Hnth Hlacks).
    exact Hbefore.
Qed.

Lemma C5_repos_and_git_witness :
  ConfigTs.validateRawConfig Samples.thirdWithoutGit
  = Throw (Error "Repo at index 2 missing required field: git").
Proof.
  apply (proj2 (C5_repos_and_git Samples.thirdWithoutGit)
           "config.json"
           [Samples.repoTs (Some (GitUrl "git@github.com:org/repo1.git"));
            Samples.repoTs (Some (GitUrl "git@github.com:org/repo2.git"));
            Samples.repoTs None]
           2 (Samples.repoTs None)).
  - reflexivity.
  - reflexivity.
  - reflexivity.
  - reflexivity.
  - reflexivity.
  - intros j earlier Hj Hnth.
    destruct j as [ | [ | j ] ].
    + inversion Hnth; reflexivity.
    + inversion Hnth; reflexivity.
    + lia.
Defined.

(** The claim as stated fails: a document with an empty [repos] sequence
    passes validation. *)
Lemma C5_empty_repos_accepted :
  ConfigTs.RawConfig.repos Samples.emptyRepos = Some []
  /\ ConfigTs.validateRawConfig Samples.emptyRepos = Ok tt.
Proof. split; reflexivity. Qed.

(** An empty [git] array is truthy, so [!repo.git] lets it through. *)
Example empty_git_array_accepted :
  ConfigTs.validateRawConfig Samples.emptyGitArray = Ok tt.
Proof. reflexivity. Qed.

(** ** File names in [config.ts] *)

(** The only check on [fileName] is [!config.fileName]. *)
Lemma validateRawConfig_any_name (name : string) :
  truthyString name = true ->
  ConfigTs.validateRawConfig (Samples.named name) = Ok tt.
Proof.
  unfold ConfigTs.validateRawConfig, Samples.named, Samples.configTs. simpl.
  intros ->. reflexivity.
Qed.

(** C6 (the code at the failing inputs): [validateRawConfig] of
    [config.ts] accepts a file name with a [..] segment at the start or in
    the middle and an absolute one, as it accepts [sub/dir/my.config.json];
    only the empty name is refused. *)
Theorem C6_unsafe_file_names_accepted :
  ConfigTs.validateRawConfig (Samples.named "../config.json") = Ok tt
  /\ ConfigTs.validateRawConfig (Samples.named "path/../config.json") = Ok tt
  /\ ConfigTs.validateRawConfig (Samples.named "/etc/config.json") = Ok tt
  /\ ConfigTs.validateRawConfig
       (Samples.named (String (ascii_of_nat 10) "config.json")) = Ok tt
  /\ ConfigTs.validateRawConfig
       (Samples.named (String (ascii_of_nat 0) "config.json")) = Ok tt
  /\ ConfigTs.validateRawConfig (Samples.named "sub/dir/my.config.json") = Ok tt
  /\ ConfigTs.validateRawConfig (Samples.named "")
     = Throw (Error "Config missing required field: fileName").
Proof. repeat split; reflexivity. Qed.

(** ** Strings *)

Lemma append_assoc (a b c : string) : ((a ++ b) ++ c)%string = (a ++ (b ++ c))%string.
Proof. induction a as [ | x a IH ]; simpl; [ reflexivity | rewrite IH; reflexivity ]. Qed.

Lemma length_append (a b : string) :
  String.length (a ++ b) = String.length a + String.length b.
Proof. induction a as [ | x a IH ]; simpl; [ reflexivity | rewrite IH; reflexivity ]. Qed.

(** ** Scanning for occurrences *)

Lemma scan_skip (consumed rest : string) :
  scan (String.length consumed) (consumed ++ rest) = scan 0 rest.
Proof. induction consumed as [ | c consumed IH ]; simpl; [ reflexivity | exact IH ]. Qed.

Lemma scanName_suffix (s name after : string) :
  scanName s = (name, after) -> s = (name ++ after)%string.
Proof.
  revert name after; induction s as [ | c s IH ]; simpl; intros name after H.
  - inversion H; reflexivity.
  - destruct (isNameChar c).
    + destruct (scanName s) as [ n a ]. inversion H; subst. simpl.
      rewrite (IH n after eq_refl). reflexivity.
    + inversion H; reflexivity.
Qed.

Lemma scanToBrace_suffix (s text after : string) :
  scanToBrace s = Some (text, after) -> s = (text ++ String "}" after)%string.
Proof.
  revert text after; induction s as [ | c s IH ]; simpl; intros text after H.
  - discriminate.
  - destruct (Ascii.eqb c "}") eqn:E.
    + apply Ascii.eqb_eq in E; subst c. inversion H; reflexivity.
    + destruct (scanToBrace s) as [ [t a] | ]; [ | discriminate ].
      inversion H; subst. simpl. rewrite (IH t after eq_refl). reflexivity.
Qed.

Lemma matchReference_suffix (body name after : string) (m : Modifier) :
  matchReference body = Some (name, m, after) ->
  exists consumed, body = (consumed ++ after)%string.
Proof.
  unfold matchReference.
  destruct (scanName body) as [ n r ] eqn:Hname.
  apply scanName_suffix in Hname. subst body.
  destruct n as [ | n0 n ]; [ discriminate | ].
  destruct r as [ | c r ]; [ discriminate | ].
  destruct (Ascii.eqb c "}") eqn:Ec.
  - intros H; inversion H; subst.
    exists (String n0 n ++ String c "")%string.
    rewrite append_assoc; reflexivity.
  - destruct (Ascii.eqb c ":"); [ | discriminate ].
    destruct r as [ | x text ]; [ discriminate | ].
    destruct (Ascii.eqb x "-").
    + destruct (scanToBrace text) as [ [d rest] | ] eqn:Hd; [ | discriminate ].
      apply scanToBrace_suffix in Hd. subst text.
      intros H; inversion H; subst.
      exists (String n0 n ++ String c (String x (d ++ "}")))%string.
      rewrite !append_assoc. simpl. rewrite append_assoc. reflexivity.
    + destruct (Ascii.eqb x "?"); [ | discriminate ].
      destruct (scanToBrace text) as [ [d rest] | ] eqn:Hd; [ | discriminate ].
      apply scanToBrace_suffix in Hd. subst text.
      intros H; inversion H; subst.
      exists (String n0 n ++ String c (String x (d ++ "}")))%string.
      rewrite !append_assoc. simpl. rewrite append_assoc. reflexivity.
Qed.

(** A recognised form is one token; the scan resumes right after it. *)
Lemma tokenize_reference (body name after : string) (m : Modifier) :
  matchReference body = Some (name, m, after) ->
  tokenize ("${" ++ body) = Occurrence name m :: tokenize after.
Proof.
  intros H. unfold tokenize. simpl. rewrite H.
  destruct (matchReference_suffix _ _ _ _ H) as (consumed & ->).
  rewrite length_append, Nat.add_sub. simpl.
  rewrite scan_skip. reflexivity.
Qed.

Lemma tokenize_literals (lit s : string) :
  noDollar lit = true ->
  tokenize (lit ++ s) = (literals lit ++ tokenize s)%list.
Proof.
  unfold tokenize, noDollar, literals.
  induction lit as [ | c lit IH ]; simpl; intros H.
  - reflexivity.
  - apply andb_prop in H. destruct H as (Hc & Hlit).
    apply negb_true_iff in Hc. rewrite Hc, (IH Hlit). reflexivity.
Qed.

Lemma scanName_name (name rest : string) (c : ascii) :
  allChars isNameChar name = true ->
  isNameChar c = false ->
  scanName (name ++ String c rest) = (name, String c rest).
Proof.
  intros Hname Hc. induction name as [ | x name IH ]; simpl in *.
  - rewrite Hc; reflexivity.
  - apply andb_prop in Hname. destruct Hname as (Hx & Hname).
    rewrite Hx, (IH Hname). reflexivity.
Qed.

Lemma scanToBrace_text (text after : string) :
  noBrace text = true ->
  scanToBrace (text ++ String "}" after) = Some (text, after).
Proof.
  unfold noBrace. induction text as [ | c text IH ]; simpl; intros H.
  - reflexivity.
  - apply andb_prop in H. destruct H as (Hc & Htext).
    apply negb_true_iff in Hc. rewrite Hc, (IH Htext). reflexivity.
Qed.

Lemma matchReference_plain (name after : string) :
  validName name = true ->
  matchReference (name ++ "}" ++ after) = Some (name, Plain, after).
Proof.
  intros Hname. unfold matchReference.
  destruct name as [ | x name ]; [ discriminate | ].
  simpl in Hname.
  change (String x name ++ "}" ++ after)%string
    with (String x name ++ String "}" after)%string.
  rewrite scanName_name by (simpl; auto).
  reflexivity.
Qed.


Lemma matchReference_required (name message after : string) :
  validName name = true ->
  noBrace message = true ->
  matchReference (name ++ ":?" ++ message ++ "}" ++ after)
  = Some (name, Required message, after).
Proof.
  intros Hname Htext. unfold matchReference.
  destruct name as [ | x name ]; [ discriminate | ].
  simpl in Hname.
  change (String x name ++ ":?" ++ message ++ "}" ++ after)%string
    with (String x name ++ String ":" (String "?" (message ++ String "}" after)))%string.
  rewrite scanName_name by (simpl; auto).
  simpl. rewrite scanToBrace_text by exact Htext. reflexivity.
Qed.

(** ** Substituting *)

Section Substitute.
Variable env : Env.
Variable strictMode : bool.

Lemma substitute_app (before after : list Token) :
  substitute env strictMode (before ++ after)
  = (a <- substitute env strictMode before ;;
     b <- substitute env strictMode after ;;
     Ok (a ++ b)%string).
Proof.
  induction before as [ | [ c | name m ] before IH ]; simpl.
  - destruct (substitute env strictMode after); reflexivity.
  - rewrite IH. destruct (substitute env strictMode before); simpl; [ | reflexivity ].
    destruct (substitute env strictMode after); reflexivity.
  - destruct (resolve env strictMode name m); simpl; [ | reflexivity ].
    rewrite IH. destruct (substitute env strictMode before); simpl; [ | reflexivity ].
    destruct (substitute env strictMode after); simpl; [ | reflexivity ].
    rewrite append_assoc. reflexivity.
Qed.

Lemma substitute_literals (lit : string) :
  substitute env strictMode (literals lit) = Ok lit.
Proof.
  unfold literals. induction lit as [ | c lit IH ]; simpl; [ reflexivity | ].
  rewrite IH. reflexivity.
Qed.

(** A string that opens with literal text free of dollar signs and then
    a recognised form. *)
Lemma processString_reference (lit body name after : string) (m : Modifier) :
  noDollar lit = true ->
  matchReference body = Some (name, m, after) ->
  processString env strictMode (lit ++ "${" ++ body)
  = (v <- resolve env strictMode name m ;;
     rest <- processString env strictMode after ;;
     Ok (lit ++ v ++ rest)%string).
Proof.
  intros Hlit Hbody. unfold processString.
  rewrite (tokenize_literals lit _ Hlit), (tokenize_reference _ _ _ _ Hbody).
  rewrite substitute_app, substitute_literals. simpl.
  destruct (resolve env strictMode name m); simpl; [ | reflexivity ].
  destruct (substitute env strictMode (tokenize after)); reflexivity.
Qed.

(** Substitution throws exactly when some occurrence needs a variable
    that is not defined. *)
Lemma substitute_throws (tokens : list Token) :
  isOk (substitute env strictMode tokens) = false
  <-> exists name m,
      In (Occurrence name m) tokens
      /\ env name = None
      /\ requiresVariable strictMode m = true.
Proof.
  induction tokens as [ | [ c | name m ] tokens IH ]; simpl.
  - split; [ discriminate | intros (n & m & [] & _) ].
  - destruct (substitute env strictMode tokens) as [ t | e ]; simpl in *.
    + split; [ discriminate | ].
      intros (n & m & [ Hin | Hin ] & Hrest); [ discriminate | ].
      apply IH. exists n, m; auto.
    + split; [ | reflexivity ].
      intros _. destruct (proj1 IH eq_refl) as (n & m & Hin & Hrest).
      exists n, m; auto.
  - unfold resolve. destruct (env name) as [ v | ] eqn:Hv; simpl.
    + destruct (substitute env strictMode tokens) as [ t | e ]; simpl in *.
      * split; [ discriminate | ].
        intros (n & m' & [ Hin | Hin ] & Hn & Hreq).
        -- inversion Hin; subst. congruence.
        -- apply IH. exists n, m'; auto.
      * split; [ | reflexivity ].
        intros _. destruct (proj1 IH eq_refl) as (n & m' & Hin & Hrest).
        exists n, m'; auto.
    + destruct m as [ | text | message ]; simpl.
      * destruct strictMode eqn:Hs; simpl.
        -- split; [ | reflexivity ]. intros _. exists name, Plain; auto.
        -- destruct (substitute env false tokens) as [ t | e ]; simpl in *.
           ++ split; [ discriminate | ].
              intros (n & m' & [ Hin | Hin ] & Hn & Hreq).
              ** inversion Hin; subst. discriminate.
              ** apply IH. exists n, m'; auto.
           ++ split; [ | reflexivity ].
              intros _. destruct (proj1 IH eq_refl) as (n & m' & Hin & Hrest).
              exists n, m'; auto.
      * destruct (substitute env strictMode tokens) as [ t | e ]; simpl in *.
        -- split; [ discriminate | ].
           intros (n & m' & [ Hin | Hin ] & Hn & Hreq).
           ++ inversion Hin; subst. discriminate.
           ++ apply IH. exists n, m'; auto.
        -- split; [ | reflexivity ].
           intros _. destruct (proj1 IH eq_refl) as (n & m' & Hin & Hrest).
           exists n, m'; auto.
      * split; [ | reflexivity ]. intros _. exists name, (Required message); auto.
Qed.

End Substitute.

(** ** Failure of the recursive visit *)

Lemma isOk_bind_Ok {A B : Type} (r : result A) (f : A -> B) :
  isOk (x <- r ;; Ok (f x)) = isOk r.
Proof. destruct r; reflexivity. Qed.

Section Visit.
Variable env : Env.
Variable strictMode : bool.

Lemma visit_items_throw (items : list value) :
  Forall (fun v =>
            isOk (processValue env strictMode v) = false
            <-> exists s, In s (stringsOf v)
                          /\ isOk (processString env strictMode s) = false) items ->
  isOk (mapM (processValue env strictMode) items) = false
  <-> exists s, In s (flat_map stringsOf items)
                /\ isOk (processString env strictMode s) = false.
Proof.
  intros IH. rewrite mapM_Throw. rewrite Forall_forall in IH. split.
  - intros (v & Hin & Hv). apply (IH v Hin) in Hv. destruct Hv as (s & Hs & Hfail).
    exists s. split; [ | exact Hfail ]. apply in_flat_map. exists v; auto.
  - intros (s & Hs & Hfail). apply in_flat_map in Hs. destruct Hs as (v & Hin & Hs).
    exists v. split; [ exact Hin | ]. apply (IH v Hin). exists s; auto.
Qed.

Lemma visit_fields_throw (fields : list (string * value)) :
  Forall (fun kv =>
            isOk (processValue env strictMode (snd kv)) = false
            <-> exists s, In s (stringsOf (snd kv))
                          /\ isOk (processString env strictMode s) = false) fields ->
  isOk (mapM (fun kv => v' <- processValue env strictMode (snd kv) ;; Ok (fst kv, v'))
             fields) = false
  <-> exists s, In s (flat_map (fun kv => stringsOf (snd kv)) fields)
                /\ isOk (processString env strictMode s) = false.
Proof.
  intros IH. rewrite mapM_Throw. rewrite Forall_forall in IH. split.
  - intros (kv & Hin & Hkv). rewrite isOk_bind_Ok in Hkv.
    apply (IH kv Hin) in Hkv. destruct Hkv as (s & Hs & Hfail).
    exists s. split; [ | exact Hfail ]. apply in_flat_map. exists kv; auto.
  - intros (s & Hs & Hfail). apply in_flat_map in Hs. destruct Hs as (kv & Hin & Hs).
    exists kv. split; [ exact Hin | ]. rewrite isOk_bind_Ok.
    apply (IH kv Hin). exists s; auto.
Qed.

Lemma processValue_throws (v : value) :
  isOk (processValue env strictMode v) = false
  <-> exists s, In s (stringsOf v) /\ isOk (processString env strictMode s) = false.
Proof.
  induction v as [ | | | s | items IH | fields IH | strategy values IH ]
    using value_induction; simpl;
    try (split; [ discriminate | intros (s & [] & _) ]).
  - rewrite isOk_bind_Ok. split.
    + intros H; exists s; auto.
    + intros (s' & [ <- | [] ] & H); exact H.
  - rewrite isOk_bind_Ok. apply visit_items_throw; exact IH.
  - rewrite isOk_bind_Ok. apply visit_fields_throw; exact IH.
  - rewrite isOk_bind_Ok. apply visit_items_throw; exact IH.
Qed.

Lemma processObject_throws (o : object) :
  isOk (processObject env strictMode o) = false
  <-> exists s, In s (stringsOfObject o)
                /\ isOk (processString env strictMode s) = false.
Proof.
  unfold processObject, stringsOfObject. apply visit_fields_throw.
  apply Forall_forall. intros kv _. apply processValue_throws.
Qed.

End Visit.

Lemma processObject_string (env : Env) (strictMode : bool) (key s : string)
      (after : object) :
  processObject env strictMode ((key, VStr s) :: after)
  = (s' <- processString env strictMode s ;;
     after' <- processObject env strictMode after ;;
     Ok ((key, VStr s') :: after')).
Proof.
  unfold processObject. cbn [mapM processValue snd fst].
  destruct (processString env strictMode s); reflexivity.
Qed.

(** ** [${NAME:-default}] *)



(** ** Missing variables *)

(** C9: with the [strict] option given, [interpolateEnvVars] fails
    exactly when some occurrence in some string of the content names an
    undefined variable and needs it, which a [:?] occurrence always does
    and a plain one does under [strict: true] only.  On a field holding a
    plain [${NAME}] with [NAME] undefined it throws
    [Missing required environment variable: NAME] under [strict: true] and
    leaves the occurrence in the output as it is under [strict: false];
    on [${NAME:?message}] with [NAME] undefined it throws [NAME: message]
    under both. *)
Theorem C9_missing_variables (env : Env) :
  (forall (o : object) (strictMode : bool),
      isOk (interpolateEnvVars env o (Some {| strict := strictMode |})) = false
      <-> exists s name m,
          In s (stringsOfObject o)
          /\ In (Occurrence name m) (tokenize s)
          /\ env name = None
          /\ match m with
             | Plain => strictMode = true
             | Default _ => False
             | Required _ => True
             end)
  /\ (forall key lit name post,
         noDollar lit = true -> validName name = true -> env name = None ->
         interpolateEnvVars env [(key, VStr (lit ++ "${" ++ name ++ "}" ++ post))]
           (Some {| strict := true |})
         = Throw (Error ("Missing required environment variable: " ++ name))
         /\ interpolateEnvVars env [(key, VStr (lit ++ "${" ++ name ++ "}" ++ post))]
              (Some {| strict := false |})
            = (rest <- processString env false post ;;
               Ok [(key, VStr (lit ++ ("${" ++ name ++ "}") ++ rest))]))
  /\ (forall strictMode key lit name message post,
         noDollar lit = true -> validName name = true -> noBrace message = true ->
         env name = None ->
         interpolateEnvVars env
           [(key, VStr (lit ++ "${" ++ name ++ ":?" ++ message ++ "}" ++ post))]
           (Some {| strict := strictMode |})
         = Throw (Error (name ++ ": " ++ message))).
Proof.
  split; [ | split ].
  - intros o strictMode. unfold interpolateEnvVars, strictOf. simpl.
    rewrite processObject_throws. split.
    + intros (s & Hs & Hfail). unfold processString in Hfail.
      apply substitute_throws in Hfail. destruct Hfail as (name & m & Hin & Hundef & Hreq).
      exists s, name, m. repeat split; auto.
      destruct m; simpl in Hreq; [ exact Hreq | discriminate | exact I ].
    + intros (s & name & m & Hs & Hin & Hundef & Hreq).
      exists s. split; [ exact Hs | ].
      unfold processString. apply substitute_throws. exists name, m.
      repeat split; auto.
      destruct m; simpl; [ exact Hreq | contradiction | reflexivity ].
  - intros key lit name post Hlit Hname Hundef.
    assert (Hmatch := matchReference_plain name post Hname).
    unfold interpolateEnvVars, strictOf. cbn [strict]. split.
    + rewrite processObject_string.
      rewrite (processString_reference env true lit _ _ _ _ Hlit Hmatch).
      unfold resolve. rewrite Hundef. reflexivity.
    + rewrite processObject_string.
      rewrite (processString_reference env false lit _ _ _ _ Hlit Hmatch).
      unfold resolve, placeholder. rewrite Hundef. cbn [bind].
      destruct (processString env false post); reflexivity.
  - intros strictMode key lit name message post Hlit Hname Hmessage Hundef.
    assert (Hmatch := matchReference_required name message post Hname Hmessage).
    unfold interpolateEnvVars, strictOf. cbn [strict].
    rewrite processObject_string.
    rewrite (processString_reference env strictMode lit _ _ _ _ Hlit Hmatch).
    unfold resolve. rewrite Hundef. reflexivity.
Qed.

Lemma C9_missing_variables_witness :
  interpolateEnvVars Samples.testEnv [("key", VStr "${MISSING_VAR}")]
    (Some {| strict := true |})
  = Throw (Error "Missing required environment variable: MISSING_VAR")
  /\ interpolateEnvVars Samples.testEnv [("key", VStr "${MISSING_VAR}")]
       (Some {| strict := false |})
     = Ok [("key", VStr "${MISSING_VAR}")]
  /\ interpolateEnvVars Samples.testEnv
       [("key", VStr "${MISSING_VAR:?Variable is required}")]
       (Some {| strict := false |})
     = Throw (Error "MISSING_VAR: Variable is required")
  /\ isOk (interpolateEnvVars Samples.testEnv
             [("key", VStr "${TEST_VAR}"); ("items", VArr [VStr "${MISSING_VAR:?needed}"])]
             (Some {| strict := false |})) = false
  /\ isOk (interpolateEnvVars Samples.testEnv
             [("key", VStr "${TEST_VAR}"); ("items", VArr [VStr "${MISSING_VAR}"])]
             (Some {| strict := true |})) = false.
Proof.
  destruct (C9_missing_variables Samples.testEnv) as (Hiff & Hplain & Hrequired).
  destruct (Hplain "key" "" "MISSING_VAR" "" eq_refl eq_refl eq_refl)
    as (Hstrict & Hloose).
  split; [ exact Hstrict | ].
  split; [ exact Hloose | ].
  split.
  - exact (Hrequired false "key" "" "MISSING_VAR" "Variable is required" ""
             eq_refl eq_refl eq_refl eq_refl).
  - split.
    + apply (proj2 (Hiff _ false)).
      exists "${MISSING_VAR:?needed}", "MISSING_VAR", (Required "needed").
      split; [ right; left; reflexivity | ].
      split; [ left; reflexivity | ].
      split; [ reflexivity | exact I ].
    + apply (proj2 (Hiff _ true)).
      exists "${MISSING_VAR}", "MISSING_VAR", Plain.
      split; [ right; left; reflexivity | ].
      split; [ left; reflexivity | ].
      split; reflexivity.
Defined.

(** ** The default of [options] *)

(** C10: called without options, [interpolateEnvVars] is the strict call;
    on [{ key: "${MISSING_VAR}" }] with [MISSING_VAR] undefined both throw
    [Missing required environment variable: MISSING_VAR]. *)
Theorem C10_strict_by_default :
  (forall (env : Env) (o : object),
      interpolateEnvVars env o None
      = interpolateEnvVars env o (Some {| strict := true |}))
  /\ interpolateEnvVars Samples.emptyEnv [("key", VStr "${MISSING_VAR}")] None
     = Throw (Error "Missing required environment variable: MISSING_VAR")
  /\ interpolateEnvVars Samples.emptyEnv [("key", VStr "${MISSING_VAR}")]
       (Some {| strict := true |})
     = Throw (Error "Missing required environment variable: MISSING_VAR")
  /\ interpolateEnvVars Samples.emptyEnv [("key", VStr "${MISSING_VAR}")]
       (Some {| strict := false |})
     = Ok [("key", VStr "${MISSING_VAR}")].
Proof. repeat split; reflexivity. Qed.

(** ** The repository's tests, replayed on the embedding *)

Section ConfigTests.
Import Samples.

Example test_merges_repo_json_onto_root_json :
  jsonOfRepos
    (ConfigTs.normalizeConfig testEnv
       (oneRepoTs (Some [("base", VStr "value"); ("override", VStr "original")]) None
          (GitUrl repoUrl)
          (Some [("override", VStr "updated"); ("added", VStr "new")]) None))
  = Ok [[("base", VStr "value"); ("override", VStr "updated"); ("added", VStr "new")]].
Proof. reflexivity. Qed.

Example test_deep_merges_nested_objects :
  jsonOfRepos
    (ConfigTs.normalizeConfig testEnv
       (oneRepoTs (Some [("nested", VObj [("a", VNum 1); ("b", VNum 2)])]) None
          (GitUrl repoUrl)
          (Some [("nested", VObj [("b", VNum 3); ("c", VNum 4)])]) None))
  = Ok [[("nested", VObj [("a", VNum 1); ("b", VNum 3); ("c", VNum 4)])]].
Proof. reflexivity. Qed.

Example test_override_uses_only_repo_json :
  jsonOfRepos
    (ConfigTs.normalizeConfig testEnv
       (oneRepoTs (Some [("base", VStr "value");
                         ("nested", VObj [("key", VStr "nested-value")])]) None
          (GitUrl repoUrl)
          (Some [("only", VStr "repo-value")]) (Some true)))
  = Ok [[("only", VStr "repo-value")]].
Proof. reflexivity. Qed.

Example test_arrays_are_replaced_by_default :
  jsonOfRepos
    (ConfigTs.normalizeConfig testEnv
       (oneRepoTs (Some [("items", VArr [VStr "base1"; VStr "base2"])]) None
          (GitUrl repoUrl)
          (Some [("items", VArr [VStr "override1"])]) None))
  = Ok [[("items", VArr [VStr "override1"])]].
Proof. reflexivity. Qed.

Example test_arrayMerge_append_concatenates :
  jsonOfRepos
    (ConfigTs.normalizeConfig testEnv
       (oneRepoTs (Some [("items", VArr [VStr "base1"; VStr "base2"])]) None
          (GitUrl repoUrl)
          (Some [("items", VDirective DirAppend [VStr "added1"; VStr "added2"])]) None))
  = Ok [[("items", VArr [VStr "base1"; VStr "base2"; VStr "added1"; VStr "added2"])]].
Proof. reflexivity. Qed.

Example test_global_mergeStrategy_affects_all_arrays :
  jsonOfRepos
    (ConfigTs.normalizeConfig testEnv
       (oneRepoTs (Some [("items1", VArr [VStr "a"]); ("items2", VArr [VStr "x"])])
          (Some Append) (GitUrl repoUrl)
          (Some [("items1", VArr [VStr "b"]); ("items2", VArr [VStr "y"])]) None))
  = Ok [[("items1", VArr [VStr "a"; VStr "b"]); ("items2", VArr [VStr "x"; VStr "y"])]].
Proof. reflexivity. Qed.

Example test_git_array_expands :
  gitOfRepos
    (ConfigTs.normalizeConfig testEnv
       (oneRepoTs None None
          (GitUrls ["git@github.com:org/repo1.git"; "git@github.com:org/repo2.git";
                    "git@github.com:org/repo3.git"])
          (Some [("key", VStr "value")]) None))
  = Ok [Some "git@github.com:org/repo1.git"; Some "git@github.com:org/repo2.git";
        Some "git@github.com:org/repo3.git"].
Proof. reflexivity. Qed.

Example test_interpolates_env_vars_in_root_json :
  jsonOfRepos
    (ConfigTs.normalizeConfig testEnv
       (oneRepoTs (Some [("rootValue", VStr "${TEST_VAR}")]) None (GitUrl repoUrl)
          None None))
  = Ok [[("rootValue", VStr "test-value")]].
Proof. reflexivity. Qed.

Example test_throws_on_missing_env_var :
  ConfigTs.normalizeConfig testEnv
    (oneRepoTs None None (GitUrl repoUrl) (Some [("value", VStr "${MISSING_VAR}")]) None)
  = Throw (Error "Missing required environment variable: MISSING_VAR").
Proof. reflexivity. Qed.

Example test_throws_when_repo_json_missing_and_no_root_json :
  ConfigTs.validateRawConfig (oneRepoTs None None (GitUrl repoUrl) None None)
  = Throw (Error "Repo at index 0 missing required field: json (no root-level json defined)").
Proof. reflexivity. Qed.

Example test_override_requires_json_field :
  ConfigTs.validateRawConfig
    (oneRepoTs (Some [("base", VStr "value")]) None
       (GitUrls ["git@github.com:org/repo1.git"; "git@github.com:org/repo2.git"])
       None (Some true))
  = Throw (Error "Repo git@github.com:org/repo1.git has override: true but no json defined").
Proof. reflexivity. Qed.

Example test_throws_when_repos_missing :
  ConfigTs.validateRawConfig
    {| ConfigTs.RawConfig.fileName := Some "config.json";
       ConfigTs.RawConfig.json := None;
       ConfigTs.RawConfig.mergeStrategy := None;
       ConfigTs.RawConfig.repos := None |}
  = Throw (Error "Config missing required field: repos (must be an array)").
Proof. reflexivity. Qed.

End ConfigTests.

Section EnvTests.
Import Samples.

Example test_replaces_multiple_vars_in_one_string :
  interpolateEnvVars testEnv [("key", VStr "${TEST_VAR}-${ANOTHER_VAR}")] None
  = Ok [("key", VStr "test-value-another-value")].
Proof. reflexivity. Qed.

Example test_empty_variable_is_not_missing :
  interpolateEnvVars testEnv [("key", VStr "${EMPTY_VAR:-fallback}")] None
  = Ok [("key", VStr "")].
Proof. reflexivity. Qed.

Example test_complex_default_value :
  interpolateEnvVars testEnv
    [("key", VStr "${MISSING_VAR:-http://example.com:8080/path}")] None
  = Ok [("key", VStr "http://example.com:8080/path")].
Proof. reflexivity. Qed.

Example test_arrays_of_objects :
  interpolateEnvVars testEnv
    [("items", VArr [VObj [("name", VStr "${TEST_VAR}")]; VObj [("name", VStr "static")]])]
    None
  = Ok [("items", VArr [VObj [("name", VStr "test-value")];
                        VObj [("name", VStr "static")]])].
Proof. reflexivity. Qed.

Example test_leaves_non_string_values_unchanged :
  interpolateEnvVars testEnv
    [("number", VNum 42); ("boolean", VBool true); ("nullValue", VNull);
     ("array", VArr [VNum 1; VNum 2; VNum 3])] None
  = Ok [("number", VNum 42); ("boolean", VBool true); ("nullValue", VNull);
        ("array", VArr [VNum 1; VNum 2; VNum 3])].
Proof. reflexivity. Qed.

Example test_preserves_non_variable_dollar_signs :
  interpolateEnvVars testEnv [("key", VStr "price is $100")] None
  = Ok [("key", VStr "price is $100")].
Proof. reflexivity. Qed.

Example test_required_variable_missing :
  interpolateEnvVars testEnv [("key", VStr "${MISSING_VAR:?Variable is required}")] None
  = Throw (Error "MISSING_VAR: Variable is required").
Proof. reflexivity. Qed.

End EnvTests.

(* ===================================================================== *)
(** * Further properties of the code *)
(* ===================================================================== *)

(** ** The order of [Object.keys] *)

Lemma insertIndex_Permutation (n : N) (k : string) (sorted : list (N * string)) :
  Permutation (map snd (insertIndex n k sorted)) (k :: map snd sorted).
Proof.
  induction sorted as [ | [m k'] rest IH ]; simpl.
  - apply Permutation_refl.
  - destruct (n <? m)%N; simpl.
    + apply Permutation_refl.
    + apply perm_trans with (k' :: k :: map snd rest).
      * apply perm_skip. exact IH.
      * apply perm_swap.
Qed.

(** [Object.keys] lists every name once: its result is a rearrangement of
    the names in insertion order. *)
Lemma objectKeys_Permutation {A : Type} (o : list (string * A)) :
  Permutation (objectKeys o) (keys o).
Proof.
  unfold objectKeys. induction (keys o) as [ | k rest IH ]; simpl.
  - apply Permutation_refl.
  - unfold isIndexKey at 1. destruct (arrayIndex k) as [ n | ]; simpl.
    + apply perm_trans with ((k :: map snd (indexKeys rest))
                             ++ filter (fun k => negb (isIndexKey k)) rest)%list.
      * apply Permutation_app_tail. apply insertIndex_Permutation.
      * simpl. apply perm_skip. exact IH.
    + apply Permutation_sym. apply Permutation_cons_app.
      apply Permutation_sym. exact IH.
Qed.

Lemma objectKeys_In {A : Type} (o : list (string * A)) (k : string) :
  In k (objectKeys o) <-> In k (keys o).
Proof.
  split; apply Permutation_in;
    [ | apply Permutation_sym ]; apply objectKeys_Permutation.
Qed.

(** Without array indices among the names, it is the insertion order. *)
Lemma objectKeys_plain {A : Type} (o : list (string * A)) :
  (forall k, In k (keys o) -> isIndexKey k = false) ->
  objectKeys o = keys o.
Proof.
  unfold objectKeys. intros H.
  assert (Hnone : indexKeys (keys o) = []).
  { induction (keys o) as [ | k rest IH ]; simpl; [ reflexivity | ].
    assert (Hk := H k (or_introl eq_refl)). unfold isIndexKey in Hk.
    destruct (arrayIndex k); [ discriminate | ].
    apply IH. intros k' Hin. apply H. right; exact Hin. }
  rewrite Hnone. simpl.
  induction (keys o) as [ | k rest IH ]; simpl; [ reflexivity | ].
  rewrite (H k (or_introl eq_refl)). simpl. f_equal.
  apply IH.
  - intros k' Hin. apply H. right; exact Hin.
  - simpl in Hnone. assert (Hk := H k (or_introl eq_refl)). unfold isIndexKey in Hk.
    destruct (arrayIndex k); [ discriminate | exact Hnone ].
Qed.

(** ** [config-normalizer.ts]: the shape of the output *)

Section NormalizerShape.
Variable env : Env.
Variable raw : Normalizer.RawConfig.t.

Lemma processFile_excluded (rawRepo : Normalizer.RawRepoConfig.t) (fileName : string) :
  Views.isExcluded rawRepo fileName = true ->
  Normalizer.processFile env raw rawRepo fileName = Ok None.
Proof.
  unfold Views.isExcluded, Normalizer.processFile.
  destruct (Normalizer.repoOverrideOf rawRepo fileName) as [ [ | o ] | ];
    [ reflexivity | discriminate | discriminate ].
Qed.

Lemma processFile_result (rawRepo : Normalizer.RawRepoConfig.t) (fileName : string)
      (entry : option Normalizer.FileContent.t) :
  Normalizer.processFile env raw rawRepo fileName = Ok entry ->
  match entry with
  | None => Views.isExcluded rawRepo fileName = true
  | Some file => Views.isExcluded rawRepo fileName = false
                 /\ Normalizer.FileContent.fileName file = fileName
  end.
Proof.
  intros H. destruct entry as [ file | ].
  - destruct (processFile_Some env raw _ _ _ H) as (fc & m & _ & Hname & _).
    split; [ | exact Hname ].
    destruct (Views.isExcluded rawRepo fileName) eqn:E; [ | reflexivity ].
    rewrite (processFile_excluded _ _ E) in H. discriminate.
  - unfold Views.isExcluded. unfold Normalizer.processFile in H.
    destruct (Normalizer.repoOverrideOf rawRepo fileName) as [ [ | o ] | ];
      [ reflexivity | | ];
      destruct (lookup fileName (Normalizer.RawConfig.files raw)); try discriminate;
      apply bind_Ok in H; destruct H as (m & _ & H);
      apply bind_Ok in H; destruct H as (c & _ & H); discriminate.
Qed.

Lemma processFiles_names (rawRepo : Normalizer.RawRepoConfig.t) (fileNames : list string)
      (files : list Normalizer.FileContent.t) :
  Normalizer.processFiles env raw rawRepo fileNames = Ok files ->
  map Normalizer.FileContent.fileName files
  = filter (fun fileName => negb (Views.isExcluded rawRepo fileName)) fileNames.
Proof.
  revert files; induction fileNames as [ | fileName rest IH ]; simpl; intros files H.
  - inversion H; reflexivity.
  - apply bind_Ok in H; destruct H as (entry & Hentry & H).
    apply bind_Ok in H; destruct H as (more & Hmore & H).
    inversion H; subst; clear H.
    apply processFile_result in Hentry. destruct entry as [ file | ].
    + destruct Hentry as (-> & Hname). simpl. rewrite Hname, (IH more Hmore). reflexivity.
    + rewrite Hentry. simpl. apply IH; exact Hmore.
Qed.

Lemma processFiles_throws (rawRepo : Normalizer.RawRepoConfig.t) (fileNames : list string) :
  isOk (Normalizer.processFiles env raw rawRepo fileNames) = false
  <-> exists fileName,
      In fileName fileNames
      /\ isOk (Normalizer.processFile env raw rawRepo fileName) = false.
Proof.
  induction fileNames as [ | fileName rest IH ]; simpl.
  - split; [ discriminate | intros (n & [] & _) ].
  - destruct (Normalizer.processFile env raw rawRepo fileName) as [ entry | e ] eqn:Hentry;
      simpl.
    + destruct (Normalizer.processFiles env raw rawRepo rest) as [ more | e ]; simpl in *.
      * split; [ discriminate | ].
        intros (n & [ <- | Hin ] & Hn).
        -- rewrite Hentry in Hn; discriminate.
        -- apply IH; exists n; auto.
      * split; [ | reflexivity ].
        intros _. destruct (proj1 IH eq_refl) as (n & Hin & Hn). exists n; auto.
    + split; [ | reflexivity ].
      intros _. exists fileName. rewrite Hentry. auto.
Qed.

Lemma expandUrls_shape (rawRepo : Normalizer.RawRepoConfig.t) (urls : list string)
      (out : list Normalizer.RepoConfig.t) :
  Normalizer.expandUrls env raw rawRepo urls = Ok out ->
  exists files,
    out = map (fun gitUrl => {| Normalizer.RepoConfig.git := gitUrl;
                                Normalizer.RepoConfig.files := files |}) urls.
Proof.
  revert out; induction urls as [ | url rest IH ]; simpl; intros out H.
  - inversion H. exists []; reflexivity.
  - apply bind_Ok in H; destruct H as (files & Hfiles & H).
    apply bind_Ok in H; destruct H as (more & Hmore & H).
    inversion H; subst; clear H.
    exists files. f_equal.
    destruct rest as [ | next rest ].
    + inversion Hmore; reflexivity.
    + destruct (IH more Hmore) as (files' & ->).
      simpl in Hmore. rewrite Hfiles in Hmore. simpl in Hmore.
      apply bind_Ok in Hmore; destruct Hmore as (more' & _ & Hmore).
      inversion Hmore; subst. reflexivity.
Qed.

Lemma expandUrls_throws (rawRepo : Normalizer.RawRepoConfig.t) (urls : list string) :
  isOk (Normalizer.expandUrls env raw rawRepo urls) = false
  <-> urls <> []
      /\ isOk (Normalizer.processFiles env raw rawRepo
                 (objectKeys (Normalizer.RawConfig.files raw))) = false.
Proof.
  induction urls as [ | url rest IH ]; simpl.
  - split; [ discriminate | intros (H & _); contradiction ].
  - destruct (Normalizer.processFiles env raw rawRepo _) as [ files | e ]; simpl.
    + destruct (Normalizer.expandUrls env raw rawRepo rest) as [ more | e ]; simpl in *.
      * split; [ discriminate | intros (_ & H); discriminate ].
      * split; [ | reflexivity ]. intros _.
        destruct (proj1 IH eq_refl) as (_ & H). discriminate.
    + split; [ | reflexivity ]. intros _. split; [ discriminate | reflexivity ].
Qed.

Lemma expandRepos_shape (rawRepos : list Normalizer.RawRepoConfig.t)
      (out : list Normalizer.RepoConfig.t) :
  Normalizer.expandRepos env raw rawRepos = Ok out ->
  exists perRepo,
    length perRepo = length rawRepos
    /\ out = flat_map (fun p => Views.expansion (fst p) (snd p))
                      (combine rawRepos perRepo).
Proof.
  revert out; induction rawRepos as [ | rawRepo rest IH ]; simpl; intros out H.
  - inversion H. exists []; auto.
  - apply bind_Ok in H; destruct H as (expanded & Hexp & H).
    apply bind_Ok in H; destruct H as (more & Hmore & H).
    inversion H; subst; clear H.
    destruct (expandUrls_shape _ _ _ Hexp) as (files & ->).
    destruct (IH more Hmore) as (perRepo & Hlen & ->).
    exists (files :: perRepo). split; [ simpl; rewrite Hlen; reflexivity | reflexivity ].
Qed.

Lemma expandRepos_throws (rawRepos : list Normalizer.RawRepoConfig.t) :
  isOk (Normalizer.expandRepos env raw rawRepos) = false
  <-> exists rawRepo,
      In rawRepo rawRepos
      /\ Normalizer.gitUrls (Normalizer.RawRepoConfig.git rawRepo) <> []
      /\ isOk (Normalizer.processFiles env raw rawRepo
                 (objectKeys (Normalizer.RawConfig.files raw))) = false.
Proof.
  induction rawRepos as [ | rawRepo rest IH ]; simpl.
  - split; [ discriminate | intros (r & [] & _) ].
  - destruct (Normalizer.expandUrls env raw rawRepo _) as [ expanded | e ] eqn:Hexp; simpl.
    + assert (Hfine : ~ (Normalizer.gitUrls (Normalizer.RawRepoConfig.git rawRepo) <> []
                         /\ isOk (Normalizer.processFiles env raw rawRepo
                                    (objectKeys (Normalizer.RawConfig.files raw))) = false)).
      { intros Hbad. apply expandUrls_throws in Hbad. rewrite Hexp in Hbad. discriminate. }
      destruct (Normalizer.expandRepos env raw rest) as [ more | e ]; simpl in *.
      * split; [ discriminate | ].
        intros (r & [ <- | Hin ] & Hurls & Hfail).
        -- exfalso; apply Hfine; auto.
        -- apply IH. exists r; auto.
      * split; [ | reflexivity ]. intros _.
        destruct (proj1 IH eq_refl) as (r & Hin & Hrest). exists r; auto.
    + split; [ | reflexivity ]. intros _.
      assert (Hbad : isOk (Normalizer.expandUrls env raw rawRepo
                             (Normalizer.gitUrls (Normalizer.RawRepoConfig.git rawRepo)))
                     = false) by (rewrite Hexp; reflexivity).
      apply expandUrls_throws in Hbad. destruct Hbad as (Hurls & Hfail).
      exists rawRepo; auto.
Qed.

End NormalizerShape.

(** X1: when the multi-file [normalizeConfig] succeeds, the output has
    one entry per URL of every raw repo, in document order, and the
    entries expanded from one raw repo carry the same list of files. *)
Theorem X1_normalizer_expansion
        (env : Env) (raw : Normalizer.RawConfig.t) (config : Normalizer.Config.t) :
  Normalizer.normalizeConfig env raw = Ok config ->
  (exists perRepo,
      length perRepo = length (Normalizer.RawConfig.repos raw)
      /\ Normalizer.Config.repos config
         = flat_map (fun p => Views.expansion (fst p) (snd p))
                    (combine (Normalizer.RawConfig.repos raw) perRepo))
  /\ map Normalizer.RepoConfig.git (Normalizer.Config.repos config)
     = flat_map (fun rawRepo => Normalizer.gitUrls (Normalizer.RawRepoConfig.git rawRepo))
                (Normalizer.RawConfig.repos raw).
Proof.
  unfold Normalizer.normalizeConfig. intros H.
  apply bind_Ok in H; destruct H as (out & Hout & H); inversion H; subst; clear H. simpl.
  destruct (expandRepos_shape env raw _ _ Hout) as (perRepo & Hlen & ->).
  split; [ exists perRepo; auto | ].
  clear Hout. revert perRepo Hlen.
  induction (Normalizer.RawConfig.repos raw) as [ | rawRepo rest IH ];
    intros [ | files perRepo ] Hlen; simpl in *; try discriminate; [ reflexivity | ].
  rewrite map_app, (IH perRepo) by (inversion Hlen; reflexivity).
  f_equal. unfold Views.expansion. rewrite map_map. simpl. apply map_id.
Qed.

Lemma X1_normalizer_expansion_witness :
  exists config,
    Normalizer.normalizeConfig Samples.emptyEnv Views.twoFilesExcluded = Ok config
    /\ map Normalizer.RepoConfig.git (Normalizer.Config.repos config)
       = ["git@github.com:org/repo1.git"; "git@github.com:org/repo2.git";
          "git@github.com:org/repo3.git"].
Proof.
  eexists. split; [ reflexivity | ].
  exact (proj2 (X1_normalizer_expansion Samples.emptyEnv Views.twoFilesExcluded _ eq_refl)).
Defined.

(** X2: the files of the entries expanded from a raw repo that has a
    URL are the declared file names the raw repo does not set to [false],
    in the order [Object.keys] lists them: the names that are array
    indices first, by ascending value, then the others in the order of
    declaration, which is the whole order when no declared name is an
    array index; with distinct declared names no entry holds two files of
    the same name. *)
Theorem X2_normalizer_file_names
        (env : Env) (raw : Normalizer.RawConfig.t) (config : Normalizer.Config.t) :
  Normalizer.normalizeConfig env raw = Ok config ->
  (exists perRepo,
      length perRepo = length (Normalizer.RawConfig.repos raw)
      /\ Normalizer.Config.repos config
         = flat_map (fun p => Views.expansion (fst p) (snd p))
                    (combine (Normalizer.RawConfig.repos raw) perRepo)
      /\ forall rawRepo files,
           In (rawRepo, files) (combine (Normalizer.RawConfig.repos raw) perRepo) ->
           Normalizer.gitUrls (Normalizer.RawRepoConfig.git rawRepo) <> [] ->
           map Normalizer.FileContent.fileName files
           = filter (fun fileName => negb (Views.isExcluded rawRepo fileName))
               (map snd (indexKeys (keys (Normalizer.RawConfig.files raw)))
                ++ filter (fun fileName => negb (isIndexKey fileName))
                     (keys (Normalizer.RawConfig.files raw)))%list)
  /\ ((forall fileName,
          In fileName (keys (Normalizer.RawConfig.files raw)) ->
          isIndexKey fileName = false) ->
      forall repo,
        In repo (Normalizer.Config.repos config) ->
        exists rawRepo,
          In rawRepo (Normalizer.RawConfig.repos raw)
          /\ In (Normalizer.RepoConfig.git repo)
                (Normalizer.gitUrls (Normalizer.RawRepoConfig.git rawRepo))
          /\ map Normalizer.FileContent.fileName (Normalizer.RepoConfig.files repo)
             = filter (fun fileName => negb (Views.isExcluded rawRepo fileName))
                      (keys (Normalizer.RawConfig.files raw)))
  /\ (NoDup (keys (Normalizer.RawConfig.files raw)) ->
      forall repo,
        In repo (Normalizer.Config.repos config) ->
        NoDup (map Normalizer.FileContent.fileName (Normalizer.RepoConfig.files repo))).
Proof.
  unfold Normalizer.normalizeConfig. intros H.
  apply bind_Ok in H; destruct H as (out & Hout & H); inversion H; subst; clear H.
  simpl. split; [ | split ].
  - destruct (expandRepos_files env raw _ _ Hout) as (perRepo & Hlen & -> & Hall).
    exists perRepo. split; [ exact Hlen | ]. split; [ reflexivity | ].
    intros rawRepo files Hpair Hurls.
    destruct (Hall rawRepo files Hpair) as (Hfiles & _).
    apply (processFiles_names env raw _ _ _ (Hfiles Hurls)).
  - intros Hplain repo Hrepo.
    destruct (expandRepos_In env raw _ _ Hout repo Hrepo) as (rawRepo & Hraw & Hgit & Hfiles).
    apply processFiles_names in Hfiles. rewrite (objectKeys_plain _ Hplain) in Hfiles.
    exists rawRepo; auto.
  - intros Hnodup repo Hrepo.
    destruct (expandRepos_In env raw _ _ Hout repo Hrepo) as (rawRepo & _ & _ & Hfiles).
    apply processFiles_names in Hfiles. rewrite Hfiles. apply NoDup_filter.
    apply (Permutation_NoDup (Permutation_sym (objectKeys_Permutation _))).
    exact Hnodup.
Qed.

Lemma X2_normalizer_file_names_witness :
  exists config,
    Normalizer.normalizeConfig Samples.emptyEnv Views.numberedFiles = Ok config
    /\ map (fun repo => map Normalizer.FileContent.fileName (Normalizer.RepoConfig.files repo))
           (Normalizer.Config.repos config)
       = [["2"; "10"; "b.json"]]
    /\ forall repo,
         In repo (Normalizer.Config.repos config) ->
         map Normalizer.FileContent.fileName (Normalizer.RepoConfig.files repo)
         = ["2"; "10"; "b.json"]
         /\ NoDup (map Normalizer.FileContent.fileName (Normalizer.RepoConfig.files repo)).
Proof.
  eexists. split; [ reflexivity | ]. split; [ reflexivity | ].
  intros repo Hrepo.
  destruct (X2_normalizer_file_names Samples.emptyEnv Views.numberedFiles _ eq_refl)
    as ((perRepo & Hlen & Hrepos & Hall) & _ & Hnodup).
  split.
  - destruct perRepo as [ | files [ | more perRepo ] ]; try discriminate.
    assert (Hnames := Hall Samples.plainRepo files (or_introl eq_refl)
                        ltac:(discriminate)).
    simpl in Hrepos. inversion Hrepos; subst files.
    destruct Hrepo as [ <- | [] ]. exact Hnames.
  - apply Hnodup; [ | exact Hrepo ].
    repeat constructor; simpl; intuition discriminate.
Defined.

(** X3: the multi-file [normalizeConfig] throws exactly when the loop
    body throws for some raw repo with at least one URL and some declared
    file; a raw repo with an empty [git] array, or one that sets the file
    to [false], never makes it throw. *)
Theorem X3_normalizer_failure (env : Env) (raw : Normalizer.RawConfig.t) :
  (isOk (Normalizer.normalizeConfig env raw) = false
   <-> exists rawRepo fileName,
       In rawRepo (Normalizer.RawConfig.repos raw)
       /\ Normalizer.gitUrls (Normalizer.RawRepoConfig.git rawRepo) <> []
       /\ In fileName (keys (Normalizer.RawConfig.files raw))
       /\ isOk (Normalizer.processFile env raw rawRepo fileName) = false)
  /\ (forall rawRepo fileName,
         Views.isExcluded rawRepo fileName = true ->
         isOk (Normalizer.processFile env raw rawRepo fileName) = true).
Proof.
  split.
  - unfold Normalizer.normalizeConfig.
    destruct (Normalizer.expandRepos env raw (Normalizer.RawConfig.repos raw))
      as [ out | e ] eqn:Hout; simpl.
    + split; [ discriminate | ].
      intros (rawRepo & fileName & Hin & Hurls & Hname & Hfail).
      assert (Hbad : isOk (Normalizer.expandRepos env raw (Normalizer.RawConfig.repos raw))
                     = false).
      { apply expandRepos_throws. exists rawRepo. repeat split; auto.
        apply processFiles_throws. exists fileName. split; [ | exact Hfail ].
        apply objectKeys_In. exact Hname. }
      rewrite Hout in Hbad. discriminate.
    + split; [ | reflexivity ]. intros _.
      assert (Hbad : isOk (Normalizer.expandRepos env raw (Normalizer.RawConfig.repos raw))
                     = false) by (rewrite Hout; reflexivity).
      apply expandRepos_throws in Hbad. destruct Hbad as (rawRepo & Hin & Hurls & Hfail).
      apply processFiles_throws in Hfail. destruct Hfail as (fileName & Hname & Hfail).
      apply objectKeys_In in Hname.
      exists rawRepo, fileName; auto.
  - intros rawRepo fileName Hex. rewrite (processFile_excluded env raw _ _ Hex). reflexivity.
Qed.

Lemma X3_normalizer_failure_witness :
  isOk (Normalizer.normalizeConfig Samples.emptyEnv Views.twoFiles) = false
  /\ isOk (Normalizer.normalizeConfig Samples.emptyEnv Views.twoFilesExcluded) = true.
Proof.
  split.
  - apply (proj1 (X3_normalizer_failure Samples.emptyEnv Views.twoFiles)).
    exists Samples.plainRepo, "b.json".
    split; [ right; left; reflexivity | ].
    split; [ discriminate | ].
    split; [ right; left; reflexivity | reflexivity ].
  - reflexivity.
Defined.

(** ** [config.ts]: what validation accepts and which error it reports *)

Section ValidationOutcome.
Variable hasRootJson : bool.

Lemma validateRepo_passes (i : nat) (repo : ConfigTs.RawRepoConfig.t) :
  ConfigTs.validateRepo hasRootJson i repo = Ok tt
  <-> Views.repoPasses hasRootJson repo = true.
Proof.
  unfold ConfigTs.validateRepo, Views.repoPasses, ConfigTs.lacksGit.
  destruct (ConfigTs.RawRepoConfig.git repo) as [ git | ]; simpl.
  - destruct (truthyGit git); simpl; [ | split; discriminate ].
    destruct hasRootJson, (isSome (ConfigTs.RawRepoConfig.json repo)),
      (truthyFlag (ConfigTs.RawRepoConfig.override repo)); simpl;
      split; intros H; try reflexivity; try discriminate.
  - split; discriminate.
Qed.

Lemma validateRepo_unit (i : nat) (repo : ConfigTs.RawRepoConfig.t) (u : unit) :
  ConfigTs.validateRepo hasRootJson i repo = Ok u ->
  ConfigTs.validateRepo hasRootJson i repo = Ok tt.
Proof. destruct u; auto. Qed.

Lemma validateRepos_passes (start : nat) (repos : list ConfigTs.RawRepoConfig.t) :
  ConfigTs.validateRepos hasRootJson start repos = Ok tt
  <-> forallb (Views.repoPasses hasRootJson) repos = true.
Proof.
  revert start; induction repos as [ | repo rest IH ]; simpl; intros start.
  - split; reflexivity.
  - destruct (ConfigTs.validateRepo hasRootJson start repo) as [ [] | e ] eqn:Hrepo; simpl.
    + apply validateRepo_passes in Hrepo. rewrite Hrepo. simpl. apply IH.
    + split; [ discriminate | ].
      intros H. apply andb_prop in H. destruct H as (Hpass & _).
      apply (validateRepo_passes start) in Hpass. congruence.
Qed.

Lemma validateRepos_first_failure
      (start i : nat) (repos : list ConfigTs.RawRepoConfig.t)
      (repo : ConfigTs.RawRepoConfig.t) :
  nth_error repos i = Some repo ->
  Views.repoPasses hasRootJson repo = false ->
  (forall j earlier,
      j < i -> nth_error repos j = Some earlier ->
      Views.repoPasses hasRootJson earlier = true) ->
  ConfigTs.validateRepos hasRootJson start repos
  = ConfigTs.validateRepo hasRootJson (start + i) repo.
Proof.
  revert start i; induction repos as [ | first rest IH ]; intros start i Hnth Hfails Hbefore.
  - destruct i; discriminate.
  - destruct i as [ | i ]; simpl in *.
    + inversion Hnth; subst first. rewrite Nat.add_0_r.
      destruct (ConfigTs.validateRepo hasRootJson start repo) as [ [] | e ] eqn:Hrepo;
        [ | reflexivity ].
      apply validateRepo_passes in Hrepo. congruence.
    + assert (H0 := Hbefore 0 first (Nat.lt_0_succ i) eq_refl).
      apply (validateRepo_passes start) in H0. rewrite H0. simpl.
      rewrite (IH (S start) i Hnth Hfails).
      * rewrite Nat.add_succ_r. reflexivity.
      * intros j earlier Hj Hearlier.
        apply (Hbefore (S j) earlier); [ lia | exact Hearlier ].
Qed.

End ValidationOutcome.

(** X4: [validateRawConfig] accepts a document exactly when [fileName] is
    a non-empty string, [repos] is an array, and every repo has a truthy
    [git], a [json] of its own unless the root has one, and a [json] of
    its own whenever it sets [override]. *)
Theorem X4_validation_accepts (config : ConfigTs.RawConfig.t) :
  ConfigTs.validateRawConfig config = Ok tt
  <-> exists name repos,
      ConfigTs.RawConfig.fileName config = Some name
      /\ truthyString name = true
      /\ ConfigTs.RawConfig.repos config = Some repos
      /\ forall repo, In repo repos ->
           ConfigTs.lacksGit repo = false
           /\ (ConfigTs.RawConfig.json config = None ->
               ConfigTs.RawRepoConfig.json repo <> None)
           /\ (ConfigTs.RawRepoConfig.override repo = Some true ->
               ConfigTs.RawRepoConfig.json repo <> None).
Proof.
  unfold ConfigTs.validateRawConfig. split.
  - destruct (ConfigTs.RawConfig.fileName config) as [ name | ]; [ | discriminate ].
    destruct (truthyString name) eqn:Hname; [ simpl | discriminate ].
    destruct (ConfigTs.RawConfig.repos config) as [ repos | ]; [ | discriminate ].
    intros H. exists name, repos.
    split; [ reflexivity | ]. split; [ exact Hname | ]. split; [ reflexivity | ].
    intros repo Hin.
    apply validateRepos_passes in H. rewrite forallb_forall in H.
    apply H in Hin. unfold Views.repoPasses in Hin.
    destruct (ConfigTs.lacksGit repo); [ discriminate | ]. simpl in Hin.
    split; [ reflexivity | ]. split.
    + intros Hroot Hjson. rewrite Hroot, Hjson in Hin. discriminate.
    + intros Hoverride Hjson. rewrite Hoverride, Hjson in Hin. simpl in Hin.
      rewrite andb_false_r in Hin. discriminate.
  - intros (name & repos & -> & -> & -> & Hall). simpl.
    apply validateRepos_passes. apply forallb_forall. intros repo Hin.
    destruct (Hall repo Hin) as (Hgit & Hroot & Hoverride).
    unfold Views.repoPasses. rewrite Hgit. simpl.
    destruct (ConfigTs.RawRepoConfig.json repo) as [ json | ] eqn:Hjson; simpl.
    + rewrite !orb_true_r. reflexivity.
    + destruct (ConfigTs.RawConfig.json config) as [ root | ] eqn:Hrootjson; simpl.
      * destruct (ConfigTs.RawRepoConfig.override repo) as [ [ | ] | ] eqn:Ho;
          simpl; try reflexivity.
        exfalso. apply Hoverride; reflexivity.
      * exfalso. apply Hroot; reflexivity.
Qed.

Lemma X4_validation_accepts_witness :
  ConfigTs.validateRawConfig (Samples.named "sub/dir/my.config.json") = Ok tt.
Proof.
  apply (proj2 (X4_validation_accepts (Samples.named "sub/dir/my.config.json"))).
  exists "sub/dir/my.config.json", [Samples.repoTs (Some (GitUrl Samples.repoUrl))].
  split; [ reflexivity | ]. split; [ reflexivity | ]. split; [ reflexivity | ].
  intros repo [ <- | [] ].
  split; [ reflexivity | ]. split; discriminate.
Defined.

(** X5: the error of [validateRawConfig] follows a fixed precedence: a
    missing or empty [fileName] first, whatever the rest; then [repos]
    not being an array; then the checks of the first repo that fails one,
    and within that repo the missing [git] before the missing [json]
    before the override without [json]. *)
Theorem X5_validation_error_precedence (config : ConfigTs.RawConfig.t) :
  (match ConfigTs.RawConfig.fileName config with
   | Some name => truthyString name = false
   | None => True
   end ->
   ConfigTs.validateRawConfig config
   = Throw (Error "Config missing required field: fileName"))
  /\ (forall name,
         ConfigTs.RawConfig.fileName config = Some name ->
         truthyString name = true ->
         ConfigTs.RawConfig.repos config = None ->
         ConfigTs.validateRawConfig config
         = Throw (Error "Config missing required field: repos (must be an array)"))
  /\ (forall name repos i repo,
         ConfigTs.RawConfig.fileName config = Some name ->
         truthyString name = true ->
         ConfigTs.RawConfig.repos config = Some repos ->
         nth_error repos i = Some repo ->
         Views.repoPasses (isSome (ConfigTs.RawConfig.json config)) repo = false ->
         (forall j earlier,
             j < i -> nth_error repos j = Some earlier ->
             Views.repoPasses (isSome (ConfigTs.RawConfig.json config)) earlier = true) ->
         ConfigTs.validateRawConfig config
         = Throw
             match ConfigTs.RawRepoConfig.git repo with
             | None => ConfigTs.missingGit i
             | Some git =>
                 if negb (truthyGit git) then ConfigTs.missingGit i
                 else if negb (isSome (ConfigTs.RawConfig.json config))
                         && negb (isSome (ConfigTs.RawRepoConfig.json repo))
                 then ConfigTs.missingJson i
                 else ConfigTs.overrideWithoutJson git
             end).
Proof.
  unfold ConfigTs.validateRawConfig. split; [ | split ].
  - destruct (ConfigTs.RawConfig.fileName config) as [ name | ]; [ | reflexivity ].
    intros ->. reflexivity.
  - intros name -> -> ->. reflexivity.
  - intros name repos i repo -> -> -> Hnth Hfails Hbefore. simpl.
    rewrite (validateRepos_first_failure _ 0 i repos repo Hnth Hfails Hbefore). simpl.
    unfold Views.repoPasses, ConfigTs.lacksGit in Hfails.
    unfold ConfigTs.validateRepo.
    destruct (ConfigTs.RawRepoConfig.git repo) as [ git | ]; [ | reflexivity ].
    destruct (truthyGit git); simpl in *; [ | reflexivity ].
    destruct (isSome (ConfigTs.RawConfig.json config)),
      (isSome (ConfigTs.RawRepoConfig.json repo)),
      (truthyFlag (ConfigTs.RawRepoConfig.override repo)); simpl in *;
      try reflexivity; discriminate.
Qed.

Lemma X5_validation_error_precedence_witness :
  ConfigTs.validateRawConfig
    {| ConfigTs.RawConfig.fileName := Some "";
       ConfigTs.RawConfig.json := None;
       ConfigTs.RawConfig.mergeStrategy := None;
       ConfigTs.RawConfig.repos := None |}
  = Throw (Error "Config missing required field: fileName")
  /\ ConfigTs.validateRawConfig
       (Samples.configTs "config.json"
          [Samples.repoTs (Some (GitUrl Samples.repoUrl));
           {| ConfigTs.RawRepoConfig.git := Some (GitUrls []);
              ConfigTs.RawRepoConfig.json := None;
              ConfigTs.RawRepoConfig.override := Some true |};
           Samples.repoTs None])
     = Throw (Error "Repo unknown has override: true but no json defined").
Proof.
  split.
  - apply (proj1 (X5_validation_error_precedence _)). reflexivity.
  - set (second := {| ConfigTs.RawRepoConfig.git := Some (GitUrls []);
                      ConfigTs.RawRepoConfig.json := None;
                      ConfigTs.RawRepoConfig.override := Some true |}).
    set (repos := [Samples.repoTs (Some (GitUrl Samples.repoUrl)); second;
                   Samples.repoTs None]).
    assert (Hbefore : forall j earlier,
               j < 1 -> nth_error repos j = Some earlier ->
               Views.repoPasses true earlier = true).
    { intros j earlier Hj Hnth.
      destruct j as [ | j ]; [ inversion Hnth; reflexivity | lia ]. }
    exact (proj2 (proj2 (X5_validation_error_precedence
                           (Samples.configTs "config.json" repos)))
             "config.json" repos 1 second eq_refl eq_refl eq_refl eq_refl eq_refl
             Hbefore).
Defined.

(** ** [config.ts]: validation and normalization together *)

Section ConfigTsShape.
Variable env : Env.
Variable baseJson : object.
Variable defaultStrategy : ArrayMergeStrategy.

Lemma configTs_expandUrls_shape (rawRepo : ConfigTs.RawRepoConfig.t)
      (urls : list (option string)) (out : list ConfigTs.RepoConfig.t) :
  ConfigTs.expandUrls env baseJson defaultStrategy rawRepo urls = Ok out ->
  exists json,
    out = map (fun gitUrl => {| ConfigTs.RepoConfig.git := gitUrl;
                                ConfigTs.RepoConfig.json := json |}) urls.
Proof.
  revert out; induction urls as [ | url rest IH ]; simpl; intros out H.
  - inversion H. exists []; reflexivity.
  - apply bind_Ok in H; destruct H as (json & Hjson & H).
    apply bind_Ok in H; destruct H as (more & Hmore & H).
    inversion H; subst; clear H.
    exists json. f_equal.
    destruct rest as [ | next rest ].
    + inversion Hmore; reflexivity.
    + destruct (IH more Hmore) as (json' & ->).
      simpl in Hmore. rewrite Hjson in Hmore. simpl in Hmore.
      apply bind_Ok in Hmore; destruct Hmore as (more' & _ & Hmore).
      inversion Hmore; subst. reflexivity.
Qed.

Lemma configTs_expandRepos_shape (rawRepos : list ConfigTs.RawRepoConfig.t)
      (out : list ConfigTs.RepoConfig.t) :
  ConfigTs.expandRepos env baseJson defaultStrategy rawRepos = Ok out ->
  exists perRepo,
    length perRepo = length rawRepos
    /\ out = flat_map (fun p => Views.expansionTs (fst p) (snd p))
                      (combine rawRepos perRepo).
Proof.
  revert out; induction rawRepos as [ | rawRepo rest IH ]; simpl; intros out H.
  - inversion H. exists []; auto.
  - apply bind_Ok in H; destruct H as (expanded & Hexp & H).
    apply bind_Ok in H; destruct H as (more & Hmore & H).
    inversion H; subst; clear H.
    destruct (configTs_expandUrls_shape _ _ _ Hexp) as (json & ->).
    destruct (IH more Hmore) as (perRepo & Hlen & ->).
    exists (json :: perRepo). split; [ simpl; rewrite Hlen; reflexivity | reflexivity ].
Qed.




End ConfigTsShape.



(** X7: when the one-file [normalizeConfig] of [config.ts] succeeds, the
    output keeps [fileName], has one entry per URL of every raw repo in
    document order, and the entries expanded from one raw repo carry the
    same JSON. *)
Theorem X7_configTs_expansion
        (env : Env) (raw : ConfigTs.RawConfig.t) (config : ConfigTs.Config.t) :
  ConfigTs.normalizeConfig env raw = Ok config ->
  ConfigTs.Config.fileName config = ConfigTs.RawConfig.fileName raw
  /\ exists rawRepos perRepo,
      ConfigTs.RawConfig.repos raw = Some rawRepos
      /\ length perRepo = length rawRepos
      /\ ConfigTs.Config.repos config
         = flat_map (fun p => Views.expansionTs (fst p) (snd p))
                    (combine rawRepos perRepo)
      /\ map ConfigTs.RepoConfig.git (ConfigTs.Config.repos config)
         = flat_map (fun rawRepo => ConfigTs.gitUrls (ConfigTs.RawRepoConfig.git rawRepo))
                    rawRepos.
Proof.
  unfold ConfigTs.normalizeConfig. intros H.
  destruct (ConfigTs.RawConfig.repos raw) as [ rawRepos | ]; [ | discriminate ].
  apply bind_Ok in H; destruct H as (out & Hout & H); inversion H; subst; clear H.
  simpl. split; [ reflexivity | ].
  destruct (configTs_expandRepos_shape _ _ _ _ _ Hout) as (perRepo & Hlen & ->).
  exists rawRepos, perRepo. repeat split; auto.
  clear Hout. revert perRepo Hlen.
  induction rawRepos as [ | rawRepo rest IH ];
    intros [ | json perRepo ] Hlen; simpl in *; try discriminate; [ reflexivity | ].
  rewrite map_app, (IH perRepo) by (inversion Hlen; reflexivity).
  f_equal. unfold Views.expansionTs. rewrite map_map. simpl. apply map_id.
Qed.

Lemma X7_configTs_expansion_witness :
  exists config,
    ConfigTs.normalizeConfig Samples.testEnv
      (Samples.oneRepoTs None None
         (GitUrls ["git@github.com:org/repo1.git"; "git@github.com:org/repo2.git"])
         (Some [("shared", VStr "value")]) None)
    = Ok config
    /\ ConfigTs.Config.fileName config = Some "config.json"
    /\ map ConfigTs.RepoConfig.git (ConfigTs.Config.repos config)
       = [Some "git@github.com:org/repo1.git"; Some "git@github.com:org/repo2.git"].
Proof.
  eexists. split; [ reflexivity | ].
  destruct (X7_configTs_expansion Samples.testEnv
              (Samples.oneRepoTs None None
                 (GitUrls ["git@github.com:org/repo1.git";
                           "git@github.com:org/repo2.git"])
                 (Some [("shared", VStr "value")]) None)
              _ eq_refl)
    as (Hname & rawRepos & perRepo & Hraw & _ & _ & Hgits).
  split; [ exact Hname | ].
  inversion Hraw; subst rawRepos. exact Hgits.
Defined.

(** X8: for every [git] field that passes [!repo.git], the name
    [getGitDisplayName] puts into the error message is not empty: the URL
    itself for a string, the first URL of an array when that URL is not
    empty, and [unknown] for an array that is empty or starts with an
    empty URL. *)
Theorem X8_display_name_not_empty (git : GitField) :
  truthyGit git = true ->
  ConfigTs.getGitDisplayName git <> ""
  /\ match git with
     | GitUrl url => ConfigTs.getGitDisplayName git = url
     | GitUrls [] => ConfigTs.getGitDisplayName git = "unknown"
     | GitUrls (first :: _) =>
         ConfigTs.getGitDisplayName git = if truthyString first then first else "unknown"
     end.
Proof.
  destruct git as [ url | [ | first rest ] ]; simpl; intros H.
  - split; [ | reflexivity ]. destruct url; [ discriminate | discriminate ].
  - split; [ discriminate | reflexivity ].
  - split; [ | reflexivity ].
    destruct first; simpl; discriminate.
Qed.

Lemma X8_display_name_not_empty_witness :
  ConfigTs.getGitDisplayName (GitUrls [""; "git@github.com:org/repo2.git"]) = "unknown".
Proof.
  exact (proj2 (X8_display_name_not_empty
                  (GitUrls [""; "git@github.com:org/repo2.git"]) eq_refl)).
Defined.

(** ** [repo-detector.ts]: matching *)

Import Regex.

Lemma allChars_app (p : ascii -> bool) (a b : string) :
  allChars p (a ++ b) = allChars p a && allChars p b.
Proof.
  induction a as [ | c a IH ]; simpl; [ reflexivity | ].
  rewrite IH, andb_assoc. reflexivity.
Qed.

Lemma dropPrefix_app (l s : string) : dropPrefix l (l ++ s) = Some s.
Proof.
  induction l as [ | c l IH ]; simpl; [ reflexivity | ].
  rewrite Ascii.eqb_refl. exact IH.
Qed.

Lemma dropPrefix_Some (l s rest : string) :
  dropPrefix l s = Some rest -> s = (l ++ rest)%string.
Proof.
  revert s; induction l as [ | c l IH ]; simpl; intros s H.
  - inversion H; reflexivity.
  - destruct s as [ | d s ]; [ discriminate | ].
    destruct (Ascii.eqb c d) eqn:E; [ | discriminate ].
    apply Ascii.eqb_eq in E; subst d. rewrite (IH s H). reflexivity.
Qed.

Section Matching.
Context {R : Type}.

Lemma lit_app (l : string) (k : Matcher R) (s : string) : lit l k (l ++ s) = k s.
Proof. unfold lit. rewrite dropPrefix_app. reflexivity. Qed.

Lemma lit_Some (l : string) (k : Matcher R) (s : string) (r : R) :
  lit l k s = Some r -> exists rest, s = (l ++ rest)%string /\ k rest = Some r.
Proof.
  unfold lit. destruct (dropPrefix l s) as [ rest | ] eqn:E; [ | discriminate ].
  intros H. exists rest. split; [ apply dropPrefix_Some; exact E | exact H ].
Qed.

Lemma opt_Some (l : string) (k : Matcher R) (s : string) (r : R) :
  opt l k s = Some r ->
  (exists rest, s = (l ++ rest)%string /\ k rest = Some r) \/ k s = Some r.
Proof.
  unfold opt. destruct (lit l k s) as [ r' | ] eqn:E.
  - intros H; inversion H; subst. left. apply lit_Some; exact E.
  - intros H. right; exact H.
Qed.

Lemma plusGreedy_Some (p : ascii -> bool) (s : string) (k : string -> Matcher R) (r : R) :
  plusGreedy p s k = Some r ->
  exists captured rest,
    s = (captured ++ rest)%string /\ captured <> ""
    /\ allChars p captured = true /\ k captured rest = Some r.
Proof.
  revert k; induction s as [ | c s IH ]; simpl; intros k H; [ discriminate | ].
  destruct (p c) eqn:Hc; [ | discriminate ].
  destruct (plusGreedy p s (fun captured => k (String c captured))) as [ r' | ] eqn:Hin.
  - inversion H; subst r'. apply IH in Hin.
    destruct Hin as (captured & rest & -> & _ & Hall & Hk).
    exists (String c captured), rest. simpl. rewrite Hc, Hall.
    repeat split; auto. discriminate.
  - exists (String c ""), s. simpl. rewrite Hc.
    repeat split; auto. discriminate.
Qed.

Lemma plusLazy_Some (p : ascii -> bool) (s : string) (k : string -> Matcher R) (r : R) :
  plusLazy p s k = Some r ->
  exists captured rest,
    s = (captured ++ rest)%string /\ captured <> ""
    /\ allChars p captured = true /\ k captured rest = Some r.
Proof.
  revert k; induction s as [ | c s IH ]; simpl; intros k H; [ discriminate | ].
  destruct (p c) eqn:Hc; [ | discriminate ].
  destruct (k (String c "") s) as [ r' | ] eqn:Hstop.
  - inversion H; subst r'. exists (String c ""), s. simpl. rewrite Hc.
    repeat split; auto. discriminate.
  - apply IH in H. destruct H as (captured & rest & -> & _ & Hall & Hk).
    exists (String c captured), rest. simpl. rewrite Hc, Hall.
    repeat split; auto. discriminate.
Qed.

(** A greedy run takes everything up to the first character outside the
    class, when the rest of the pattern matches from there. *)
Lemma plusGreedy_longest (p : ascii -> bool) (captured rest : string)
      (k : string -> Matcher R) (r : R) :
  captured <> "" ->
  allChars p captured = true ->
  match rest with EmptyString => True | String c _ => p c = false end ->
  k captured rest = Some r ->
  plusGreedy p (captured ++ rest) k = Some r.
Proof.
  revert k; induction captured as [ | c captured IH ]; intros k Hne Hall Hstop Hk.
  - contradiction.
  - simpl in *. apply andb_prop in Hall. destruct Hall as (Hc & Hall). rewrite Hc.
    destruct captured as [ | c' captured' ].
    + simpl. destruct rest as [ | d rest ]; simpl.
      * exact Hk.
      * rewrite Hstop. exact Hk.
    + rewrite (IH (fun x => k (String c x))); auto. discriminate.
Qed.

(** A lazy run stops at the first length from which the rest of the
    pattern matches. *)
Lemma plusLazy_shortest (p : ascii -> bool) (captured rest : string)
      (k : string -> Matcher R) (r : R) :
  captured <> "" ->
  allChars p captured = true ->
  k captured rest = Some r ->
  (forall shorter more,
      shorter <> "" -> more <> "" -> captured = (shorter ++ more)%string ->
      k shorter (more ++ rest)%string = None) ->
  plusLazy p (captured ++ rest) k = Some r.
Proof.
  revert k; induction captured as [ | c captured IH ]; intros k Hne Hall Hk Hshorter.
  - contradiction.
  - simpl in *. apply andb_prop in Hall. destruct Hall as (Hc & Hall). rewrite Hc.
    destruct captured as [ | c' captured' ].
    + simpl. rewrite Hk. reflexivity.
    + rewrite (Hshorter (String c "") (String c' captured')); try discriminate;
        [ | reflexivity ].
      apply (IH (fun x => k (String c x))); auto; [ discriminate | ].
      intros shorter more Hs Hm Heq.
      apply (Hshorter (String c shorter) more); try assumption; [ discriminate | ].
      simpl. rewrite Heq. reflexivity.
Qed.

Lemma search_head (m : Matcher R) (s : string) (r : R) :
  m s = Some r -> search m s = Some r.
Proof. intros H. destruct s; simpl; rewrite H; reflexivity. Qed.

Lemma search_Some (m : Matcher R) (s : string) (r : R) :
  search m s = Some r ->
  exists skipped rest, s = (skipped ++ rest)%string /\ m rest = Some r.
Proof.
  induction s as [ | c s IH ]; simpl.
  - destruct (m "") eqn:E; [ | discriminate ].
    intros H; inversion H; subst. exists "", "". auto.
  - destruct (m (String c s)) eqn:E.
    + intros H; inversion H; subst. exists "", (String c s). auto.
    + intros H. destruct (IH H) as (skipped & rest & -> & Hm).
      exists (String c skipped), rest. auto.
Qed.

(** A literal that opens with [git@] is found nowhere in a string
    without [@]. *)
Lemma search_git_at (l : string) (k : Matcher R) (s : string) :
  RepoDetector.noAt s = true ->
  search (lit ("git@" ++ l) k) s = None.
Proof.
  intros Hs.
  destruct (search (lit ("git@" ++ l) k) s) as [ r | ] eqn:E; [ | reflexivity ].
  apply search_Some in E. destruct E as (skipped & rest & -> & Hm).
  apply lit_Some in Hm. destruct Hm as (rest' & -> & _).
  unfold RepoDetector.noAt in Hs. rewrite !allChars_app in Hs.
  simpl in Hs. rewrite andb_false_r in Hs. discriminate.
Qed.

Lemma optGit_atEnd (r r' : R) (s : string) :
  opt ".git" (atEnd r) s = Some r' -> r' = r /\ (s = ".git" \/ s = "").
Proof.
  intros H. apply opt_Some in H. destruct H as [ (rest & -> & H) | H ].
  - destruct rest; [ | discriminate ]. inversion H. auto.
  - destruct s; [ | discriminate ]. inversion H. auto.
Qed.

Lemma repoTail_Some (k : string -> R) (s : string) (r : R) :
  RepoDetector.repoTail k s = Some r ->
  exists repo,
    r = k repo /\ RepoDetector.isRepoName repo = true
    /\ (s = (repo ++ ".git")%string \/ s = repo).
Proof.
  unfold RepoDetector.repoTail. intros H.
  apply plusLazy_Some in H. destruct H as (repo & rest & -> & Hne & Hall & H).
  apply optGit_atEnd in H. destruct H as (-> & Hrest).
  exists repo. split; [ reflexivity | ]. split.
  - unfold RepoDetector.isRepoName. destruct repo; [ contradiction | exact Hall ].
  - destruct Hrest as [ -> | -> ]; [ left; reflexivity | right ].
    clear. induction repo as [ | c repo IH ]; simpl; [ | rewrite IH ]; reflexivity.
Qed.

Lemma isRepoName_inv (repo : string) :
  RepoDetector.isRepoName repo = true -> repo <> "" /\ allChars anyChar repo = true.
Proof. destruct repo; simpl; intros H; [ discriminate | split; [ discriminate | exact H ] ]. Qed.

Lemma isSegment_inv (seg : string) :
  RepoDetector.isSegment seg = true -> seg <> "" /\ allChars notSlash seg = true.
Proof. destruct seg; simpl; intros H; [ discriminate | split; [ discriminate | exact H ] ]. Qed.

Lemma repoTail_with_suffix (k : string -> R) (repo : string) :
  RepoDetector.isRepoName repo = true ->
  RepoDetector.repoTail k (repo ++ ".git") = Some (k repo).
Proof.
  intros Hrepo. apply isRepoName_inv in Hrepo. destruct Hrepo as (Hne & Hall).
  unfold RepoDetector.repoTail.
  apply plusLazy_shortest; auto.
  intros shorter more _ Hmore _.
  destruct (opt ".git" (atEnd (k shorter)) (more ++ ".git")) as [ r | ] eqn:E;
    [ | reflexivity ].
  apply optGit_atEnd in E. destruct E as (_ & [ E | E ]);
    apply (f_equal String.length) in E; rewrite length_append in E; simpl in E;
    destruct more; [ contradiction | simpl in E; lia | contradiction | simpl in E; lia ].
Qed.

Lemma repoTail_without_suffix (k : string -> R) (repo : string) :
  RepoDetector.isRepoName repo = true ->
  ~ RepoDetector.endsWith ".git" repo ->
  RepoDetector.repoTail k repo = Some (k repo).
Proof.
  intros Hrepo Hsuffix. apply isRepoName_inv in Hrepo. destruct Hrepo as (Hne & Hall).
  unfold RepoDetector.repoTail.
  assert (Hnil : (repo ++ "")%string = repo).
  { clear. induction repo as [ | c repo IH ]; simpl; [ | rewrite IH ]; reflexivity. }
  rewrite <- Hnil at 1.
  apply plusLazy_shortest; auto.
  intros shorter more _ Hmore Heq.
  destruct (opt ".git" (atEnd (k shorter)) (more ++ "")) as [ r | ] eqn:E;
    [ | reflexivity ].
  apply optGit_atEnd in E. destruct E as (_ & [ E | E ]).
  - exfalso. apply Hsuffix. exists shorter. rewrite Heq. f_equal.
    rewrite <- E. clear. induction more as [ | c more IH ]; simpl;
      [ | rewrite <- IH ]; reflexivity.
  - destruct more; [ contradiction | discriminate ].
Qed.

Lemma segment_app (k : string -> Matcher R) (seg rest : string) (r : R) :
  RepoDetector.isSegment seg = true ->
  k seg rest = Some r ->
  RepoDetector.segment k (seg ++ "/" ++ rest) = Some r.
Proof.
  intros Hseg Hk. apply isSegment_inv in Hseg. destruct Hseg as (Hne & Hall).
  unfold RepoDetector.segment.
  apply plusGreedy_longest; auto.
  reflexivity.
Qed.

Lemma segment_Some (k : string -> Matcher R) (s : string) (r : R) :
  RepoDetector.segment k s = Some r ->
  exists seg rest,
    s = (seg ++ "/" ++ rest)%string
    /\ RepoDetector.isSegment seg = true
    /\ k seg rest = Some r.
Proof.
  unfold RepoDetector.segment. intros H.
  apply plusGreedy_Some in H. destruct H as (seg & rest & -> & Hne & Hall & H).
  apply lit_Some in H. destruct H as (rest' & -> & H).
  exists seg, rest'. split; [ reflexivity | ]. split; [ | exact H ].
  unfold RepoDetector.isSegment. destruct seg; [ contradiction | exact Hall ].
Qed.

End Matching.

(** ** [repo-detector.ts]: parsing git URLs *)

Import RepoDetector.

Lemma endsWith_app (x pre s : string) : endsWith x s -> endsWith x (pre ++ s).
Proof. intros (start & ->). exists (pre ++ start)%string. rewrite append_assoc. reflexivity. Qed.

Lemma ownerRepo_Some (s owner repo : string) :
  segment (fun o => repoTail (fun r => (o, r))) s = Some (owner, repo) ->
  isSegment owner = true /\ isRepoName repo = true
  /\ (endsWith ("/" ++ repo) s \/ endsWith ("/" ++ repo ++ ".git") s).
Proof.
  intros H. apply segment_Some in H. destruct H as (seg & rest & -> & Hseg & H).
  apply repoTail_Some in H. destruct H as (r & Heq & Hr & Hrest).
  inversion Heq; subst. split; [ exact Hseg | ]. split; [ exact Hr | ].
  destruct Hrest as [ -> | -> ]; [ right | left ]; exists seg; reflexivity.
Qed.

Lemma azureSshTail_Some (s organization project repo : string) :
  segment (fun o => segment (fun p => repoTail (fun r => (o, p, r)))) s
  = Some (organization, project, repo) ->
  isSegment organization = true /\ isSegment project = true /\ isRepoName repo = true
  /\ (endsWith ("/" ++ repo) s \/ endsWith ("/" ++ repo ++ ".git") s).
Proof.
  intros H. apply segment_Some in H. destruct H as (o & rest & -> & Ho & H).
  apply segment_Some in H. destruct H as (p & rest' & -> & Hp & H).
  apply repoTail_Some in H. destruct H as (r & Heq & Hr & Hrest).
  inversion Heq; subst. repeat (split; [ assumption | ]).
  destruct Hrest as [ -> | -> ]; [ right | left ];
    exists (o ++ "/" ++ p)%string; rewrite !append_assoc; reflexivity.
Qed.

Lemma azureHttpsTail_Some (s organization project repo : string) :
  segment (fun o => segment (fun p => lit "_git/" (repoTail (fun r => (o, p, r))))) s
  = Some (organization, project, repo) ->
  isSegment organization = true /\ isSegment project = true /\ isRepoName repo = true
  /\ (endsWith ("/" ++ repo) s \/ endsWith ("/" ++ repo ++ ".git") s).
Proof.
  intros H. apply segment_Some in H. destruct H as (o & rest & -> & Ho & H).
  apply segment_Some in H. destruct H as (p & rest' & -> & Hp & H).
  apply lit_Some in H. destruct H as (rest'' & -> & H).
  apply repoTail_Some in H. destruct H as (r & Heq & Hr & Hrest).
  inversion Heq; subst. repeat (split; [ assumption | ]).
  destruct Hrest as [ -> | -> ]; [ right | left ];
    exists (o ++ "/" ++ p ++ "/_git")%string; rewrite !append_assoc; reflexivity.
Qed.

(** What follows [https?] in a pattern that is searched for. *)
Lemma searchHttp_Some {R : Type} (host : string) (tail : Matcher R) (url : string) (r : R) :
  search (lit "http" (opt "s" (lit host tail))) url = Some r ->
  exists before rest, url = (before ++ rest)%string /\ tail rest = Some r.
Proof.
  intros H. apply search_Some in H. destruct H as (skipped & s & -> & H).
  apply lit_Some in H. destruct H as (s1 & -> & H).
  apply opt_Some in H. destruct H as [ (s2 & -> & H) | H ];
    apply lit_Some in H; destruct H as (rest & -> & H).
  - exists (skipped ++ "http" ++ "s" ++ host)%string, rest.
    split; [ rewrite !append_assoc; reflexivity | exact H ].
  - exists (skipped ++ "http" ++ host)%string, rest.
    split; [ rewrite !append_assoc; reflexivity | exact H ].
Qed.

Lemma searchLit_Some {R : Type} (l : string) (tail : Matcher R) (url : string) (r : R) :
  search (lit l tail) url = Some r ->
  exists before rest, url = (before ++ rest)%string /\ tail rest = Some r.
Proof.
  intros H. apply search_Some in H. destruct H as (skipped & s & -> & H).
  apply lit_Some in H. destruct H as (rest & -> & H).
  exists (skipped ++ l)%string, rest.
  split; [ rewrite !append_assoc; reflexivity | exact H ].
Qed.

(** X9: whatever the URL, [parseGitUrl] either returns an info that
    keeps the URL, has the type [detectRepoType] gives, a non-empty owner
    without a slash, and a non-empty repo name without a line break that
    ends the URL up to an optional [.git] (for Azure DevOps also the
    organization, equal to the owner, and a project; for GitHub neither),
    or throws [Unable to parse ... URL:] followed by the URL, naming the
    platform [detectRepoType] gives. *)
Theorem X9_parseGitUrl_outcome (gitUrl : string) :
  match parseGitUrl gitUrl with
  | Ok info =>
      RepoInfo.gitUrl info = gitUrl
      /\ RepoInfo.type info = detectRepoType gitUrl
      /\ isSegment (RepoInfo.owner info) = true
      /\ isRepoName (RepoInfo.repo info) = true
      /\ (endsWith ("/" ++ RepoInfo.repo info) gitUrl
          \/ endsWith ("/" ++ RepoInfo.repo info ++ ".git") gitUrl)
      /\ match RepoInfo.type info with
         | GitHub =>
             RepoInfo.organization info = None /\ RepoInfo.project info = None
         | AzureDevOps =>
             RepoInfo.organization info = Some (RepoInfo.owner info)
             /\ exists project,
                 RepoInfo.project info = Some project /\ isSegment project = true
         end
  | Throw e =>
      e = Error (match detectRepoType gitUrl with
                 | GitHub => "Unable to parse GitHub URL: "
                 | AzureDevOps => "Unable to parse Azure DevOps URL: "
                 end ++ gitUrl)
  end.
Proof.
  unfold parseGitUrl. destruct (detectRepoType gitUrl).
  - unfold parseGitHubUrl.
    destruct (githubSsh gitUrl) as [ [owner repo] | ] eqn:Hssh.
    + unfold githubSsh in Hssh. apply searchLit_Some in Hssh.
      destruct Hssh as (before & rest & -> & H).
      apply ownerRepo_Some in H. destruct H as (Ho & Hr & Hend). simpl.
      repeat (split; [ solve [ auto ] | ]).
      split; [ | auto ].
      destruct Hend as [ Hend | Hend ]; [ left | right ]; apply endsWith_app; exact Hend.
    + destruct (githubHttps gitUrl) as [ [owner repo] | ] eqn:Hhttps; [ | reflexivity ].
      unfold githubHttps in Hhttps. apply searchHttp_Some in Hhttps.
      destruct Hhttps as (before & rest & -> & H).
      apply ownerRepo_Some in H. destruct H as (Ho & Hr & Hend). simpl.
      repeat (split; [ solve [ auto ] | ]).
      split; [ | auto ].
      destruct Hend as [ Hend | Hend ]; [ left | right ]; apply endsWith_app; exact Hend.
  - unfold parseAzureDevOpsUrl.
    destruct (azureSsh gitUrl) as [ [[organization project] repo] | ] eqn:Hssh.
    + unfold azureSsh in Hssh. apply searchLit_Some in Hssh.
      destruct Hssh as (before & rest & -> & H).
      apply azureSshTail_Some in H. destruct H as (Ho & Hp & Hr & Hend). simpl.
      repeat (split; [ solve [ auto ] | ]).
      split; [ | split; [ reflexivity | exists project; auto ] ].
      destruct Hend as [ Hend | Hend ]; [ left | right ]; apply endsWith_app; exact Hend.
    + destruct (azureHttps gitUrl) as [ [[organization project] repo] | ] eqn:Hhttps;
        [ | reflexivity ].
      unfold azureHttps in Hhttps. apply searchHttp_Some in Hhttps.
      destruct Hhttps as (before & rest & -> & H).
      apply azureHttpsTail_Some in H. destruct H as (Ho & Hp & Hr & Hend). simpl.
      repeat (split; [ solve [ auto ] | ]).
      split; [ | split; [ reflexivity | exists project; auto ] ].
      destruct Hend as [ Hend | Hend ]; [ left | right ]; apply endsWith_app; exact Hend.
Qed.

Lemma ownerRepo_app (owner repo : string) :
  isSegment owner = true -> isRepoName repo = true ->
  segment (fun o => repoTail (fun r => (o, r))) (owner ++ "/" ++ repo ++ ".git")
  = Some (owner, repo)
  /\ (~ endsWith ".git" repo ->
      segment (fun o => repoTail (fun r => (o, r))) (owner ++ "/" ++ repo)
      = Some (owner, repo)).
Proof.
  intros Ho Hr. split.
  - apply segment_app; [ exact Ho | ]. apply repoTail_with_suffix; exact Hr.
  - intros Hsuffix. apply segment_app; [ exact Ho | ].
    apply repoTail_without_suffix; assumption.
Qed.

(** X10: a GitHub SSH URL [git@github.com:owner/repo.git] parses to its
    owner and repo, whatever dots or slashes the repo name holds; the
    [.git] suffix may be left out when the repo name does not itself end
    in [.git]; the display name is [owner/repo]. *)
Theorem X10_github_ssh_url (owner repo : string) :
  isSegment owner = true ->
  isRepoName repo = true ->
  parseGitUrl ("git@github.com:" ++ owner ++ "/" ++ repo ++ ".git")
  = Ok (githubInfo ("git@github.com:" ++ owner ++ "/" ++ repo ++ ".git") (owner, repo))
  /\ (~ endsWith ".git" repo ->
      parseGitUrl ("git@github.com:" ++ owner ++ "/" ++ repo)
      = Ok (githubInfo ("git@github.com:" ++ owner ++ "/" ++ repo) (owner, repo)))
  /\ (forall gitUrl,
         getRepoDisplayName (githubInfo gitUrl (owner, repo))
         = (owner ++ "/" ++ repo)%string).
Proof.
  intros Ho Hr. destruct (ownerRepo_app owner repo Ho Hr) as (Hgit & Hplain).
  split; [ | split ].
  - unfold parseGitUrl.
    change (detectRepoType ("git@github.com:" ++ owner ++ "/" ++ repo ++ ".git"))
      with GitHub.
    unfold parseGitHubUrl, githubSsh.
    rewrite (search_head _ _ (owner, repo)); [ reflexivity | ].
    rewrite lit_app. exact Hgit.
  - intros Hsuffix. unfold parseGitUrl.
    change (detectRepoType ("git@github.com:" ++ owner ++ "/" ++ repo)) with GitHub.
    unfold parseGitHubUrl, githubSsh.
    rewrite (search_head _ _ (owner, repo)); [ reflexivity | ].
    rewrite lit_app. exact (Hplain Hsuffix).
  - reflexivity.
Qed.

Lemma X10_github_ssh_url_witness :
  parseGitUrl "git@github.com:owner/my.repo.git"
  = Ok {| RepoInfo.type := GitHub;
          RepoInfo.gitUrl := "git@github.com:owner/my.repo.git";
          RepoInfo.owner := "owner";
          RepoInfo.repo := "my.repo";
          RepoInfo.organization := None;
          RepoInfo.project := None |}.
Proof. exact (proj1 (X10_github_ssh_url "owner" "my.repo" eq_refl eq_refl)). Defined.

(** A URL without [@] holds no SSH form. *)
Lemma githubSsh_noAt (gitUrl : string) : noAt gitUrl = true -> githubSsh gitUrl = None.
Proof. intros H. exact (search_git_at "github.com:" _ gitUrl H). Qed.

Lemma azureSsh_noAt (gitUrl : string) : noAt gitUrl = true -> azureSsh gitUrl = None.
Proof. intros H. exact (search_git_at "ssh.dev.azure.com:v3/" _ gitUrl H). Qed.

(** [https?] followed by a host that does not start with [s]. *)
Lemma httpHost_app {R : Type} (secure : bool) (host : string) (tail : Matcher R)
      (rest : string) (r : R) :
  match host with
  | String c _ => Ascii.eqb "s" c = false
  | EmptyString => False
  end ->
  tail rest = Some r ->
  lit "http" (opt "s" (lit host tail)) (scheme secure ++ host ++ rest) = Some r.
Proof.
  intros Hhost Htail. destruct secure.
  - change (scheme true ++ host ++ rest)%string with ("http" ++ "s" ++ host ++ rest)%string.
    rewrite lit_app. unfold opt. rewrite !lit_app, Htail. reflexivity.
  - change (scheme false ++ host ++ rest)%string with ("http" ++ host ++ rest)%string.
    rewrite lit_app. unfold opt.
    assert (Hskip : lit "s" (lit host tail) (host ++ rest) = None).
    { destruct host as [ | c host ]; [ contradiction | ].
      unfold lit at 1. cbn [dropPrefix append]. rewrite Hhost. reflexivity. }
    rewrite Hskip, lit_app. exact Htail.
Qed.

Lemma noAt_app (a b : string) : noAt (a ++ b) = noAt a && noAt b.
Proof. apply allChars_app. Qed.

(** X11: a GitHub HTTP or HTTPS URL [https://github.com/owner/repo.git]
    without [@] in owner and repo parses to its owner and repo; the
    [.git] suffix may be left out when the repo name does not itself end
    in [.git]. *)
Theorem X11_github_https_url (secure : bool) (owner repo : string) :
  isSegment owner = true ->
  isRepoName repo = true ->
  noAt owner = true ->
  noAt repo = true ->
  parseGitUrl (scheme secure ++ "://github.com/" ++ owner ++ "/" ++ repo ++ ".git")
  = Ok (githubInfo (scheme secure ++ "://github.com/" ++ owner ++ "/" ++ repo ++ ".git")
          (owner, repo))
  /\ (~ endsWith ".git" repo ->
      parseGitUrl (scheme secure ++ "://github.com/" ++ owner ++ "/" ++ repo)
      = Ok (githubInfo (scheme secure ++ "://github.com/" ++ owner ++ "/" ++ repo)
              (owner, repo))).
Proof.
  intros Ho Hr Hao Har. destruct (ownerRepo_app owner repo Ho Hr) as (Hgit & Hplain).
  split.
  - unfold parseGitUrl.
    assert (Hd : detectRepoType
                   (scheme secure ++ "://github.com/" ++ owner ++ "/" ++ repo ++ ".git")
                 = GitHub) by (destruct secure; reflexivity).
    rewrite Hd. unfold parseGitHubUrl.
    rewrite githubSsh_noAt.
    + unfold githubHttps.
      rewrite (search_head _ _ (owner, repo)); [ reflexivity | ].
      apply httpHost_app; [ reflexivity | exact Hgit ].
    + rewrite !noAt_app, Hao, Har. destruct secure; reflexivity.
  - intros Hsuffix. unfold parseGitUrl.
    assert (Hd : detectRepoType (scheme secure ++ "://github.com/" ++ owner ++ "/" ++ repo)
                 = GitHub) by (destruct secure; reflexivity).
    rewrite Hd. unfold parseGitHubUrl.
    rewrite githubSsh_noAt.
    + unfold githubHttps.
      rewrite (search_head _ _ (owner, repo)); [ reflexivity | ].
      apply httpHost_app; [ reflexivity | exact (Hplain Hsuffix) ].
    + rewrite !noAt_app, Hao, Har. destruct secure; reflexivity.
Qed.

Lemma X11_github_https_url_witness :
  parseGitUrl "https://github.com/owner/repo"
  = Ok {| RepoInfo.type := GitHub;
          RepoInfo.gitUrl := "https://github.com/owner/repo";
          RepoInfo.owner := "owner";
          RepoInfo.repo := "repo";
          RepoInfo.organization := None;
          RepoInfo.project := None |}.
Proof.
  apply (proj2 (X11_github_https_url true "owner" "repo" eq_refl eq_refl eq_refl eq_refl)).
  intros (start & H).
  assert (Hlen := f_equal String.length H). rewrite length_append in Hlen. simpl in Hlen.
  assert (Hstart : String.length start = 0) by lia.
  destruct start; [ discriminate H | discriminate Hstart ].
Defined.

(** X12: an Azure DevOps SSH URL
    [git@ssh.dev.azure.com:v3/organization/project/repo] parses to its
    three parts, the owner being the organization, with or without a
    [.git] suffix; the display name is [organization/project/repo]. *)
Theorem X12_azure_ssh_url (organization project repo : string) :
  isSegment organization = true ->
  isSegment project = true ->
  isRepoName repo = true ->
  parseGitUrl ("git@ssh.dev.azure.com:v3/" ++ organization ++ "/" ++ project ++ "/"
               ++ repo ++ ".git")
  = Ok (azureInfo ("git@ssh.dev.azure.com:v3/" ++ organization ++ "/" ++ project ++ "/"
                   ++ repo ++ ".git") (organization, project, repo))
  /\ (~ endsWith ".git" repo ->
      parseGitUrl ("git@ssh.dev.azure.com:v3/" ++ organization ++ "/" ++ project ++ "/"
                   ++ repo)
      = Ok (azureInfo ("git@ssh.dev.azure.com:v3/" ++ organization ++ "/" ++ project
                       ++ "/" ++ repo) (organization, project, repo)))
  /\ (forall gitUrl,
         getRepoDisplayName (azureInfo gitUrl (organization, project, repo))
         = (organization ++ "/" ++ project ++ "/" ++ repo)%string).
Proof.
  intros Ho Hp Hr. split; [ | split ].
  - unfold parseGitUrl.
    change (detectRepoType ("git@ssh.dev.azure.com:v3/" ++ organization ++ "/" ++ project
                            ++ "/" ++ repo ++ ".git")) with AzureDevOps.
    unfold parseAzureDevOpsUrl, azureSsh.
    rewrite (search_head _ _ (organization, project, repo)); [ reflexivity | ].
    rewrite lit_app.
    apply segment_app; [ exact Ho | ]. apply segment_app; [ exact Hp | ].
    apply repoTail_with_suffix; exact Hr.
  - intros Hsuffix. unfold parseGitUrl.
    change (detectRepoType ("git@ssh.dev.azure.com:v3/" ++ organization ++ "/" ++ project
                            ++ "/" ++ repo)) with AzureDevOps.
    unfold parseAzureDevOpsUrl, azureSsh.
    rewrite (search_head _ _ (organization, project, repo)); [ reflexivity | ].
    rewrite lit_app.
    apply segment_app; [ exact Ho | ]. apply segment_app; [ exact Hp | ].
    apply repoTail_without_suffix; assumption.
  - reflexivity.
Qed.

Lemma X12_azure_ssh_url_witness :
  parseGitUrl "git@ssh.dev.azure.com:v3/org/project/repo.git"
  = Ok {| RepoInfo.type := AzureDevOps;
          RepoInfo.gitUrl := "git@ssh.dev.azure.com:v3/org/project/repo.git";
          RepoInfo.owner := "org";
          RepoInfo.repo := "repo";
          RepoInfo.organization := Some "org";
          RepoInfo.project := Some "project" |}.
Proof.
  exact (proj1 (X12_azure_ssh_url "org" "project" "repo" eq_refl eq_refl eq_refl)).
Defined.

(** X13: an Azure DevOps HTTP or HTTPS URL
    [https://dev.azure.com/organization/project/_git/repo] without [@] in
    its parts parses to them, with or without a [.git] suffix. *)
Theorem X13_azure_https_url (secure : bool) (organization project repo : string) :
  isSegment organization = true ->
  isSegment project = true ->
  isRepoName repo = true ->
  noAt organization = true ->
  noAt project = true ->
  noAt repo = true ->
  parseGitUrl (scheme secure ++ "://dev.azure.com/" ++ organization ++ "/" ++ project
               ++ "/" ++ "_git/" ++ repo ++ ".git")
  = Ok (azureInfo (scheme secure ++ "://dev.azure.com/" ++ organization ++ "/" ++ project
                   ++ "/" ++ "_git/" ++ repo ++ ".git") (organization, project, repo))
  /\ (~ endsWith ".git" repo ->
      parseGitUrl (scheme secure ++ "://dev.azure.com/" ++ organization ++ "/" ++ project
                   ++ "/" ++ "_git/" ++ repo)
      = Ok (azureInfo (scheme secure ++ "://dev.azure.com/" ++ organization ++ "/"
                       ++ project ++ "/" ++ "_git/" ++ repo)
              (organization, project, repo))).
Proof.
  intros Ho Hp Hr Hao Hap Har. split.
  - unfold parseGitUrl.
    assert (Hd : detectRepoType
                   (scheme secure ++ "://dev.azure.com/" ++ organization ++ "/" ++ project
                    ++ "/" ++ "_git/" ++ repo ++ ".git") = AzureDevOps)
      by (destruct secure; reflexivity).
    rewrite Hd. unfold parseAzureDevOpsUrl.
    rewrite azureSsh_noAt.
    + unfold azureHttps.
      rewrite (search_head _ _ (organization, project, repo)); [ reflexivity | ].
      apply httpHost_app; [ reflexivity | ].
      apply segment_app; [ exact Ho | ]. apply segment_app; [ exact Hp | ].
      rewrite lit_app. apply repoTail_with_suffix; exact Hr.
    + rewrite !noAt_app, Hao, Hap, Har. destruct secure; reflexivity.
  - intros Hsuffix. unfold parseGitUrl.
    assert (Hd : detectRepoType
                   (scheme secure ++ "://dev.azure.com/" ++ organization ++ "/" ++ project
                    ++ "/" ++ "_git/" ++ repo) = AzureDevOps)
      by (destruct secure; reflexivity).
    rewrite Hd. unfold parseAzureDevOpsUrl.
    rewrite azureSsh_noAt.
    + unfold azureHttps.
      rewrite (search_head _ _ (organization, project, repo)); [ reflexivity | ].
      apply httpHost_app; [ reflexivity | ].
      apply segment_app; [ exact Ho | ]. apply segment_app; [ exact Hp | ].
      rewrite lit_app. apply repoTail_without_suffix; assumption.
    + rewrite !noAt_app, Hao, Hap, Har. destruct secure; reflexivity.
Qed.

Lemma X13_azure_https_url_witness :
  parseGitUrl "http://dev.azure.com/org/project/_git/my.repo.git"
  = Ok {| RepoInfo.type := AzureDevOps;
          RepoInfo.gitUrl := "http://dev.azure.com/org/project/_git/my.repo.git";
          RepoInfo.owner := "org";
          RepoInfo.repo := "my.repo";
          RepoInfo.organization := Some "org";
          RepoInfo.project := Some "project" |}.
Proof.
  exact (proj1 (X13_azure_https_url false "org" "project" "my.repo"
                  eq_refl eq_refl eq_refl eq_refl eq_refl eq_refl)).
Defined.

(** X14: [detectRepoType] answers Azure DevOps exactly for the URLs that
    start with [git@ssh.dev.azure.com:], [http://dev.azure.com/] or
    [https://dev.azure.com/], whatever follows, and GitHub for every
    other string. *)
Theorem X14_detectRepoType_prefixes (gitUrl : string) :
  detectRepoType gitUrl = AzureDevOps
  <-> exists rest,
      gitUrl = ("git@ssh.dev.azure.com:" ++ rest)%string
      \/ gitUrl = ("http://dev.azure.com/" ++ rest)%string
      \/ gitUrl = ("https://dev.azure.com/" ++ rest)%string.
Proof.
  unfold detectRepoType, test. split.
  - destruct (azureSshPrefix gitUrl) as [ [] | ] eqn:Hssh.
    + intros _. unfold azureSshPrefix in Hssh. apply lit_Some in Hssh.
      destruct Hssh as (rest & -> & _). exists rest; auto.
    + destruct (azureHttpsPrefix gitUrl) as [ [] | ] eqn:Hhttps; [ | discriminate ].
      intros _. unfold azureHttpsPrefix in Hhttps.
      apply lit_Some in Hhttps. destruct Hhttps as (s1 & -> & H).
      apply opt_Some in H. destruct H as [ (s2 & -> & H) | H ];
        apply lit_Some in H; destruct H as (rest & -> & _); exists rest; auto.
  - intros (rest & [ -> | [ -> | -> ] ]); reflexivity.
Qed.
